(** * openai-agents-go: run items, run results and the workflow runner

    A shallow embedding of
      - the run items of the agents package and their conversion to input
        items,
      - [agents/result.go]: the terminal and the streaming run result,
      - the workflow runner: its manifest, [workflowrunner/validator.go],
        the builder of the agent graph and the conversion of inputs,
      - [workflowrunner/service.go]: the publishers of a run, the approvals
        of a session and the error of a run,
    together with the properties of these functions that the design
    document of the repository states, numbered C1 to C10, and further
    properties read off the code, numbered X1 to X28. *)

From stdpp Require Import base option list strings pretty gmap.
From Stdlib Require Import ZArith Ascii String Lia.

#[local] Set Warnings "-register-all,-clear-no-such-hyp".

Local Open Scope string_scope.
Local Open Scope list_scope.

(** ** Go's panics

    A Go function either returns a value or panics.  A panic aborts the
    caller too, which is what the bind of this monad does. *)

Inductive go (A : Type) : Type :=
| Ok (a : A)
| Panic (msg : string).

Arguments Ok {A} a.
Arguments Panic {A} msg.

Definition go_bind {A B : Type} (k : A -> go B) (m : go A) : go B :=
  match m with
  | Ok a => k a
  | Panic msg => Panic msg
  end.

#[global] Instance go_mbind : MBind go := @go_bind.
#[global] Instance go_mret : MRet go := @Ok.

Fixpoint go_mapM {A B : Type} (f : A -> go B) (l : list A) : go (list B) :=
  match l with
  | [] => Ok []
  | a :: l' => b ← f a; bs ← go_mapM f l'; Ok (b :: bs)
  end.

Definition returns {A : Type} (m : go A) : Prop := exists a, m = Ok a.

(** ** The packages the agents package builds on

    The raw item types of [openai-go/responses], the conversions of the
    [openaitypes] package into the input-item union, [Agent], [Input],
    [ModelResponse] with its field [ResponseID], and the item helper
    [InputToNewInputList] are used by the functions below but declared
    elsewhere.  They are taken as they are used: types without structure
    and total functions. *)

Class Responses : Type := {
  Agent : Type;
  Input : Type;
  ModelResponse : Type;
  any : Type;
  TResponseInputItem : Type;
  zero_TResponseInputItem : TResponseInputItem;
  responses_ResponseOutputMessage : Type;
  responses_ResponseFunctionToolCall : Type;
  responses_ResponseComputerToolCall : Type;
  responses_ResponseOutputItemLocalShellCall : Type;
  responses_ResponseFileSearchToolCall : Type;
  responses_ResponseFunctionWebSearch : Type;
  responses_ResponseCodeInterpreterToolCall : Type;
  responses_ResponseOutputItemImageGenerationCall : Type;
  responses_ResponseOutputItemMcpCall : Type;
  responses_ResponseInputItemFunctionCallOutputParam : Type;
  responses_ResponseInputItemComputerCallOutputParam : Type;
  responses_ResponseInputItemLocalShellCallOutputParam : Type;
  responses_ResponseReasoningItem : Type;
  responses_ResponseOutputItemMcpListTools : Type;
  responses_ResponseOutputItemMcpApprovalRequest : Type;
  responses_ResponseInputItemMcpApprovalResponseParam : Type;
  ResponseInputItemUnionParamFromResponseOutputMessage :
    responses_ResponseOutputMessage -> TResponseInputItem;
  ResponseInputItemUnionParamFromResponseFunctionToolCall :
    responses_ResponseFunctionToolCall -> TResponseInputItem;
  ResponseInputItemUnionParamFromResponseComputerToolCall :
    responses_ResponseComputerToolCall -> TResponseInputItem;
  ResponseInputItemUnionParamFromResponseOutputItemLocalShellCall :
    responses_ResponseOutputItemLocalShellCall -> TResponseInputItem;
  ResponseInputItemUnionParamFromResponseInputItemFunctionCallOutputParam :
    responses_ResponseInputItemFunctionCallOutputParam -> TResponseInputItem;
  ResponseInputItemUnionParamFromResponseInputItemComputerCallOutputParam :
    responses_ResponseInputItemComputerCallOutputParam -> TResponseInputItem;
  ResponseInputItemUnionParamFromResponseInputItemLocalShellCallOutputParam :
    responses_ResponseInputItemLocalShellCallOutputParam -> TResponseInputItem;
  ResponseInputItemUnionParamFromResponseReasoningItem :
    responses_ResponseReasoningItem -> TResponseInputItem;
  ResponseInputItemUnionParamFromResponseOutputItemMcpListTools :
    responses_ResponseOutputItemMcpListTools -> TResponseInputItem;
  ResponseInputItemUnionParamFromResponseOutputItemMcpApprovalRequest :
    responses_ResponseOutputItemMcpApprovalRequest -> TResponseInputItem;
  ResponseInputItemUnionParamFromResponseInputItemMcpApprovalResponseParam :
    responses_ResponseInputItemMcpApprovalResponseParam -> TResponseInputItem;
  InputToNewInputList : Input -> list TResponseInputItem;
  ModelResponse_ResponseID : ModelResponse -> string
}.

(** ** agents/items.go *)

Module Items.
Section WithResponses.
Context `{R : Responses}.

(** [ToolCallItemType]: the eight types that declare [isToolCallItemType]. *)
Inductive ToolCallItemType : Type :=
| ResponseFunctionToolCall (v : responses_ResponseFunctionToolCall)
| ResponseComputerToolCall (v : responses_ResponseComputerToolCall)
| ResponseOutputItemLocalShellCall (v : responses_ResponseOutputItemLocalShellCall)
| ResponseFileSearchToolCall (v : responses_ResponseFileSearchToolCall)
| ResponseFunctionWebSearch (v : responses_ResponseFunctionWebSearch)
| ResponseCodeInterpreterToolCall (v : responses_ResponseCodeInterpreterToolCall)
| ResponseOutputItemImageGenerationCall (v : responses_ResponseOutputItemImageGenerationCall)
| ResponseOutputItemMcpCall (v : responses_ResponseOutputItemMcpCall).

(** [ToolCallOutputRawItem]: the three types that declare
    [isToolCallOutputRawItem]. *)
Inductive ToolCallOutputRawItem : Type :=
| ResponseInputItemFunctionCallOutputParam
    (v : responses_ResponseInputItemFunctionCallOutputParam)
| ResponseInputItemComputerCallOutputParam
    (v : responses_ResponseInputItemComputerCallOutputParam)
| ResponseInputItemLocalShellCallOutputParam
    (v : responses_ResponseInputItemLocalShellCallOutputParam).

(** The item structs.  [*Agent] fields are pointers, hence options; the
    [Type] field of each struct is the constant string named in its
    comment. *)
Record MessageOutputItem : Type := {
  moi_Agent : option Agent;
  moi_RawItem : responses_ResponseOutputMessage;
  moi_Type : string
}.

Record HandoffCallItem : Type := {
  hci_Agent : option Agent;
  hci_RawItem : responses_ResponseFunctionToolCall;
  hci_Type : string
}.

Record HandoffOutputItem : Type := {
  hoi_Agent : option Agent;
  hoi_RawItem : TResponseInputItem;
  hoi_SourceAgent : option Agent;
  hoi_TargetAgent : option Agent;
  hoi_Type : string
}.

Record ToolCallItem : Type := {
  tci_Agent : option Agent;
  tci_RawItem : ToolCallItemType;
  tci_Type : string
}.

Record ToolCallOutputItem : Type := {
  tcoi_Agent : option Agent;
  tcoi_RawItem : ToolCallOutputRawItem;
  tcoi_Output : any;
  tcoi_Type : string
}.

Record ReasoningItem : Type := {
  ri_Agent : option Agent;
  ri_RawItem : responses_ResponseReasoningItem;
  ri_Type : string
}.

Record MCPListToolsItem : Type := {
  mlti_Agent : option Agent;
  mlti_RawItem : responses_ResponseOutputItemMcpListTools;
  mlti_Type : string
}.

Record MCPApprovalRequestItem : Type := {
  mari_Agent : option Agent;
  mari_RawItem : responses_ResponseOutputItemMcpApprovalRequest;
  mari_Type : string
}.

Record MCPApprovalResponseItem : Type := {
  marsi_Agent : option Agent;
  marsi_RawItem : responses_ResponseInputItemMcpApprovalResponseParam;
  marsi_Type : string
}.

(** [RunItem]: the nine structs that declare [isRunItem]. *)
Inductive RunItem : Type :=
| RunMessageOutputItem (item : MessageOutputItem)
| RunHandoffCallItem (item : HandoffCallItem)
| RunHandoffOutputItem (item : HandoffOutputItem)
| RunToolCallItem (item : ToolCallItem)
| RunToolCallOutputItem (item : ToolCallOutputItem)
| RunReasoningItem (item : ReasoningItem)
| RunMCPListToolsItem (item : MCPListToolsItem)
| RunMCPApprovalRequestItem (item : MCPApprovalRequestItem)
| RunMCPApprovalResponseItem (item : MCPApprovalResponseItem).

(** [%T] of a tool call item, as [fmt] prints it. *)
Definition ToolCallItemType_name (input : ToolCallItemType) : string :=
  match input with
  | ResponseFunctionToolCall _ => "agents.ResponseFunctionToolCall"
  | ResponseComputerToolCall _ => "agents.ResponseComputerToolCall"
  | ResponseOutputItemLocalShellCall _ => "agents.ResponseOutputItemLocalShellCall"
  | ResponseFileSearchToolCall _ => "agents.ResponseFileSearchToolCall"
  | ResponseFunctionWebSearch _ => "agents.ResponseFunctionWebSearch"
  | ResponseCodeInterpreterToolCall _ => "agents.ResponseCodeInterpreterToolCall"
  | ResponseOutputItemImageGenerationCall _ =>
      "agents.ResponseOutputItemImageGenerationCall"
  | ResponseOutputItemMcpCall _ => "agents.ResponseOutputItemMcpCall"
  end.

Definition TResponseInputItemFromResponseFunctionToolCall
    (input : responses_ResponseFunctionToolCall) : TResponseInputItem :=
  ResponseInputItemUnionParamFromResponseFunctionToolCall input.

Definition TResponseInputItemFromResponseComputerToolCall
    (input : responses_ResponseComputerToolCall) : TResponseInputItem :=
  ResponseInputItemUnionParamFromResponseComputerToolCall input.

Definition TResponseInputItemFromResponseOutputItemLocalShellCall
    (input : responses_ResponseOutputItemLocalShellCall) : TResponseInputItem :=
  ResponseInputItemUnionParamFromResponseOutputItemLocalShellCall input.

(** The type switch has three cases and a panicking default. *)
Definition TResponseInputItemFromToolCallItemType
    (input : ToolCallItemType) : go TResponseInputItem :=
  match input with
  | ResponseFunctionToolCall v =>
      Ok (TResponseInputItemFromResponseFunctionToolCall v)
  | ResponseComputerToolCall v =>
      Ok (TResponseInputItemFromResponseComputerToolCall v)
  | ResponseOutputItemLocalShellCall v =>
      Ok (TResponseInputItemFromResponseOutputItemLocalShellCall v)
  | v => Panic ("unexpected ToolCallItemType type " ++ ToolCallItemType_name v)
  end.

Definition ToolCallOutputItem_ToInputItem
    (item : ToolCallOutputItem) : go TResponseInputItem :=
  match tcoi_RawItem item with
  | ResponseInputItemFunctionCallOutputParam rawItem =>
      Ok (ResponseInputItemUnionParamFromResponseInputItemFunctionCallOutputParam rawItem)
  | ResponseInputItemComputerCallOutputParam rawItem =>
      Ok (ResponseInputItemUnionParamFromResponseInputItemComputerCallOutputParam rawItem)
  | ResponseInputItemLocalShellCallOutputParam rawItem =>
      Ok (ResponseInputItemUnionParamFromResponseInputItemLocalShellCallOutputParam rawItem)
  end.

(** The method [ToInputItem] of the interface [RunItem], dispatched on the
    dynamic type. *)
Definition ToInputItem (item : RunItem) : go TResponseInputItem :=
  match item with
  | RunMessageOutputItem item =>
      Ok (ResponseInputItemUnionParamFromResponseOutputMessage (moi_RawItem item))
  | RunHandoffCallItem item =>
      Ok (ResponseInputItemUnionParamFromResponseFunctionToolCall (hci_RawItem item))
  | RunHandoffOutputItem item => Ok (hoi_RawItem item)
  | RunToolCallItem item => TResponseInputItemFromToolCallItemType (tci_RawItem item)
  | RunToolCallOutputItem item => ToolCallOutputItem_ToInputItem item
  | RunReasoningItem item =>
      Ok (ResponseInputItemUnionParamFromResponseReasoningItem (ri_RawItem item))
  | RunMCPListToolsItem item =>
      Ok (ResponseInputItemUnionParamFromResponseOutputItemMcpListTools (mlti_RawItem item))
  | RunMCPApprovalRequestItem item =>
      Ok (ResponseInputItemUnionParamFromResponseOutputItemMcpApprovalRequest
            (mari_RawItem item))
  | RunMCPApprovalResponseItem item =>
      Ok (ResponseInputItemUnionParamFromResponseInputItemMcpApprovalResponseParam
            (marsi_RawItem item))
  end.

(** *** agents/result.go: [toInputList]

    [result] is made with [len(newRunItems)] zero items and filled by index;
    a panicking conversion leaves the loop and the function. *)
Fixpoint toInputList_loop (i : nat) (newRunItems : list RunItem)
    (result : list TResponseInputItem) : go (list TResponseInputItem) :=
  match newRunItems with
  | [] => Ok result
  | item :: rest =>
      x ← ToInputItem item;
      toInputList_loop (S i) rest (<[i := x]> result)
  end.

Definition toInputList (input : Input) (newRunItems : list RunItem)
    : go (list TResponseInputItem) :=
  let originalItems := InputToNewInputList input in
  result ← toInputList_loop 0 newRunItems
              (replicate (List.length newRunItems) zero_TResponseInputItem);
  Ok (originalItems ++ result).

(** The input list as the design document words it: the normalized
    original input followed by the normalized form of each new item. *)
Definition to_input_list_spec (original_input : Input) (new_items : list RunItem)
    : go (list TResponseInputItem) :=
  normalized ← go_mapM ToInputItem new_items;
  Ok (InputToNewInputList original_input ++ normalized).

(** The tool calls for which the type switch has no case. *)
Definition unhandledToolCall (input : ToolCallItemType) : bool :=
  match input with
  | ResponseFunctionToolCall _ => false
  | ResponseComputerToolCall _ => false
  | ResponseOutputItemLocalShellCall _ => false
  | _ => true
  end.

Definition unhandledItem (item : RunItem) : bool :=
  match item with
  | RunToolCallItem item => unhandledToolCall (tci_RawItem item)
  | _ => false
  end.

End WithResponses.
End Items.

(** ** agents/result.go: the streaming run result *)

Module Streaming.
Import Items.
Section WithResponses.
Context `{R : Responses}.

(** Modelled from the spec: guardrail.go is not among the sources.  A
    guardrail result "carries a tripwire-triggered boolean and arbitrary
    structured output info"; [checkErrors] reads it as
    [guardrailResult.Output.TripwireTriggered].  The guardrail itself is
    kept by name. *)
Record GuardrailFunctionOutput : Type := {
  OutputInfo : any;
  TripwireTriggered : bool
}.

Record InputGuardrailResult : Type := {
  igr_Guardrail : string;
  igr_Output : GuardrailFunctionOutput
}.

Record OutputGuardrailResult : Type := {
  ogr_Guardrail : string;
  ogr_AgentOutput : any;
  ogr_Agent : option Agent;
  ogr_Output : GuardrailFunctionOutput
}.

(** [RunErrorDetails], with the fields [createErrorDetails] fills (the
    [context.Context] apart). *)
Record RunErrorDetails : Type := {
  red_Input : Input;
  red_NewItems : list RunItem;
  red_RawResponses : list ModelResponse;
  red_LastAgent : option Agent;
  red_InputGuardrailResults : list InputGuardrailResult;
  red_OutputGuardrailResults : list OutputGuardrailResult
}.

(** [RunResult], the terminal result, and its two methods. *)
Record RunResult : Type := {
  rr_Input : Input;
  rr_NewItems : list RunItem;
  rr_RawResponses : list ModelResponse;
  rr_FinalOutput : option any;
  rr_InputGuardrailResults : list InputGuardrailResult;
  rr_OutputGuardrailResults : list OutputGuardrailResult;
  rr_LastAgent : option Agent
}.

Definition lastResponseID (rawResponses : list ModelResponse) : string :=
  match last rawResponses with
  | None => ""
  | Some response => ModelResponse_ResponseID response
  end.

Definition RunResult_ToInputList (r : RunResult) : go (list TResponseInputItem) :=
  toInputList (rr_Input r) (rr_NewItems r).

Definition RunResult_LastResponseID (r : RunResult) : string :=
  lastResponseID (rr_RawResponses r).

(** *** Errors

    [checkErrors] writes through a [*AgentsError]: the [RunData] of an error
    object changes while a task result and the stored error both point to
    it.  The [AgentsError] objects therefore live in a store, a list indexed
    by address, and an error value refers to its object by address. *)
Record AgentsError : Type := {
  RunData : option RunErrorDetails
}.

Definition loc := nat.

(** Modelled from the spec: errors.go is not among the sources.  The two
    "dedicated" errors embed a [*AgentsError] ([maxTurnsErr.AgentsError.RunData]
    in [checkErrors]); [errors.As] with a [*AgentsError] target reaches that
    object, as [wrapRunError] of the runner service relies on.
    [Errorf_w prefix err] is [fmt.Errorf(prefix + ": %w", err)]. *)
Inductive error : Type :=
| AgentsErrorAt (p : loc) (msg : string)
| MaxTurnsExceededError (p : loc) (msg : string)
| InputGuardrailTripwireTriggeredError (p : loc) (g : InputGuardrailResult)
| OtherError (msg : string)
| Errorf_w (prefix : string) (err : error).

Fixpoint errors_As (err : error) : option loc :=
  match err with
  | AgentsErrorAt p _ => Some p
  | MaxTurnsExceededError p _ => Some p
  | InputGuardrailTripwireTriggeredError p _ => Some p
  | OtherError _ => None
  | Errorf_w _ err => errors_As err
  end.

(** Modelled from the spec: stream_events.go is not among the sources.  A
    stream event is a raw delta event, an agent-updated event or a run-item
    event; [queueCompleteSentinel] is the producer's last element. *)
Inductive StreamEvent : Type :=
| RawResponsesStreamEvent (data : any)
| AgentUpdatedStreamEvent (newAgent : option Agent)
| RunItemStreamEvent (name : string) (item : RunItem)
| queueCompleteSentinel.

Definition is_queueCompleteSentinel (item : StreamEvent) : bool :=
  match item with
  | queueCompleteSentinel => true
  | _ => false
  end.

(** Modelled from the spec: the asynctask package is not among the sources.
    A task handle is "independently cancellable and awaitable and reports
    success/failure exactly once": it is running or done, remembers a
    cancellation request, and once done holds the error of its function. *)
Record Task : Type := {
  task_done : bool;
  task_cancelRequested : bool;
  task_Error : option error
}.

Definition Task_IsDone (t : Task) : bool := task_done t.

Definition Task_Cancel (t : Task) : Task :=
  {| task_done := task_done t; task_cancelRequested := true;
     task_Error := task_Error t |}.

(** The result of [Await] on a task that is done. *)
Definition Task_result_Error (t : Task) : option error := task_Error t.

Definition Task_finish (err : option error) (t : Task) : Task :=
  {| task_done := true; task_cancelRequested := task_cancelRequested t;
     task_Error := err |}.

(** [RunResultStreaming].  Every field of the struct is an atomic cell; a
    state is the content of the cells.  [currentTurn] and [maxTurns] are
    [uint64] values.  The queues are the pending elements, oldest first.
    [agentsErrors] is the store of [AgentsError] objects.  The fields
    [context], [currentAgentOutputType] and [trace] are not read by any
    function below and are left out. *)
Record RunResultStreaming : Type := {
  input : Input;
  newItems : list RunItem;
  rawResponses : list ModelResponse;
  finalOutput : option any;
  inputGuardrailResults : list InputGuardrailResult;
  outputGuardrailResults : list OutputGuardrailResult;
  currentAgent : option Agent;
  currentTurn : Z;
  maxTurns : Z;
  isComplete : bool;
  eventQueue : list StreamEvent;
  inputGuardrailQueue : list InputGuardrailResult;
  runImplTask : option Task;
  inputGuardrailsTask : option Task;
  outputGuardrailsTask : option Task;
  storedError : option error;
  agentsErrors : list AgentsError
}.

Definition setInput (v : Input) (r : RunResultStreaming) :=
  {| input := v; newItems := newItems r; rawResponses := rawResponses r;
     finalOutput := finalOutput r;
     inputGuardrailResults := inputGuardrailResults r;
     outputGuardrailResults := outputGuardrailResults r;
     currentAgent := currentAgent r; currentTurn := currentTurn r;
     maxTurns := maxTurns r; isComplete := isComplete r;
     eventQueue := eventQueue r;
     inputGuardrailQueue := inputGuardrailQueue r;
     runImplTask := runImplTask r;
     inputGuardrailsTask := inputGuardrailsTask r;
     outputGuardrailsTask := outputGuardrailsTask r;
     storedError := storedError r; agentsErrors := agentsErrors r |}.

Definition setNewItems (v : list RunItem) (r : RunResultStreaming) :=
  {| input := input r; newItems := v; rawResponses := rawResponses r;
     finalOutput := finalOutput r;
     inputGuardrailResults := inputGuardrailResults r;
     outputGuardrailResults := outputGuardrailResults r;
     currentAgent := currentAgent r; currentTurn := currentTurn r;
     maxTurns := maxTurns r; isComplete := isComplete r;
     eventQueue := eventQueue r;
     inputGuardrailQueue := inputGuardrailQueue r;
     runImplTask := runImplTask r;
     inputGuardrailsTask := inputGuardrailsTask r;
     outputGuardrailsTask := outputGuardrailsTask r;
     storedError := storedError r; agentsErrors := agentsErrors r |}.

Definition setRawResponses (v : list ModelResponse) (r : RunResultStreaming) :=
  {| input := input r; newItems := newItems r; rawResponses := v;
     finalOutput := finalOutput r;
     inputGuardrailResults := inputGuardrailResults r;
     outputGuardrailResults := outputGuardrailResults r;
     currentAgent := currentAgent r; currentTurn := currentTurn r;
     maxTurns := maxTurns r; isComplete := isComplete r;
     eventQueue := eventQueue r;
     inputGuardrailQueue := inputGuardrailQueue r;
     runImplTask := runImplTask r;
     inputGuardrailsTask := inputGuardrailsTask r;
     outputGuardrailsTask := outputGuardrailsTask r;
     storedError := storedError r; agentsErrors := agentsErrors r |}.

Definition setFinalOutput (v : option any) (r : RunResultStreaming) :=
  {| input := input r; newItems := newItems r;
     rawResponses := rawResponses r; finalOutput := v;
     inputGuardrailResults := inputGuardrailResults r;
     outputGuardrailResults := outputGuardrailResults r;
     currentAgent := currentAgent r; currentTurn := currentTurn r;
     maxTurns := maxTurns r; isComplete := isComplete r;
     eventQueue := eventQueue r;
     inputGuardrailQueue := inputGuardrailQueue r;
     runImplTask := runImplTask r;
     inputGuardrailsTask := inputGuardrailsTask r;
     outputGuardrailsTask := outputGuardrailsTask r;
     storedError := storedError r; agentsErrors := agentsErrors r |}.

Definition setInputGuardrailResults (v : list InputGuardrailResult) (r : RunResultStreaming) :=
  {| input := input r; newItems := newItems r;
     rawResponses := rawResponses r; finalOutput := finalOutput r;
     inputGuardrailResults := v;
     outputGuardrailResults := outputGuardrailResults r;
     currentAgent := currentAgent r; currentTurn := currentTurn r;
     maxTurns := maxTurns r; isComplete := isComplete r;
     eventQueue := eventQueue r;
     inputGuardrailQueue := inputGuardrailQueue r;
     runImplTask := runImplTask r;
     inputGuardrailsTask := inputGuardrailsTask r;
     outputGuardrailsTask := outputGuardrailsTask r;
     storedError := storedError r; agentsErrors := agentsErrors r |}.

Definition setOutputGuardrailResults (v : list OutputGuardrailResult) (r : RunResultStreaming) :=
  {| input := input r; newItems := newItems r;
     rawResponses := rawResponses r; finalOutput := finalOutput r;
     inputGuardrailResults := inputGuardrailResults r;
     outputGuardrailResults := v; currentAgent := currentAgent r;
     currentTurn := currentTurn r; maxTurns := maxTurns r;
     isComplete := isComplete r; eventQueue := eventQueue r;
     inputGuardrailQueue := inputGuardrailQueue r;
     runImplTask := runImplTask r;
     inputGuardrailsTask := inputGuardrailsTask r;
     outputGuardrailsTask := outputGuardrailsTask r;
     storedError := storedError r; agentsErrors := agentsErrors r |}.

Definition setCurrentAgent (v : option Agent) (r : RunResultStreaming) :=
  {| input := input r; newItems := newItems r;
     rawResponses := rawResponses r; finalOutput := finalOutput r;
     inputGuardrailResults := inputGuardrailResults r;
     outputGuardrailResults := outputGuardrailResults r; currentAgent := v;
     currentTurn := currentTurn r; maxTurns := maxTurns r;
     isComplete := isComplete r; eventQueue := eventQueue r;
     inputGuardrailQueue := inputGuardrailQueue r;
     runImplTask := runImplTask r;
     inputGuardrailsTask := inputGuardrailsTask r;
     outputGuardrailsTask := outputGuardrailsTask r;
     storedError := storedError r; agentsErrors := agentsErrors r |}.

Definition setCurrentTurn (v : Z) (r : RunResultStreaming) :=
  {| input := input r; newItems := newItems r;
     rawResponses := rawResponses r; finalOutput := finalOutput r;
     inputGuardrailResults := inputGuardrailResults r;
     outputGuardrailResults := outputGuardrailResults r;
     currentAgent := currentAgent r; currentTurn := v;
     maxTurns := maxTurns r; isComplete := isComplete r;
     eventQueue := eventQueue r;
     inputGuardrailQueue := inputGuardrailQueue r;
     runImplTask := runImplTask r;
     inputGuardrailsTask := inputGuardrailsTask r;
     outputGuardrailsTask := outputGuardrailsTask r;
     storedError := storedError r; agentsErrors := agentsErrors r |}.

Definition setMaxTurns (v : Z) (r : RunResultStreaming) :=
  {| input := input r; newItems := newItems r;
     rawResponses := rawResponses r; finalOutput := finalOutput r;
     inputGuardrailResults := inputGuardrailResults r;
     outputGuardrailResults := outputGuardrailResults r;
     currentAgent := currentAgent r; currentTurn := currentTurn r;
     maxTurns := v; isComplete := isComplete r; eventQueue := eventQueue r;
     inputGuardrailQueue := inputGuardrailQueue r;
     runImplTask := runImplTask r;
     inputGuardrailsTask := inputGuardrailsTask r;
     outputGuardrailsTask := outputGuardrailsTask r;
     storedError := storedError r; agentsErrors := agentsErrors r |}.

Definition setIsComplete (v : bool) (r : RunResultStreaming) :=
  {| input := input r; newItems := newItems r;
     rawResponses := rawResponses r; finalOutput := finalOutput r;
     inputGuardrailResults := inputGuardrailResults r;
     outputGuardrailResults := outputGuardrailResults r;
     currentAgent := currentAgent r; currentTurn := currentTurn r;
     maxTurns := maxTurns r; isComplete := v; eventQueue := eventQueue r;
     inputGuardrailQueue := inputGuardrailQueue r;
     runImplTask := runImplTask r;
     inputGuardrailsTask := inputGuardrailsTask r;
     outputGuardrailsTask := outputGuardrailsTask r;
     storedError := storedError r; agentsErrors := agentsErrors r |}.

Definition setEventQueue (v : list StreamEvent) (r : RunResultStreaming) :=
  {| input := input r; newItems := newItems r;
     rawResponses := rawResponses r; finalOutput := finalOutput r;
     inputGuardrailResults := inputGuardrailResults r;
     outputGuardrailResults := outputGuardrailResults r;
     currentAgent := currentAgent r; currentTurn := currentTurn r;
     maxTurns := maxTurns r; isComplete := isComplete r; eventQueue := v;
     inputGuardrailQueue := inputGuardrailQueue r;
     runImplTask := runImplTask r;
     inputGuardrailsTask := inputGuardrailsTask r;
     outputGuardrailsTask := outputGuardrailsTask r;
     storedError := storedError r; agentsErrors := agentsErrors r |}.

Definition setInputGuardrailQueue (v : list InputGuardrailResult) (r : RunResultStreaming) :=
  {| input := input r; newItems := newItems r;
     rawResponses := rawResponses r; finalOutput := finalOutput r;
     inputGuardrailResults := inputGuardrailResults r;
     outputGuardrailResults := outputGuardrailResults r;
     currentAgent := currentAgent r; currentTurn := currentTurn r;
     maxTurns := maxTurns r; isComplete := isComplete r;
     eventQueue := eventQueue r; inputGuardrailQueue := v;
     runImplTask := runImplTask r;
     inputGuardrailsTask := inputGuardrailsTask r;
     outputGuardrailsTask := outputGuardrailsTask r;
     storedError := storedError r; agentsErrors := agentsErrors r |}.

Definition setRunImplTask (v : option Task) (r : RunResultStreaming) :=
  {| input := input r; newItems := newItems r;
     rawResponses := rawResponses r; finalOutput := finalOutput r;
     inputGuardrailResults := inputGuardrailResults r;
     outputGuardrailResults := outputGuardrailResults r;
     currentAgent := currentAgent r; currentTurn := currentTurn r;
     maxTurns := maxTurns r; isComplete := isComplete r;
     eventQueue := eventQueue r;
     inputGuardrailQueue := inputGuardrailQueue r; runImplTask := v;
     inputGuardrailsTask := inputGuardrailsTask r;
     outputGuardrailsTask := outputGuardrailsTask r;
     storedError := storedError r; agentsErrors := agentsErrors r |}.

Definition setInputGuardrailsTask (v : option Task) (r : RunResultStreaming) :=
  {| input := input r; newItems := newItems r;
     rawResponses := rawResponses r; finalOutput := finalOutput r;
     inputGuardrailResults := inputGuardrailResults r;
     outputGuardrailResults := outputGuardrailResults r;
     currentAgent := currentAgent r; currentTurn := currentTurn r;
     maxTurns := maxTurns r; isComplete := isComplete r;
     eventQueue := eventQueue r;
     inputGuardrailQueue := inputGuardrailQueue r;
     runImplTask := runImplTask r; inputGuardrailsTask := v;
     outputGuardrailsTask := outputGuardrailsTask r;
     storedError := storedError r; agentsErrors := agentsErrors r |}.

Definition setOutputGuardrailsTask (v : option Task) (r : RunResultStreaming) :=
  {| input := input r; newItems := newItems r;
     rawResponses := rawResponses r; finalOutput := finalOutput r;
     inputGuardrailResults := inputGuardrailResults r;
     outputGuardrailResults := outputGuardrailResults r;
     currentAgent := currentAgent r; currentTurn := currentTurn r;
     maxTurns := maxTurns r; isComplete := isComplete r;
     eventQueue := eventQueue r;
     inputGuardrailQueue := inputGuardrailQueue r;
     runImplTask := runImplTask r;
     inputGuardrailsTask := inputGuardrailsTask r; outputGuardrailsTask := v;
     storedError := storedError r; agentsErrors := agentsErrors r |}.

Definition setStoredError (v : option error) (r : RunResultStreaming) :=
  {| input := input r; newItems := newItems r;
     rawResponses := rawResponses r; finalOutput := finalOutput r;
     inputGuardrailResults := inputGuardrailResults r;
     outputGuardrailResults := outputGuardrailResults r;
     currentAgent := currentAgent r; currentTurn := currentTurn r;
     maxTurns := maxTurns r; isComplete := isComplete r;
     eventQueue := eventQueue r;
     inputGuardrailQueue := inputGuardrailQueue r;
     runImplTask := runImplTask r;
     inputGuardrailsTask := inputGuardrailsTask r;
     outputGuardrailsTask := outputGuardrailsTask r; storedError := v;
     agentsErrors := agentsErrors r |}.

Definition setAgentsErrors (v : list AgentsError) (r : RunResultStreaming) :=
  {| input := input r; newItems := newItems r;
     rawResponses := rawResponses r; finalOutput := finalOutput r;
     inputGuardrailResults := inputGuardrailResults r;
     outputGuardrailResults := outputGuardrailResults r;
     currentAgent := currentAgent r; currentTurn := currentTurn r;
     maxTurns := maxTurns r; isComplete := isComplete r;
     eventQueue := eventQueue r;
     inputGuardrailQueue := inputGuardrailQueue r;
     runImplTask := runImplTask r;
     inputGuardrailsTask := inputGuardrailsTask r;
     outputGuardrailsTask := outputGuardrailsTask r;
     storedError := storedError r; agentsErrors := v |}.
Definition appendRawResponses (v : list ModelResponse) (r : RunResultStreaming) :=
  setRawResponses (rawResponses r ++ v) r.

Definition markAsComplete (r : RunResultStreaming) := setIsComplete true r.

Definition getStoredError (r : RunResultStreaming) : option error := storedError r.

Definition IsComplete (r : RunResultStreaming) : bool := isComplete r.

Definition CurrentAgent (r : RunResultStreaming) : option Agent := currentAgent r.

Definition LastAgent (r : RunResultStreaming) : option Agent := CurrentAgent r.

Definition ToInputList (r : RunResultStreaming) : go (list TResponseInputItem) :=
  toInputList (input r) (newItems r).

Definition LastResponseID (r : RunResultStreaming) : string :=
  lastResponseID (rawResponses r).

Definition createErrorDetails (r : RunResultStreaming) : RunErrorDetails :=
  {| red_Input := input r;
     red_NewItems := newItems r;
     red_RawResponses := rawResponses r;
     red_LastAgent := CurrentAgent r;
     red_InputGuardrailResults := inputGuardrailResults r;
     red_OutputGuardrailResults := outputGuardrailResults r |}.

(** Allocation of an [AgentsError] object: its address is the next free
    index of the store. *)
Definition newAgentsError (r : RunResultStreaming) : loc * RunResultStreaming :=
  (List.length (agentsErrors r),
   setAgentsErrors (agentsErrors r ++ [ {| RunData := None |} ]) r).

(** [agentsErr.RunData = data]. *)
Definition setRunData (p : loc) (data : RunErrorDetails) (r : RunResultStreaming) :=
  setAgentsErrors (<[p := {| RunData := Some data |}]> (agentsErrors r)) r.

Definition getRunData (p : loc) (r : RunResultStreaming) : option RunErrorDetails :=
  match agentsErrors r !! p with
  | Some e => RunData e
  | None => None
  end.

(** *** [checkErrors]

    The function is four blocks in sequence; each is a definition here. *)

(** Lines 321-325: the turn limit. *)
Definition checkErrors_maxTurns (r : RunResultStreaming) : RunResultStreaming :=
  if (currentTurn r >? maxTurns r)%Z then
    let '(p, r) := newAgentsError r in
    let maxTurnsErr :=
      MaxTurnsExceededError p ("Max turns (" ++ pretty (maxTurns r) ++ ") exceeded") in
    let r := setRunData p (createErrorDetails r) r in
    setStoredError (Some maxTurnsErr) r
  else r.

(** Lines 328-335: the completed input guardrail results are taken from the
    queue one by one. *)
Fixpoint checkErrors_guardrails_loop (queue : list InputGuardrailResult)
    (r : RunResultStreaming) : RunResultStreaming :=
  match queue with
  | [] => r
  | guardrailResult :: rest =>
      let r := setInputGuardrailQueue rest r in
      let r :=
        if TripwireTriggered (igr_Output guardrailResult) then
          let '(p, r) := newAgentsError r in
          let tripwireErr := InputGuardrailTripwireTriggeredError p guardrailResult in
          let r := setRunData p (createErrorDetails r) r in
          setStoredError (Some tripwireErr) r
        else r in
      checkErrors_guardrails_loop rest r
  end.

Definition checkErrors_guardrails (r : RunResultStreaming) : RunResultStreaming :=
  checkErrors_guardrails_loop (inputGuardrailQueue r) r.

(** Lines 338-369: the same block for each of the three tasks. *)
Inductive TaskId : Type := RunImpl | InputGuardrails | OutputGuardrails.

#[global] Instance TaskId_eq_dec : EqDecision TaskId.
Proof. solve_decision. Defined.

Definition getTask (id : TaskId) (r : RunResultStreaming) : option Task :=
  match id with
  | RunImpl => runImplTask r
  | InputGuardrails => inputGuardrailsTask r
  | OutputGuardrails => outputGuardrailsTask r
  end.

Definition setTask (id : TaskId) (t : option Task) (r : RunResultStreaming) :=
  match id with
  | RunImpl => setRunImplTask t r
  | InputGuardrails => setInputGuardrailsTask t r
  | OutputGuardrails => setOutputGuardrailsTask t r
  end.

Definition taskErrorPrefix (id : TaskId) : string :=
  match id with
  | RunImpl => "run-impl task error"
  | InputGuardrails => "input guardrails task error"
  | OutputGuardrails => "output guardrails task error"
  end.

(** [if errors.As(err, &agentsErr) && agentsErr.RunData == nil
       { agentsErr.RunData = r.createErrorDetails() }] *)
Definition annotateError (err : error) (r : RunResultStreaming) : RunResultStreaming :=
  match errors_As err with
  | Some p =>
      match agentsErrors r !! p with
      | Some {| RunData := None |} => setRunData p (createErrorDetails r) r
      | _ => r
      end
  | None => r
  end.

Definition checkErrors_task (id : TaskId) (r : RunResultStreaming) : RunResultStreaming :=
  match getTask id r with
  | Some t =>
      if Task_IsDone t then
        match Task_result_Error t with
        | Some err =>
            let r := annotateError err r in
            setStoredError (Some (Errorf_w (taskErrorPrefix id) err)) r
        | None => r
        end
      else r
  | None => r
  end.

(** The function returns [nil] on its only return statement. *)
Definition checkErrors (r : RunResultStreaming) : option error * RunResultStreaming :=
  let r := checkErrors_maxTurns r in
  let r := checkErrors_guardrails r in
  let r := checkErrors_task RunImpl r in
  let r := checkErrors_task InputGuardrails r in
  let r := checkErrors_task OutputGuardrails r in
  (None, r).

(** *** The background tasks

    Modelled from the spec: the functions run by the three tasks are not
    among the sources.  The tasks are "launched at start", so the three
    handles are fixed while the consumer runs.  The run-execution task
    "appends new items, appends raw responses, advances the current agent,
    increments the turn counter" and pushes events; a guardrail completion
    "pushes a GuardrailResult"; a task "reports success/failure exactly
    once".  So what a task can do to the result is call its unexported
    setters, put an element on one of the two queues, create an error
    object, and return.  A schedule lists what the tasks do, in batches: a
    batch is what happens between two observations of the consumer, on
    entry to an iteration of its loop or while it is blocked.  A task that
    is absent or done does nothing. *)
Inductive ProducerCall : Type :=
| call_setInput (v : Input)
| call_setNewItems (v : list RunItem)
| call_appendRawResponses (v : list ModelResponse)
| call_setFinalOutput (v : option any)
| call_setInputGuardrailResults (v : list InputGuardrailResult)
| call_setOutputGuardrailResults (v : list OutputGuardrailResult)
| call_setCurrentAgent (v : option Agent)
| call_setCurrentTurn (v : Z)
| call_markAsComplete
| call_eventQueue_Put (item : StreamEvent)
| call_inputGuardrailQueue_Put (g : InputGuardrailResult)
| call_newAgentsError (data : option RunErrorDetails)
| call_return (err : option error).

Definition Step : Type := TaskId * ProducerCall.
Definition Schedule : Type := list (list Step).

Definition taskRunning (id : TaskId) (r : RunResultStreaming) : bool :=
  match getTask id r with
  | Some t => negb (Task_IsDone t)
  | None => false
  end.

Definition run_call (id : TaskId) (c : ProducerCall) (r : RunResultStreaming)
    : RunResultStreaming :=
  match c with
  | call_setInput v => setInput v r
  | call_setNewItems v => setNewItems v r
  | call_appendRawResponses v => appendRawResponses v r
  | call_setFinalOutput v => setFinalOutput v r
  | call_setInputGuardrailResults v => setInputGuardrailResults v r
  | call_setOutputGuardrailResults v => setOutputGuardrailResults v r
  | call_setCurrentAgent v => setCurrentAgent v r
  | call_setCurrentTurn v => setCurrentTurn v r
  | call_markAsComplete => markAsComplete r
  | call_eventQueue_Put item => setEventQueue (eventQueue r ++ [item]) r
  | call_inputGuardrailQueue_Put g =>
      setInputGuardrailQueue (inputGuardrailQueue r ++ [g]) r
  | call_newAgentsError data =>
      setAgentsErrors (agentsErrors r ++ [ {| RunData := data |} ]) r
  | call_return err => setTask id (Task_finish err <$> getTask id r) r
  end.

Definition run_step (s : Step) (r : RunResultStreaming) : RunResultStreaming :=
  if taskRunning (fst s) r then run_call (fst s) (snd s) r else r.

Definition run_batch (batch : list Step) (r : RunResultStreaming) : RunResultStreaming :=
  fold_left (fun r s => run_step s r) batch r.

(** The tasks run while the consumer does something else. *)
Definition yield (sched : Schedule) (r : RunResultStreaming)
    : Schedule * RunResultStreaming :=
  match sched with
  | [] => ([], r)
  | batch :: sched => (sched, run_batch batch r)
  end.

(** *** The blocking operations

    [eventQueue.Get()] waits for an element; [None] is a consumer that
    waits forever, the tasks having nothing left to do. *)
Fixpoint eventQueue_Get (sched : Schedule) (r : RunResultStreaming)
    : option (StreamEvent * Schedule * RunResultStreaming) :=
  match eventQueue r with
  | item :: rest => Some (item, sched, setEventQueue rest r)
  | [] =>
      match sched with
      | [] => None
      | batch :: sched => eventQueue_Get sched (run_batch batch r)
      end
  end.

Definition Queue_IsEmpty {A : Type} (queue : list A) : bool :=
  match queue with
  | [] => true
  | _ :: _ => false
  end.

Definition taskIds : list TaskId := [RunImpl; InputGuardrails; OutputGuardrails].

(** [t != nil && !t.IsDone()] for each task, in the order of the source. *)
Definition pendingTasks (r : RunResultStreaming) : list TaskId :=
  List.filter (fun id => taskRunning id r) taskIds.

(** [wg.Wait()]: until every awaited task is done. *)
Fixpoint waitTasks (ids : list TaskId) (sched : Schedule) (r : RunResultStreaming)
    : option (Schedule * RunResultStreaming) :=
  if forallb (fun id => negb (taskRunning id r)) ids then Some (sched, r)
  else
    match sched with
    | [] => None
    | batch :: sched => waitTasks ids sched (run_batch batch r)
    end.

Definition awaitTasks (sched : Schedule) (r : RunResultStreaming)
    : option (Schedule * RunResultStreaming) :=
  waitTasks (pendingTasks r) sched r.

Definition cleanupTasks_task (id : TaskId) (r : RunResultStreaming) :=
  match getTask id r with
  | Some t => if negb (Task_IsDone t) then setTask id (Some (Task_Cancel t)) r else r
  | None => r
  end.

Definition cleanupTasks (r : RunResultStreaming) : RunResultStreaming :=
  let r := cleanupTasks_task RunImpl r in
  let r := cleanupTasks_task InputGuardrails r in
  cleanupTasks_task OutputGuardrails r.

(** [for !queue.IsEmpty() { _, _ = queue.GetNoWait() }] *)
Fixpoint drainQueue {A : Type} (queue : list A) : list A :=
  match queue with
  | [] => []
  | _ :: rest => drainQueue rest
  end.

Definition Cancel (sched : Schedule) (r : RunResultStreaming)
    : option (Schedule * RunResultStreaming) :=
  let r := markAsComplete r in
  let r := cleanupTasks r in
  match awaitTasks sched r with
  | None => None
  | Some (sched, r) =>
      let r := setEventQueue (drainQueue (eventQueue r)) r in
      let r := setInputGuardrailQueue (drainQueue (inputGuardrailQueue r)) r in
      Some (sched, r)
  end.

(** *** [StreamEvents]

    The visitor [fn] is a closure: it has a state of its own, [V]. *)
Inductive LoopExit (V : Type) : Type :=
| LoopBreak (sched : Schedule) (r : RunResultStreaming) (v : V)
| LoopReturn (err : error) (sched : Schedule) (r : RunResultStreaming) (v : V)
| LoopBlocked
| LoopFuel.

Inductive Iteration (V : Type) : Type :=
| Continue (sched : Schedule) (r : RunResultStreaming) (v : V)
| Exit (e : LoopExit V).

Arguments LoopBreak {V}.
Arguments LoopReturn {V}.
Arguments LoopBlocked {V}.
Arguments LoopFuel {V}.
Arguments Continue {V}.
Arguments Exit {V}.

(** The body of the [for] loop, lines 267-295. *)
Definition StreamEvents_iteration {V : Type} (fn : V -> StreamEvent -> V * option error)
    (sched : Schedule) (r : RunResultStreaming) (v : V) : Iteration V :=
  let '(sched, r) := yield sched r in
  let '(err, r) := checkErrors r in
  match err with
  | Some err => Exit (LoopReturn err sched r v)
  | None =>
      match getStoredError r with
      | Some _ => Exit (LoopBreak sched (markAsComplete r) v)
      | None =>
          if IsComplete r && Queue_IsEmpty (eventQueue r)
          then Exit (LoopBreak sched r v)
          else
            match eventQueue_Get sched r with
            | None => Exit LoopBlocked
            | Some (item, sched, r) =>
                if is_queueCompleteSentinel item then
                  let '(err, r) := checkErrors r in
                  match err with
                  | Some err => Exit (LoopReturn err sched r v)
                  | None => Exit (LoopBreak sched r v)
                  end
                else
                  let '(v, err) := fn v item in
                  match err with
                  | Some err => Exit (LoopReturn err sched r v)
                  | None => Continue sched r v
                  end
            end
      end
  end.

Fixpoint StreamEvents_loop {V : Type} (fuel : nat)
    (fn : V -> StreamEvent -> V * option error)
    (sched : Schedule) (r : RunResultStreaming) (v : V) : LoopExit V :=
  match fuel with
  | O => LoopFuel
  | S fuel =>
      match StreamEvents_iteration fn sched r v with
      | Continue sched r v => StreamEvents_loop fuel fn sched r v
      | Exit e => e
      end
  end.

Inductive Outcome (V : Type) : Type :=
| Returned (err : option error) (sched : Schedule) (r : RunResultStreaming) (v : V)
| Blocked
| OutOfFuel.

Arguments Returned {V}.
Arguments Blocked {V}.
Arguments OutOfFuel {V}.

(** Lines 298-304. *)
Definition StreamEvents_epilogue {V : Type}
    (sched : Schedule) (r : RunResultStreaming) (v : V) : Outcome V :=
  match awaitTasks sched r with
  | None => Blocked
  | Some (sched, r) =>
      let '(err, r) := checkErrors r in
      match err with
      | Some err => Returned (Some err) sched r v
      | None =>
          let r := cleanupTasks r in
          Returned (getStoredError r) sched r v
      end
  end.

Definition StreamEvents_fuel {V : Type} (fuel : nat)
    (fn : V -> StreamEvent -> V * option error)
    (sched : Schedule) (r : RunResultStreaming) (v : V) : Outcome V :=
  match StreamEvents_loop fuel fn sched r v with
  | LoopBreak sched r v => StreamEvents_epilogue sched r v
  | LoopReturn err sched r v => Returned (Some err) sched r v
  | LoopBlocked => Blocked
  | LoopFuel => OutOfFuel
  end.

(** Every iteration that continues has taken an element from the event
    queue, so the elements queued and still to be put bound the number of
    iterations. *)
Definition is_Put (s : Step) : bool :=
  match snd s with
  | call_eventQueue_Put _ => true
  | _ => false
  end.

Definition scheduledPuts (sched : Schedule) : nat :=
  List.length (List.filter is_Put (List.concat sched)).

Definition StreamEvents {V : Type} (fn : V -> StreamEvent -> V * option error)
    (sched : Schedule) (r : RunResultStreaming) (v : V) : Outcome V :=
  StreamEvents_fuel (S (List.length (eventQueue r) + scheduledPuts sched)) fn sched r v.

(** *** Predicates used in the statements *)

(** No task is running: each is absent or done. *)
Definition tasksSettled (r : RunResultStreaming) : Prop :=
  forall id, taskRunning id r = false.

(** No task has completed with an error. *)
Definition noTaskError (r : RunResultStreaming) : Prop :=
  forall id t, getTask id r = Some t -> Task_IsDone t = true ->
               Task_result_Error t = None.

(** The last element of the guardrail queue whose tripwire is triggered. *)
Definition lastTriggered (queue : list InputGuardrailResult) : option InputGuardrailResult :=
  last (List.filter (fun g => TripwireTriggered (igr_Output g)) queue).

(** The cells that [checkErrors] never writes. *)
Definition sameRun (r r' : RunResultStreaming) : Prop :=
  input r' = input r /\ newItems r' = newItems r /\ rawResponses r' = rawResponses r
  /\ finalOutput r' = finalOutput r
  /\ inputGuardrailResults r' = inputGuardrailResults r
  /\ outputGuardrailResults r' = outputGuardrailResults r
  /\ currentAgent r' = currentAgent r /\ currentTurn r' = currentTurn r
  /\ maxTurns r' = maxTurns r /\ isComplete r' = isComplete r
  /\ eventQueue r' = eventQueue r
  /\ runImplTask r' = runImplTask r
  /\ inputGuardrailsTask r' = inputGuardrailsTask r
  /\ outputGuardrailsTask r' = outputGuardrailsTask r.

(** The error objects a state has, with their data, are still there. *)
Definition keepsRunData (r r' : RunResultStreaming) : Prop :=
  (List.length (agentsErrors r) <= List.length (agentsErrors r'))%nat
  /\ forall p d, getRunData p r = Some d -> getRunData p r' = Some d.

(** Allocation followed by the write of a snapshot, as the turn-limit and
    the tripwire blocks do. *)
Definition storeNew (mk : loc -> error) (r : RunResultStreaming) : RunResultStreaming :=
  let '(p, r) := newAgentsError r in
  setStoredError (Some (mk p)) (setRunData p (createErrorDetails r) r).

(** A schedule in which nothing more goes wrong once the turn limit
    [limit] is exceeded: no task returns an error, no triggered guardrail
    result is queued, and the turn counter stays above the limit. *)
Definition quietCall (limit : Z) (c : ProducerCall) : bool :=
  match c with
  | call_return (Some _) => false
  | call_setCurrentTurn v => (limit <? v)%Z
  | call_inputGuardrailQueue_Put g => negb (TripwireTriggered (igr_Output g))
  | _ => true
  end.

Definition quietSchedule (limit : Z) (sched : Schedule) : bool :=
  forallb (forallb (fun s : Step => quietCall limit (snd s))) sched.

(** The turn limit [limit] is exceeded and no task has failed. *)
Definition exceeded (limit : Z) (r : RunResultStreaming) : Prop :=
  maxTurns r = limit /\ (currentTurn r > limit)%Z /\ noTaskError r.

(** The loop heads of a run of [StreamEvents]: a configuration is the rest
    of the schedule, the state and the state of the visitor. *)
Inductive loopReaches {V : Type} (fn : V -> StreamEvent -> V * option error)
    : Schedule * RunResultStreaming * V -> Schedule * RunResultStreaming * V -> Prop :=
| loopReaches_here (c : Schedule * RunResultStreaming * V) : loopReaches fn c c
| loopReaches_next sched r v sched1 r1 v1 c :
    StreamEvents_iteration fn sched r v = Continue sched1 r1 v1 ->
    loopReaches fn (sched1, r1, v1) c ->
    loopReaches fn (sched, r, v) c.

(** The bound on the iterations still to come. *)
Definition iterationsBound (sched : Schedule) (r : RunResultStreaming) : nat :=
  (List.length (eventQueue r) + scheduledPuts sched)%nat.

(** The message of the turn-limit error. *)
Definition maxTurnsMessage (r : RunResultStreaming) : string :=
  "Max turns (" ++ pretty (maxTurns r) ++ ") exceeded".

(** The state a poll leaves. *)
Definition poll (r : RunResultStreaming) : RunResultStreaming := snd (checkErrors r).

End WithResponses.

Arguments LoopBreak {R V}.
Arguments LoopReturn {R V}.
Arguments LoopBlocked {R V}.
Arguments LoopFuel {R V}.
Arguments Continue {R V}.
Arguments Exit {R V}.
Arguments Returned {R V}.
Arguments Blocked {R V}.
Arguments OutOfFuel {R V}.

End Streaming.

(** ** Go's [strings] package

    [strings.TrimSpace] and [strings.ToLower] have a byte loop for ASCII
    strings and go through the Unicode tables otherwise.  The byte loops are
    defined here; the Unicode paths and [url.ParseRequestURI] belong to Go's
    library and are taken as they are. *)

Class GoLibrary : Type := {
  unicode_TrimSpace : string -> string;
  unicode_ToLower : string -> string;
  url_ParseRequestURI : string -> option string
}.

Module strings.

Definition isASCIIByte (c : ascii) : bool := (nat_of_ascii c <? 128)%nat.

Fixpoint isASCII (s : string) : bool :=
  match s with
  | EmptyString => true
  | String c s => isASCIIByte c && isASCII s
  end.

(** The table [asciiSpace]: tab, line feed, vertical tab, form feed,
    carriage return, space. *)
Definition asciiSpace (c : ascii) : bool :=
  let n := nat_of_ascii c in
  ((9 <=? n) && (n <=? 13) || (n =? 32))%nat.

Fixpoint trimLeftASCII (s : string) : string :=
  match s with
  | EmptyString => EmptyString
  | String c s' => if asciiSpace c then trimLeftASCII s' else s
  end.

Fixpoint trimRightASCII (s : string) : string :=
  match s with
  | EmptyString => EmptyString
  | String c s' =>
      match trimRightASCII s' with
      | EmptyString => if asciiSpace c then EmptyString else String c EmptyString
      | t => String c t
      end
  end.

Definition lowerASCIIByte (c : ascii) : ascii :=
  let n := nat_of_ascii c in
  if ((65 <=? n) && (n <=? 90))%nat then ascii_of_nat (n + 32) else c.

Fixpoint lowerASCII (s : string) : string :=
  match s with
  | EmptyString => EmptyString
  | String c s => String (lowerASCIIByte c) (lowerASCII s)
  end.

Section WithGoLibrary.
Context `{G : GoLibrary}.

Definition TrimSpace (s : string) : string :=
  if isASCII s then trimRightASCII (trimLeftASCII s) else unicode_TrimSpace s.

Definition ToLower (s : string) : string :=
  if isASCII s then lowerASCII s else unicode_ToLower s.

End WithGoLibrary.

(** [s == t] on Go strings, and a [switch] case with several values. *)
Definition eqb (s t : string) : bool := String.eqb s t.

Definition oneOf (s : string) (cases : list string) : bool :=
  existsb (String.eqb s) cases.

End strings.

(** ** workflowrunner: the manifest *)

Module Workflow.

(** A decoded JSON value, the dynamic content of an [any]. *)
Inductive value : Type :=
| Nil
| Bool (b : bool)
| Number (float64_bits : Z)
| Str (s : string)
| Array (l : list value)
| Object (m : list (string * value)).

Definition is_nil (v : value) : bool :=
  match v with
  | Nil => true
  | _ => false
  end.

(** Errors, as [errors.New] and [fmt.Errorf] build them: the format is kept
    with its arguments; a [%w] argument is always the last one. *)
Inductive arg : Type :=
| ArgQ (s : string)
| ArgD (n : Z).

Inductive error : Type :=
| errors_New (text : string)
| Errorf (format : string) (args : list arg)
| Errorf_w (format : string) (args : list arg) (err : error).

Definition error_format (e : error) : string :=
  match e with
  | errors_New text => text
  | Errorf format _ => format
  | Errorf_w format _ _ => format
  end.

(** [for _, x := range l { if err := f(x); err != nil { return err } }] *)
Fixpoint firstError {A : Type} (f : A -> option error) (l : list A) : option error :=
  match l with
  | [] => None
  | x :: l =>
      match f x with
      | Some err => Some err
      | None => firstError f l
      end
  end.

(** The same with [for i, x := range l]. *)
Fixpoint firstErrorFrom {A : Type} (i : nat) (f : nat -> A -> option error)
    (l : list A) : option error :=
  match l with
  | [] => None
  | x :: l =>
      match f i x with
      | Some err => Some err
      | None => firstErrorFrom (S i) f l
      end
  end.

Definition CurrentWorkflowVersion : string := "v1".

Record WorkflowInput : Type := {
  wi_Type : string;
  wi_Role : string;
  wi_MimeType : string;
  wi_URI : string;
  wi_Content : value
}.

Record CredentialDeclaration : Type := {
  cd_UserID : string;
  cd_AccountID : string;
  cd_Capabilities : list string;
  cd_Metadata : gmap string value
}.

Record SessionDeclaration : Type := {
  sd_SessionID : string;
  sd_ResumeToken : string;
  sd_PersistentStore : string;
  sd_StoreConfig : gmap string value;
  sd_HistorySize : Z;
  sd_MaxTurns : Z;
  sd_Credentials : CredentialDeclaration
}.

Record CallbackRetryPolicy : Type := {
  crp_MaxAttempts : Z;
  crp_Backoff_bits : Z
}.

Record CallbackDeclaration : Type := {
  cb_Target : string;
  cb_Mode : string;
  cb_Headers : gmap string string;
  cb_Retry : option CallbackRetryPolicy
}.

Record AgentToolReference : Type := {
  atr_AgentName : string;
  atr_ToolName : string;
  atr_Description : string;
  atr_OutputExtractor : string
}.

Record ToolApprovalFlowDeclaration : Type := {
  taf_Require : string;
  taf_ResumeMode : string
}.

Record ToolDeclaration : Type := {
  td_Type : string;
  td_Name : string;
  td_Config : gmap string value;
  td_ApprovalFlow : option ToolApprovalFlowDeclaration;
  td_Hooks : list string;
  td_FunctionRef : string
}.

Record MCPDeclaration : Type := {
  mcp_Type : string;
  mcp_ServerLabel : string;
  mcp_Address : string;
  mcp_RequireApproval : string;
  mcp_Additional : gmap string value
}.

Record GuardrailDeclaration : Type := {
  gd_Name : string;
  gd_Config : gmap string value;
  gd_Target : string;
  gd_Mode : string
}.

Record OutputTypeDeclaration : Type := {
  otd_Name : string;
  otd_Strict : bool;
  otd_Schema : gmap string value;
  otd_PresetRef : string
}.

Record ReasoningDeclaration : Type := {
  rd_Effort : string;
  rd_Summary : string;
  rd_Tokens : Z
}.

Record ModelDeclaration : Type := {
  md_Provider : string;
  md_Model : string;
  md_Temperature_bits : option Z;
  md_TopP_bits : option Z;
  md_MaxTokens : option Z;
  md_Reasoning : option ReasoningDeclaration;
  md_Verbosity : string;
  md_Metadata : gmap string string;
  md_ExtraHeaders : gmap string string;
  md_ExtraQuery : gmap string string;
  md_ToolChoice : string;
  md_ParallelToolCalls : option bool;
  md_Truncation : string
}.

Record ToolUseBehaviorDeclaration : Type := {
  tub_Mode : string;
  tub_ToolNames : list string;
  tub_Handler : string
}.

Record InstructionTemplateDeclaration : Type := {
  itd_Template : string;
  itd_Format : string;
  itd_Delimiters : string * string;
  itd_Variables : gmap string value
}.

Record InstructionDeclaration : Type := {
  id_Text : string;
  id_Template : option InstructionTemplateDeclaration
}.

Record AgentHandoffDeclaration : Type := {
  ahd_Agent : string;
  ahd_InputFilter : string;
  ahd_Instructions : string;
  ahd_InstructionsRef : string;
  ahd_InstructionsScope : string
}.

Record AgentDeclaration : Type := {
  ad_Name : string;
  ad_DisplayName : string;
  ad_Instructions : InstructionDeclaration;
  ad_PromptID : string;
  ad_Model : option ModelDeclaration;
  ad_Handoffs : list AgentHandoffDeclaration;
  ad_AgentTools : list AgentToolReference;
  ad_Tools : list ToolDeclaration;
  ad_MCPServers : list MCPDeclaration;
  ad_InputGuardrails : list GuardrailDeclaration;
  ad_OutputGuardrails : list GuardrailDeclaration;
  ad_OutputType : option OutputTypeDeclaration;
  ad_ToolUseBehavior : option ToolUseBehaviorDeclaration;
  ad_HandoffDescription : string;
  ad_Hooks : list string;
  ad_Annotations : gmap string value
}.

Record WorkflowDeclaration : Type := {
  wd_Name : string;
  wd_StartingAgent : string;
  wd_Agents : list AgentDeclaration;
  wd_Metadata : gmap string value;
  wd_OnStart : list string;
  wd_OnFinish : list string;
  wd_OnError : list string
}.

Record WorkflowRequest : Type := {
  req_Version : string;
  req_Query : string;
  req_Inputs : list WorkflowInput;
  req_Session : SessionDeclaration;
  req_Callback : CallbackDeclaration;
  req_Callbacks : list CallbackDeclaration;
  req_Workflow : WorkflowDeclaration;
  req_Metadata : gmap string value;
  req_Context : gmap string value
}.

Section WithGoLibrary.
Context `{G : GoLibrary}.

Import strings.

(** *** workflowrunner/validator.go *)

Definition configString (config : gmap string value) (key : string) : string :=
  match config !! key with
  | Some (Str v) => TrimSpace v
  | _ => ""
  end.

Definition isCallbackEmpty (cb : CallbackDeclaration) : bool :=
  eqb (TrimSpace (cb_Target cb)) "" && eqb (TrimSpace (cb_Mode cb)) ""
  && bool_decide (size (cb_Headers cb) = 0%nat)
  && bool_decide (cb_Retry cb = None).

Definition CallbackDeclaration_Validate (c : CallbackDeclaration) : option error :=
  let mode := ToLower (cb_Mode c) in
  if eqb mode "stdout" || eqb mode "stdout_verbose" then None
  else if eqb (TrimSpace (cb_Target c)) "" then
    Some (Errorf "callback target is required" [])
  else
    match url_ParseRequestURI (cb_Target c) with
    | Some err =>
        Some (Errorf_w "callback target %q is not a valid URL: %w"
                [ArgQ (cb_Target c)] (errors_New err))
    | None => None
    end.

Definition validateInput (i : nat) (input : WorkflowInput) : option error :=
  if eqb (TrimSpace (wi_Type input)) "" then
    Some (Errorf "inputs[%d] missing type" [ArgD (Z.of_nat i)])
  else
    let typeLower := ToLower (wi_Type input) in
    if negb (oneOf typeLower ["text"; "message"; "json"; "image"; "audio"; "video"]) then
      Some (Errorf "inputs[%d] type %q not supported"
              [ArgD (Z.of_nat i); ArgQ (wi_Type input)])
    else if eqb (TrimSpace (wi_URI input)) "" && is_nil (wi_Content input) then
      Some (Errorf "inputs[%d] must provide either uri or content" [ArgD (Z.of_nat i)])
    else None.

Definition validateInputs (inputs : list WorkflowInput) : option error :=
  firstErrorFrom 0 validateInput inputs.

Definition validateSession (session : SessionDeclaration) : option error :=
  if eqb (sd_SessionID session) "" then Some (errors_New "session_id is required")
  else if eqb (cd_UserID (sd_Credentials session)) "" then
    Some (errors_New "credentials.user_id is required")
  else if eqb (cd_AccountID (sd_Credentials session)) "" then
    Some (errors_New "credentials.account_id is required")
  else if (sd_HistorySize session <? 0)%Z then
    Some (errors_New "history_size cannot be negative")
  else if (sd_MaxTurns session <? 0)%Z then
    Some (errors_New "max_turns cannot be negative")
  else
    let store := TrimSpace (sd_PersistentStore session) in
    if negb (eqb store "") && negb (oneOf (ToLower store) ["sqlite"; "postgres"]) then
      Some (Errorf "persistent_store %q not supported" [ArgQ (sd_PersistentStore session)])
    else None.

Definition validateToolKind (tool : ToolDeclaration) : option error :=
  if eqb (TrimSpace (td_Type tool)) "" then Some (Errorf "tool missing type" [])
  else
    let typeLower := ToLower (td_Type tool) in
    if eqb typeLower "function" then
      let ref := TrimSpace (td_FunctionRef tool) in
      let ref := if eqb ref "" then configString (td_Config tool) "function_ref" else ref in
      if eqb ref "" && eqb (TrimSpace (td_Name tool)) "" then
        Some (Errorf "function tool requires function_ref or name" [])
      else None
    else if eqb typeLower "computer" then
      let provider := configString (td_Config tool) "provider" in
      if eqb provider "" && eqb (TrimSpace (td_Name tool)) "" then
        Some (Errorf "computer tool requires config.provider or name" [])
      else None
    else if eqb typeLower "local_shell" then
      let executor := configString (td_Config tool) "executor_ref" in
      if eqb executor "" && eqb (TrimSpace (td_Name tool)) "" then
        Some (Errorf "local_shell tool requires config.executor_ref or name" [])
      else None
    else None.

Definition validateHook (format : string) (i : nat) (hook : string) : option error :=
  if eqb (TrimSpace hook) "" then Some (Errorf format [ArgD (Z.of_nat i)]) else None.

Definition validateToolApproval (tool : ToolDeclaration) : option error :=
  match
    match td_ApprovalFlow tool with
    | Some flow =>
        if negb (oneOf (ToLower (taf_Require flow)) [""; "never"; "always"; "sensitive"]) then
          Some (Errorf "tool approval_flow.require %q not supported"
                  [ArgQ (taf_Require flow)])
        else if negb (oneOf (ToLower (taf_ResumeMode flow)) [""; "auto"; "manual"]) then
          Some (Errorf "tool approval_flow.resume_mode %q not supported"
                  [ArgQ (taf_ResumeMode flow)])
        else None
    | None => None
    end
  with
  | Some err => Some err
  | None => firstErrorFrom 0 (validateHook "tool hook[%d] cannot be empty") (td_Hooks tool)
  end.

Definition validateMCP (mcp : MCPDeclaration) : option error :=
  if eqb (TrimSpace (mcp_Address mcp)) "" then Some (Errorf "mcp address is required" [])
  else None.

Definition validateGuardrail (gr : GuardrailDeclaration) : option error :=
  if eqb (TrimSpace (gd_Name gr)) "" then Some (Errorf "guardrail missing name" [])
  else if negb (oneOf (ToLower (gd_Mode gr)) [""; "blocking"; "monitor"]) then
    Some (Errorf "guardrail %q mode %q not supported" [ArgQ (gd_Name gr); ArgQ (gd_Mode gr)])
  else None.

Definition validateToolUseBehavior (behavior : option ToolUseBehaviorDeclaration)
    : option error :=
  match behavior with
  | None => None
  | Some behavior =>
      let mode := ToLower (TrimSpace (tub_Mode behavior)) in
      if oneOf mode [""; "default"] then None
      else if oneOf mode ["run_llm_again"; "stop_on_first_tool"] then None
      else if eqb mode "stop_at_tools" then
        if (List.length (tub_ToolNames behavior) =? 0)%nat then
          Some (errors_New "tool_use_behavior.stop_at_tools requires tool_names")
        else None
      else if eqb mode "custom" then
        if eqb (TrimSpace (tub_Handler behavior)) "" then
          Some (errors_New "tool_use_behavior.custom requires handler")
        else None
      else Some (Errorf "tool_use_behavior mode %q not supported" [ArgQ (tub_Mode behavior)])
  end.

(** The checks of [validateAgentDeclaration], in the order of the source. *)
Definition validateAgentDeclaration (agent : AgentDeclaration) : option error :=
  match
    match ad_Model agent with
    | Some model =>
        if eqb (md_Model model) "" then
          Some (errors_New "model.model is required when model is present")
        else None
    | None => None
    end
  with
  | Some err => Some err
  | None =>
  match firstError validateToolKind (ad_Tools agent) with
  | Some err => Some err
  | None =>
  match firstError validateToolApproval (ad_Tools agent) with
  | Some err => Some err
  | None =>
  match firstError validateMCP (ad_MCPServers agent) with
  | Some err => Some err
  | None =>
  match firstError validateGuardrail
          (ad_InputGuardrails agent ++ ad_OutputGuardrails agent) with
  | Some err => Some err
  | None =>
  match firstErrorFrom 0 (validateHook "agent hook[%d] cannot be empty") (ad_Hooks agent) with
  | Some err => Some err
  | None => validateToolUseBehavior (ad_ToolUseBehavior agent)
  end end end end end end.

(** The first loop of [validateWorkflowDeclaration]: the set [seen] of the
    agent names met so far. *)
Fixpoint validateAgents (i : nat) (agents : list AgentDeclaration) (seen : gset string)
    : error + gset string :=
  match agents with
  | [] => inr seen
  | agent :: rest =>
      if eqb (ad_Name agent) "" then
        inl (Errorf "agents[%d] missing name" [ArgD (Z.of_nat i)])
      else if bool_decide (ad_Name agent ∈ seen) then
        inl (Errorf "duplicate agent name %q" [ArgQ (ad_Name agent)])
      else
        let seen := {[ ad_Name agent ]} ∪ seen in
        match validateAgentDeclaration agent with
        | Some err => inl (Errorf_w "agent %q invalid: %w" [ArgQ (ad_Name agent)] err)
        | None => validateAgents (S i) rest seen
        end
  end.

Definition validateHandoff (seen : gset string) (agent : AgentDeclaration)
    (h : AgentHandoffDeclaration) : option error :=
  if eqb (TrimSpace (ahd_Agent h)) "" then
    Some (Errorf "agent %q handoff missing agent" [ArgQ (ad_Name agent)])
  else if negb (bool_decide (ahd_Agent h ∈ seen)) then
    Some (Errorf "agent %q handoff %q not found" [ArgQ (ad_Name agent); ArgQ (ahd_Agent h)])
  else None.

Definition validateAgentTool (seen : gset string) (agent : AgentDeclaration)
    (tool : AgentToolReference) : option error :=
  if negb (bool_decide (atr_AgentName tool ∈ seen)) then
    Some (Errorf "agent %q agent_tool references unknown agent %q"
            [ArgQ (ad_Name agent); ArgQ (atr_AgentName tool)])
  else None.

Definition validateReferences (seen : gset string) (agent : AgentDeclaration)
    : option error :=
  match firstError (validateHandoff seen agent) (ad_Handoffs agent) with
  | Some err => Some err
  | None => firstError (validateAgentTool seen agent) (ad_AgentTools agent)
  end.

Definition validateWorkflowDeclaration (workflow : WorkflowDeclaration) : option error :=
  if eqb (wd_Name workflow) "" then Some (errors_New "name is required")
  else if eqb (wd_StartingAgent workflow) "" then
    Some (errors_New "starting_agent is required")
  else if (List.length (wd_Agents workflow) =? 0)%nat then
    Some (errors_New "agents cannot be empty")
  else
    match validateAgents 0 (wd_Agents workflow) ∅ with
    | inl err => Some err
    | inr seen =>
    match firstErrorFrom 0 (validateHook "on_start[%d] cannot be empty")
            (wd_OnStart workflow) with
    | Some err => Some err
    | None =>
    match firstErrorFrom 0 (validateHook "on_finish[%d] cannot be empty")
            (wd_OnFinish workflow) with
    | Some err => Some err
    | None =>
    match firstErrorFrom 0 (validateHook "on_error[%d] cannot be empty")
            (wd_OnError workflow) with
    | Some err => Some err
    | None =>
        if negb (bool_decide (wd_StartingAgent workflow ∈ seen)) then
          Some (Errorf "starting_agent %q not found in agents"
                  [ArgQ (wd_StartingAgent workflow)])
        else firstError (validateReferences seen) (wd_Agents workflow)
    end end end end.

Definition validateCallbackAt (i : nat) (cb : CallbackDeclaration) : option error :=
  match CallbackDeclaration_Validate cb with
  | Some err => Some (Errorf_w "callbacks[%d] invalid: %w" [ArgD (Z.of_nat i)] err)
  | None => None
  end.

Definition ValidateWorkflowRequest (req : WorkflowRequest) : option error :=
  let version := TrimSpace (req_Version req) in
  if negb (eqb version "") && negb (eqb version CurrentWorkflowVersion) then
    Some (Errorf "version %q not supported" [ArgQ (req_Version req)])
  else if eqb (TrimSpace (req_Query req)) "" then Some (errors_New "query is required")
  else
    match validateInputs (req_Inputs req) with
    | Some err => Some (Errorf_w "inputs invalid: %w" [] err)
    | None =>
    match validateSession (req_Session req) with
    | Some err => Some (Errorf_w "session invalid: %w" [] err)
    | None =>
    match
      if negb (isCallbackEmpty (req_Callback req)) then
        match CallbackDeclaration_Validate (req_Callback req) with
        | Some err => inl (Errorf_w "callback invalid: %w" [] err)
        | None => inr 1%nat
        end
      else inr 0%nat
    with
    | inl err => Some err
    | inr callbackCount =>
    match firstErrorFrom 0 validateCallbackAt (req_Callbacks req) with
    | Some err => Some err
    | None =>
        let callbackCount := (callbackCount + List.length (req_Callbacks req))%nat in
        if (callbackCount =? 0)%nat then
          Some (errors_New "at least one callback is required")
        else
          match validateWorkflowDeclaration (req_Workflow req) with
          | Some err => Some (Errorf_w "workflow invalid: %w" [] err)
          | None => None
          end
    end end end end.

(** *** workflowrunner/inputs.go *)

Definition defaultString (value fallback : string) : string :=
  if eqb (TrimSpace value) "" then fallback else value.

Section Inputs.

(** [buildMessageInput] (lines 78-153) decodes the content of a message,
    in part through [encoding/json].  It is taken as a function; nothing
    below depends on what it returns. *)
Context {EasyInputMessageParam : Type}.
Variable buildMessageInput : WorkflowInput -> error + EasyInputMessageParam.

(** [responses.ResponseInputItemUnionParam]: the one member of the union
    that is set here. *)
Record ResponseInputItemUnionParam : Type := {
  OfMessage : option EasyInputMessageParam
}.

Definition withMessageType (input : WorkflowInput) (role : string) (uri : string)
    (content : value) : WorkflowInput :=
  {| wi_Type := "message"; wi_Role := role; wi_MimeType := wi_MimeType input;
     wi_URI := uri; wi_Content := content |}.

(** The function calls itself on an input whose type it has set to
    ["message"]; [fuel] bounds the depth of the calls, and [None] is a call
    deeper than that. *)
Fixpoint workflowInputToResponseItem_fuel (fuel : nat) (input : WorkflowInput)
    : option (error + ResponseInputItemUnionParam) :=
  match fuel with
  | O => None
  | S fuel =>
      let type := ToLower (TrimSpace (wi_Type input)) in
      if eqb type "message" then
        match buildMessageInput input with
        | inl err => Some (inl err)
        | inr msg => Some (inr {| OfMessage := Some msg |})
        end
      else if eqb type "text" then
        let role := if eqb (TrimSpace (wi_Role input)) "" then "user" else wi_Role input in
        let moved := is_nil (wi_Content input) && negb (eqb (TrimSpace (wi_URI input)) "") in
        let content := if moved then Str (TrimSpace (wi_URI input)) else wi_Content input in
        let uri := if moved then "" else wi_URI input in
        if is_nil content then
          Some (inl (Errorf "text input requires content or uri" []))
        else workflowInputToResponseItem_fuel fuel (withMessageType input role uri content)
      else if eqb type "image" then
        if eqb (TrimSpace (wi_URI input)) "" && is_nil (wi_Content input) then
          Some (inl (Errorf "image input requires uri or content" []))
        else
          let content :=
            match wi_Content input with
            | Array v => v
            | Object v => [Object v]
            | _ => [Object [("type", Str "input_image");
                            ("image_url", Str (TrimSpace (wi_URI input)))]]
            end in
          workflowInputToResponseItem_fuel fuel
            {| wi_Type := "message";
               wi_Role := TrimSpace (defaultString (wi_Role input) "user");
               wi_MimeType := ""; wi_URI := ""; wi_Content := Array content |}
      else Some (inl (Errorf "type %q not supported yet" [ArgQ (wi_Type input)]))
  end.

Definition workflowInputToResponseItem (input : WorkflowInput)
    : option (error + ResponseInputItemUnionParam) :=
  workflowInputToResponseItem_fuel 2 input.

Fixpoint buildInputItems_loop (idx : nat) (inputs : list WorkflowInput)
    (items : list ResponseInputItemUnionParam)
    : option (error + list ResponseInputItemUnionParam) :=
  match inputs with
  | [] => Some (inr items)
  | input :: rest =>
      match workflowInputToResponseItem input with
      | None => None
      | Some (inl err) => Some (inl (Errorf_w "inputs[%d]: %w" [ArgD (Z.of_nat idx)] err))
      | Some (inr item) => buildInputItems_loop (S idx) rest (items ++ [item])
      end
  end.

Definition buildInputItems (inputs : list WorkflowInput)
    : option (error + list ResponseInputItemUnionParam) :=
  if (List.length inputs =? 0)%nat then Some (inr [])
  else buildInputItems_loop 0 inputs [].

End Inputs.

(** *** workflowrunner/builder.go *)

(** The objects of the agents SDK that [Build] assembles. *)
Class AgentsSDK : Type := {
  AgentConfig : Type;
  Tool : Type;
  Session : Type;
  RunHooks : Type;
  AgentToolExtractor : Type;
  TraceMetadata : Type;
  combinedRunHooks : list RunHooks -> RunHooks;
  NewSQLiteSessionFactory : string -> SessionDeclaration -> error + Session;
  composeTraceMetadata : WorkflowRequest -> TraceMetadata
}.

Section Builder.
Context `{S : AgentsSDK}.

Definition SessionFactory : Type := SessionDeclaration -> error + Session.

Record ToolFactoryEnv : Type := {
  env_AgentName : string;
  env_WorkflowName : string;
  env_RequestMetadata : gmap string value
}.

Definition ToolFactory : Type := ToolDeclaration -> ToolFactoryEnv -> error + Tool.

(** The fields of [Builder] that [Build] reads itself.  A map value can be
    a nil function or a nil interface, hence the options. *)
Record Builder : Type := {
  b_ToolFactories : gmap string ToolFactory;
  b_SessionFactory : option SessionFactory;
  b_SessionFactories : gmap string (option SessionFactory);
  b_DefaultSessionStore : string;
  b_AgentToolExtractors : gmap string AgentToolExtractor;
  b_RunHooks : gmap string (option RunHooks)
}.

(** Lines 547-602 of [Build] make the agent of a declaration and give it
    its instructions, model, output type, guardrails, tool-use behaviour and
    hooks, through seven fallible steps.  They are taken as one function,
    which returns the agent or the step that failed with its error. *)
Inductive ConfigStep : Type :=
| StepInstructions | StepModel | StepOutputType | StepInputGuardrails
| StepOutputGuardrails | StepToolUseBehavior | StepHooks.

Definition configStepFormat (step : ConfigStep) : string :=
  match step with
  | StepInstructions => "agent %q instructions: %w"
  | StepModel => "agent %q model: %w"
  | StepOutputType => "agent %q output type: %w"
  | StepInputGuardrails => "agent %q input guardrails: %w"
  | StepOutputGuardrails => "agent %q output guardrails: %w"
  | StepToolUseBehavior => "agent %q tool_use_behavior: %w"
  | StepHooks => "agent %q hooks: %w"
  end.

Variable configureAgent :
  Builder -> WorkflowRequest -> AgentDeclaration -> ConfigStep * error + AgentConfig.

(** A tool of an agent: another agent as a tool, or what a factory made. *)
Inductive AgentTool : Type :=
| AsTool (target : string) (ToolName ToolDescription : string)
         (CustomOutputExtractor : option AgentToolExtractor)
| FactoryTool (tool : Tool).

(** An [*agents.Agent].  Validation has rejected duplicate names before an
    agent is made, so the pointer to an agent is the name it is declared
    under, the key of [agentMap]. *)
Record AgentObject : Type := {
  agent_config : AgentConfig;
  agent_Handoffs : list string;
  agent_Tools : list AgentTool
}.

Definition WithAgentHandoffs (handoffAgents : list string) (a : AgentObject) :=
  {| agent_config := agent_config a; agent_Handoffs := handoffAgents;
     agent_Tools := agent_Tools a |}.

Definition AddTool (tool : AgentTool) (a : AgentObject) :=
  {| agent_config := agent_config a; agent_Handoffs := agent_Handoffs a;
     agent_Tools := agent_Tools a ++ [tool] |}.

Record pendingConfig : Type := {
  pc_decl : AgentDeclaration;
  pc_agent : string;
  pc_agentTools : list AgentToolReference;
  pc_toolDecls : list ToolDeclaration
}.

Definition toolFromMCP (d : MCPDeclaration) : ToolDeclaration :=
  let config : gmap string value :=
    <["server_url" := Str (mcp_Address d)]>
      (<["server_label" := Str (mcp_ServerLabel d)]> ∅) in
  let config :=
    if eqb (mcp_RequireApproval d) "" then config
    else <["require_approval" := Str (mcp_RequireApproval d)]> config in
  let config := mcp_Additional d ∪ config in
  {| td_Type := "hosted_mcp"; td_Name := mcp_ServerLabel d; td_Config := config;
     td_ApprovalFlow := None; td_Hooks := []; td_FunctionRef := "" |}.

Definition toolsFromMCP (decls : list MCPDeclaration) : list ToolDeclaration :=
  List.map toolFromMCP decls.

Definition resolveSessionFactory (b : Builder) (decl : SessionDeclaration)
    : error + SessionFactory :=
  let store := ToLower (TrimSpace (sd_PersistentStore decl)) in
  match
    if eqb store "" then
      match b_SessionFactory b with
      | Some factory => inl factory
      | None =>
          let store := b_DefaultSessionStore b in
          inr (if eqb store "" then "sqlite" else store)
      end
    else inr store
  with
  | inl factory => inr factory
  | inr store =>
      match b_SessionFactories b !! store with
      | Some (Some factory) => inr factory
      | _ =>
          if eqb store "sqlite" then inr (NewSQLiteSessionFactory "workflowrunner_sessions")
          else inl (Errorf "persistent_store %q not registered" [ArgQ store])
      end
  end.

(** The first loop of [Build], lines 546-610. *)
Fixpoint Build_agents (b : Builder) (req : WorkflowRequest) (decls : list AgentDeclaration)
    (agentMap : gmap string AgentObject) (pending : list pendingConfig)
    : error + gmap string AgentObject * list pendingConfig :=
  match decls with
  | [] => inr (agentMap, pending)
  | decl :: rest =>
      match configureAgent b req decl with
      | inl (step, err) => inl (Errorf_w (configStepFormat step) [ArgQ (ad_Name decl)] err)
      | inr config =>
          let agent := {| agent_config := config; agent_Handoffs := []; agent_Tools := [] |} in
          let pending := pending ++
            [ {| pc_decl := decl; pc_agent := ad_Name decl;
                 pc_agentTools := ad_AgentTools decl;
                 pc_toolDecls := ad_Tools decl ++ toolsFromMCP (ad_MCPServers decl) |} ] in
          Build_agents b req rest (<[ad_Name decl := agent]> agentMap) pending
      end
  end.

(** Lines 616-626. *)
Fixpoint Build_handoffs (agentMap : gmap string AgentObject) (item : pendingConfig)
    (refs : list AgentHandoffDeclaration) (handoffAgents : list string)
    : error + list string :=
  match refs with
  | [] => inr handoffAgents
  | ref :: rest =>
      match agentMap !! ahd_Agent ref with
      | None =>
          inl (Errorf "agent %q references unknown handoff agent %q"
                 [ArgQ (ad_Name (pc_decl item)); ArgQ (ahd_Agent ref)])
      | Some _ => Build_handoffs agentMap item rest (handoffAgents ++ [ahd_Agent ref])
      end
  end.

(** Lines 627-646. *)
Fixpoint Build_agentTools (b : Builder) (item : pendingConfig)
    (refs : list AgentToolReference) (agentMap : gmap string AgentObject)
    : error + gmap string AgentObject :=
  match refs with
  | [] => inr agentMap
  | ref :: rest =>
      match agentMap !! atr_AgentName ref with
      | None =>
          inl (Errorf "agent %q agent_tool references unknown agent %q"
                 [ArgQ (ad_Name (pc_decl item)); ArgQ (atr_AgentName ref)])
      | Some _ =>
          match
            if negb (eqb (TrimSpace (atr_OutputExtractor ref)) "") then
              match b_AgentToolExtractors b !! atr_OutputExtractor ref with
              | None =>
                  inl (Errorf "agent %q agent_tool %q output_extractor %q not registered"
                         [ArgQ (ad_Name (pc_decl item)); ArgQ (atr_AgentName ref);
                          ArgQ (atr_OutputExtractor ref)])
              | Some extractor => inr (Some extractor)
              end
            else inr None
          with
          | inl err => inl err
          | inr extractor =>
              let tool := AsTool (atr_AgentName ref) (atr_ToolName ref)
                            (atr_Description ref) extractor in
              Build_agentTools b item rest (alter (AddTool tool) (pc_agent item) agentMap)
          end
      end
  end.

(** Lines 647-663. *)
Fixpoint Build_tools (b : Builder) (req : WorkflowRequest) (item : pendingConfig)
    (toolDecls : list ToolDeclaration) (agentMap : gmap string AgentObject)
    : error + gmap string AgentObject :=
  match toolDecls with
  | [] => inr agentMap
  | toolDecl :: rest =>
      match b_ToolFactories b !! td_Type toolDecl with
      | None =>
          inl (Errorf "agent %q tool type %q not registered"
                 [ArgQ (ad_Name (pc_decl item)); ArgQ (td_Type toolDecl)])
      | Some factory =>
          match factory toolDecl
                  {| env_AgentName := ad_Name (pc_decl item);
                     env_WorkflowName := wd_Name (req_Workflow req);
                     env_RequestMetadata := req_Metadata req |} with
          | inl err =>
              inl (Errorf_w "agent %q tool %q: %w"
                     [ArgQ (ad_Name (pc_decl item)); ArgQ (td_Type toolDecl)] err)
          | inr tool =>
              Build_tools b req item rest
                (alter (AddTool (FactoryTool tool)) (pc_agent item) agentMap)
          end
      end
  end.

(** The second loop of [Build], lines 614-664. *)
Fixpoint Build_attach (b : Builder) (req : WorkflowRequest) (pending : list pendingConfig)
    (agentMap : gmap string AgentObject) : error + gmap string AgentObject :=
  match pending with
  | [] => inr agentMap
  | item :: rest =>
      match
        if (0 <? List.length (ad_Handoffs (pc_decl item)))%nat then
          match Build_handoffs agentMap item (ad_Handoffs (pc_decl item)) [] with
          | inl err => inl err
          | inr handoffAgents =>
              inr (alter (WithAgentHandoffs handoffAgents) (pc_agent item) agentMap)
          end
        else inr agentMap
      with
      | inl err => inl err
      | inr agentMap =>
      match Build_agentTools b item (pc_agentTools item) agentMap with
      | inl err => inl err
      | inr agentMap =>
      match Build_tools b req item (pc_toolDecls item) agentMap with
      | inl err => inl err
      | inr agentMap => Build_attach b req rest agentMap
      end end end
  end.

Fixpoint uniqueNonEmpty_loop (values : list string) (seen : gset string)
    (result : list string) : list string :=
  match values with
  | [] => result
  | v :: rest =>
      let trimmed := TrimSpace v in
      if eqb trimmed "" then uniqueNonEmpty_loop rest seen result
      else if bool_decide (trimmed ∈ seen) then uniqueNonEmpty_loop rest seen result
      else uniqueNonEmpty_loop rest ({[ trimmed ]} ∪ seen) (result ++ [trimmed])
  end.

Definition uniqueNonEmpty (values : list string) : list string :=
  uniqueNonEmpty_loop values ∅ [].

Fixpoint buildRunHooks_loop (b : Builder) (names : list string) (hooks : list RunHooks)
    : error + list RunHooks :=
  match names with
  | [] => inr hooks
  | name :: rest =>
      match b_RunHooks b !! name with
      | None => inl (Errorf "run hook %q not registered" [ArgQ name])
      | Some (Some hook) => buildRunHooks_loop b rest (hooks ++ [hook])
      | Some None => buildRunHooks_loop b rest hooks
      end
  end.

Definition buildRunHooks (b : Builder) (names : list string) : error + option RunHooks :=
  let filtered := uniqueNonEmpty names in
  match buildRunHooks_loop b filtered [] with
  | inl err => inl err
  | inr [] => inr None
  | inr [hook] => inr (Some hook)
  | inr hooks => inr (Some (combinedRunHooks hooks))
  end.

Record RunConfig : Type := {
  rc_WorkflowName : string;
  rc_MaxTurns : Z;
  rc_Hooks : option RunHooks;
  rc_Session : option Session;
  rc_LimitMemory : Z;
  rc_TracingDisabled : bool;
  rc_GroupID : string;
  rc_TraceMetadata : TraceMetadata
}.

Record BuildResult : Type := {
  br_StartingAgent : string;
  br_AgentMap : gmap string AgentObject;
  br_Runner : RunConfig;
  br_Session : option Session;
  br_WorkflowName : string;
  br_TraceMetadata : TraceMetadata
}.

(** Lines 666-704, after the agents are attached. *)
Definition Build_result (b : Builder) (req : WorkflowRequest) (session : option Session)
    (agentMap : gmap string AgentObject) : error + BuildResult :=
  match agentMap !! wd_StartingAgent (req_Workflow req) with
  | None =>
      inl (Errorf "starting agent %q missing" [ArgQ (wd_StartingAgent (req_Workflow req))])
  | Some _ =>
      let hookNames := wd_OnStart (req_Workflow req) ++ wd_OnFinish (req_Workflow req)
                         ++ wd_OnError (req_Workflow req) in
      match buildRunHooks b hookNames with
      | inl err =>
          inl (Errorf_w "workflow %q hooks: %w" [ArgQ (wd_Name (req_Workflow req))] err)
      | inr runHooks =>
          let traceMetadata := composeTraceMetadata req in
          let runConfig :=
            {| rc_WorkflowName := wd_Name (req_Workflow req);
               rc_MaxTurns :=
                 if (0 <? sd_MaxTurns (req_Session req))%Z
                 then sd_MaxTurns (req_Session req) mod 2 ^ 64 else 0;
               rc_Hooks := runHooks;
               rc_Session := session;
               rc_LimitMemory :=
                 match session with
                 | Some _ =>
                     if (0 <? sd_HistorySize (req_Session req))%Z
                     then sd_HistorySize (req_Session req) else 0
                 | None => 0
                 end;
               rc_TracingDisabled := false;
               rc_GroupID := sd_SessionID (req_Session req);
               rc_TraceMetadata := traceMetadata |} in
          inr {| br_StartingAgent := wd_StartingAgent (req_Workflow req);
                 br_AgentMap := agentMap;
                 br_Runner := runConfig;
                 br_Session := session;
                 br_WorkflowName := wd_Name (req_Workflow req);
                 br_TraceMetadata := traceMetadata |}
      end
  end.

(** Lines 523-535. *)
Definition Build_session (b : Builder) (req : WorkflowRequest) : error + option Session :=
  if (List.length (req_Inputs req) =? 0)%nat then
    match resolveSessionFactory b (req_Session req) with
    | inl err => inl err
    | inr sessionFactory =>
        match sessionFactory (req_Session req) with
        | inl err => inl (Errorf_w "create session: %w" [] err)
        | inr acquiredSession => inr (Some acquiredSession)
        end
    end
  else inr None.

Definition Build (b : Builder) (req : WorkflowRequest) : error + BuildResult :=
  match ValidateWorkflowRequest req with
  | Some err => inl err
  | None =>
  match Build_session b req with
  | inl err => inl err
  | inr session =>
  match Build_agents b req (wd_Agents (req_Workflow req)) ∅ [] with
  | inl err => inl err
  | inr (agentMap, pending) =>
  match Build_attach b req pending agentMap with
  | inl err => inl err
  | inr agentMap => Build_result b req session agentMap
  end end end end.

(** The three errors of [Build] that report a name without an agent. *)
Definition unresolvedReferenceFormats : list string :=
  [ "agent %q references unknown handoff agent %q";
    "agent %q agent_tool references unknown agent %q";
    "starting agent %q missing" ].

Definition unresolvedReference (err : error) : bool :=
  oneOf (error_format err) unresolvedReferenceFormats.

(** The pending configuration the first loop records for a declaration. *)
Definition pendingOf (decl : AgentDeclaration) : pendingConfig :=
  {| pc_decl := decl; pc_agent := ad_Name decl;
     pc_agentTools := ad_AgentTools decl;
     pc_toolDecls := ad_Tools decl ++ toolsFromMCP (ad_MCPServers decl) |}.

(** The names under which the agents of a workflow are declared. *)
Definition declaredNames (decls : list AgentDeclaration) : gset string :=
  list_to_set (List.map ad_Name decls).

(** Every name a declaration refers to is in [names]. *)
Definition referencesResolve (names : gset string) (decl : AgentDeclaration) : Prop :=
  (forall h, In h (ad_Handoffs decl) -> ahd_Agent h ∈ names)
  /\ (forall tool, In tool (ad_AgentTools decl) -> atr_AgentName tool ∈ names).

End Builder.

(** The input types that validation accepts and conversion does not know:
    an ASCII spelling, in any letter case, of json, audio or video. *)
Definition unsupportedKind (type : string) : bool :=
  isASCII type && oneOf (lowerASCII type) ["json"; "audio"; "video"].

(** The input provides a uri or a content. *)
Definition providesPayload (input : WorkflowInput) : bool :=
  negb (eqb (TrimSpace (wi_URI input)) "" && is_nil (wi_Content input)).

(** *** workflowrunner/inputs.go: messages

    The parameter types of [openai-go/responses] that a message is made
    of, with the fields the functions below set.  A [param.Opt[string]] is
    an option: [Valid()] is [is_Some].  The audio parameter is only tested
    for nil. *)

Inductive EasyInputMessageRole : Type :=
| EasyInputMessageRoleUser
| EasyInputMessageRoleAssistant
| EasyInputMessageRoleSystem
| EasyInputMessageRoleDeveloper.

Inductive ResponseInputImageDetail : Type :=
| ResponseInputImageDetailLow
| ResponseInputImageDetailHigh
| ResponseInputImageDetailAuto.

Record ResponseInputTextParam : Type := {
  text_Text : string
}.

Record ResponseInputImageParam : Type := {
  image_Detail : ResponseInputImageDetail;
  image_ImageURL : option string;
  image_FileID : option string
}.

Record ResponseInputFileParam : Type := {
  file_FileURL : option string;
  file_FileData : option string;
  file_FileID : option string
}.

Section Messages.
Context {ResponseInputAudioParam : Type}.

Record ResponseInputContentUnionParam : Type := {
  OfInputText : option ResponseInputTextParam;
  OfInputImage : option ResponseInputImageParam;
  OfInputFile : option ResponseInputFileParam;
  OfInputAudio : option ResponseInputAudioParam
}.

Record EasyInputMessageContentUnionParam : Type := {
  OfString : option string;
  OfInputItemContentList : list ResponseInputContentUnionParam
}.

(** The [Type] of the message is the constant
    [EasyInputMessageTypeMessage]. *)
Record EasyInputMessageParam : Type := {
  msg_Role : EasyInputMessageRole;
  msg_Content : EasyInputMessageContentUnionParam
}.

(** [getString] is declared in a file of the package that is not among the
    sources, and the two decoders belong to [encoding/json] and to the
    [responses] package: [json.Marshal] of a map and [json.Unmarshal] of
    its result into one of the two unions.  They are taken as they are
    called. *)
Variable getString : list (string * value) -> string -> string * bool.
Variable json_Marshal : list (string * value) -> error + string.
Variable json_Unmarshal_EasyInputMessageContentUnionParam :
  string -> error + EasyInputMessageContentUnionParam.
Variable json_Unmarshal_ResponseInputContentUnionParam :
  string -> error + ResponseInputContentUnionParam.

(** [value[key]] on a [map[string]any] given by its entries. *)
Fixpoint map_index (m : list (string * value)) (key : string) : option value :=
  match m with
  | [] => None
  | (k, v) :: m => if eqb k key then Some v else map_index m key
  end.

(** [%T] of a decoded JSON value. *)
Definition typeName (v : value) : string :=
  match v with
  | Nil => "<nil>"
  | Bool _ => "bool"
  | Number _ => "float64"
  | Str _ => "string"
  | Array _ => "[]interface {}"
  | Object _ => "map[string]interface {}"
  end.

Definition normalizeMessageRole (role : string) : error + EasyInputMessageRole :=
  let lowered := ToLower (TrimSpace role) in
  if oneOf lowered [""; "user"] then inr EasyInputMessageRoleUser
  else if eqb lowered "assistant" then inr EasyInputMessageRoleAssistant
  else if eqb lowered "system" then inr EasyInputMessageRoleSystem
  else if eqb lowered "developer" then inr EasyInputMessageRoleDeveloper
  else inl (Errorf "role %q not supported" [ArgQ role]).

Definition messageContentUnionHasValue (union : EasyInputMessageContentUnionParam)
    : bool :=
  if bool_decide (is_Some (OfString union)) then true
  else if (0 <? List.length (OfInputItemContentList union))%nat then true
  else false.

Definition inputContentUnionHasValue (union : ResponseInputContentUnionParam) : bool :=
  bool_decide (is_Some (OfInputText union))
  || bool_decide (is_Some (OfInputImage union))
  || bool_decide (is_Some (OfInputFile union))
  || bool_decide (is_Some (OfInputAudio union)).

Definition textContent (text : string) : ResponseInputContentUnionParam :=
  {| OfInputText := Some {| text_Text := text |}; OfInputImage := None;
     OfInputFile := None; OfInputAudio := None |}.

Definition imageContent (image : ResponseInputImageParam)
    : ResponseInputContentUnionParam :=
  {| OfInputText := None; OfInputImage := Some image;
     OfInputFile := None; OfInputAudio := None |}.

Definition fileContent (file : ResponseInputFileParam) : ResponseInputContentUnionParam :=
  {| OfInputText := None; OfInputImage := None;
     OfInputFile := Some file; OfInputAudio := None |}.

(** [if s, ok := getString(v, key); ok && strings.TrimSpace(s) != ""
       { field = param.NewOpt(strings.TrimSpace(s)) }] *)
Definition trimmedField (v : list (string * value)) (key : string) : option string :=
  let '(s, ok) := getString v key in
  if ok && negb (eqb (TrimSpace s) "") then Some (TrimSpace s) else None.

Definition buildContentUnion (value : value) : error + ResponseInputContentUnionParam :=
  match value with
  | Str v => inr (textContent v)
  | Object v =>
      let '(kindValue, _) := getString v "type" in
      let kind := ToLower (TrimSpace (defaultString kindValue "input_text")) in
      if oneOf kind ["input_text"; "text"] then
        let '(text, ok) := getString v "text" in
        if negb ok || eqb (TrimSpace text) "" then
          inl (Errorf "text content requires text field" [])
        else inr (textContent text)
      else if oneOf kind ["input_image"; "image"] then
        let detail :=
          let '(detail, ok) := getString v "detail" in
          if ok && negb (eqb detail "") then
            let lowered := ToLower detail in
            if eqb lowered "low" then ResponseInputImageDetailLow
            else if eqb lowered "high" then ResponseInputImageDetailHigh
            else ResponseInputImageDetailAuto
          else ResponseInputImageDetailAuto in
        let imageParam :=
          {| image_Detail := detail;
             image_ImageURL := trimmedField v "image_url";
             image_FileID := trimmedField v "file_id" |} in
        if negb (bool_decide (is_Some (image_ImageURL imageParam)))
           && negb (bool_decide (is_Some (image_FileID imageParam))) then
          inl (Errorf "image content requires image_url or file_id" [])
        else inr (imageContent imageParam)
      else if oneOf kind ["input_file"; "file"] then
        let fileParam :=
          {| file_FileURL := trimmedField v "file_url";
             file_FileData := trimmedField v "file_data";
             file_FileID := trimmedField v "file_id" |} in
        if negb (bool_decide (is_Some (file_FileURL fileParam)))
           && negb (bool_decide (is_Some (file_FileData fileParam)))
           && negb (bool_decide (is_Some (file_FileID fileParam))) then
          inl (Errorf "file content requires file_url, file_data, or file_id" [])
        else inr (fileContent fileParam)
      else
        match json_Marshal v with
        | inl err => inl (Errorf_w "marshal custom content: %w" [] err)
        | inr raw =>
            match json_Unmarshal_ResponseInputContentUnionParam raw with
            | inl err => inl (Errorf_w "decode custom content: %w" [] err)
            | inr union =>
                if negb (inputContentUnionHasValue union) then
                  inl (Errorf "custom content %q missing recognized payload" [ArgQ kind])
                else inr union
            end
        end
  | _ => inl (Errorf "unsupported content item type %T" [ArgQ (typeName value)])
  end.

Fixpoint buildMessageContentList_loop (idx : nat) (parts : list value)
    (result : list ResponseInputContentUnionParam)
    : error + list ResponseInputContentUnionParam :=
  match parts with
  | [] => inr result
  | part :: rest =>
      match buildContentUnion part with
      | inl err => inl (Errorf_w "content[%d]: %w" [ArgD (Z.of_nat idx)] err)
      | inr content => buildMessageContentList_loop (S idx) rest (result ++ [content])
      end
  end.

Definition buildMessageContentList (parts : list value)
    : error + list ResponseInputContentUnionParam :=
  if (List.length parts =? 0)%nat then
    inl (Errorf "message content list cannot be empty" [])
  else buildMessageContentList_loop 0 parts [].

Definition contentList (list : list ResponseInputContentUnionParam)
    : EasyInputMessageContentUnionParam :=
  {| OfString := None; OfInputItemContentList := list |}.

Definition contentString (text : string) : EasyInputMessageContentUnionParam :=
  {| OfString := Some text; OfInputItemContentList := [] |}.

Definition buildMessageInput (input : WorkflowInput) : error + EasyInputMessageParam :=
  match normalizeMessageRole (wi_Role input) with
  | inl err => inl err
  | inr role =>
      let message content := {| msg_Role := role; msg_Content := content |} in
      let fromList parts :=
        match buildMessageContentList parts with
        | inl err => inl err
        | inr list => inr (message (contentList list))
        end in
      if is_nil (wi_Content input) && negb (eqb (TrimSpace (wi_URI input)) "") then
        fromList [Object [("type", Str "input_image");
                          ("image_url", Str (TrimSpace (wi_URI input)))]]
      else
        match wi_Content input with
        | Nil => inl (Errorf "message input requires content" [])
        | Str value => inr (message (contentString value))
        | Array value => fromList value
        | Object value =>
            match map_index value "parts" with
            | Some (Array rawParts) => fromList rawParts
            | Some _ => inl (Errorf "message content parts must be an array" [])
            | None =>
                let '(text, ok) := getString value "text" in
                if ok && negb (eqb text "") then inr (message (contentString text))
                else
                  match json_Marshal value with
                  | inl err => inl (Errorf_w "marshal message content: %w" [] err)
                  | inr raw =>
                      match json_Unmarshal_EasyInputMessageContentUnionParam raw with
                      | inl err => inl (Errorf_w "decode message content: %w" [] err)
                      | inr union =>
                          if negb (messageContentUnionHasValue union) then
                            inl (Errorf "decode message content: missing expected fields" [])
                          else inr (message union)
                      end
                  end
            end
        | value =>
            inl (Errorf "message content type %T not supported" [ArgQ (typeName value)])
        end
  end.

(** The string a key of a map holds: what [getString] is called for. *)
Definition stringAt (m : list (string * value)) (key : string) : string * bool :=
  match map_index m key with
  | Some (Str s) => (s, true)
  | _ => ("", false)
  end.

End Messages.

(** *** workflowrunner/hooks.go

    A hook is an object of the caller: a call of one of its methods changes
    the state [W] of the caller's world and returns an error or nil.  An
    element of a combined list can be a nil interface. *)

Section CombinedHooks.
Context {W Hook Call : Type}.
Variable invoke : Hook -> Call -> W -> option error * W.

(** The body the methods of [combinedRunHooks] and [combinedAgentHooks]
    share: [call] stands for the method with its arguments. *)
Fixpoint combinedHooks_call (c : list (option Hook)) (call : Call) (w : W)
    : option error * W :=
  match c with
  | [] => (None, w)
  | None :: c => combinedHooks_call c call w
  | Some hook :: c =>
      match invoke hook call w with
      | (Some err, w) => (Some err, w)
      | (None, w) => combinedHooks_call c call w
      end
  end.

End CombinedHooks.

Section HookMethods.
Context {W Agent ModelResponse InputItem AgentTool' any : Type}.

Inductive RunHooksCall : Type :=
| RunOnLLMStart (agent : Agent) (systemPrompt : option string) (inputItems : list InputItem)
| RunOnLLMEnd (agent : Agent) (response : ModelResponse)
| RunOnAgentStart (agent : Agent)
| RunOnAgentEnd (agent : Agent) (output : any)
| RunOnHandoff (fromAgent toAgent : Agent)
| RunOnToolStart (agent : Agent) (tool : AgentTool')
| RunOnToolEnd (agent : Agent) (tool : AgentTool') (result : any).

Inductive AgentHooksCall : Type :=
| AgentOnStart (agent : Agent)
| AgentOnEnd (agent : Agent) (output : any)
| AgentOnHandoff (agent source : Agent)
| AgentOnToolStart (agent : Agent) (tool : AgentTool') (arguments : any)
| AgentOnToolEnd (agent : Agent) (tool : AgentTool') (result : any)
| AgentOnLLMStart (agent : Agent) (systemPrompt : option string)
                  (inputItems : list InputItem)
| AgentOnLLMEnd (agent : Agent) (response : ModelResponse).

Context {RunHook AgentHook : Type}.
Variable runHook : RunHook -> RunHooksCall -> W -> option error * W.
Variable agentHook : AgentHook -> AgentHooksCall -> W -> option error * W.

Definition combinedRunHooks_OnLLMStart (c : list (option RunHook)) agent systemPrompt
    inputItems := combinedHooks_call runHook c (RunOnLLMStart agent systemPrompt inputItems).
Definition combinedRunHooks_OnLLMEnd (c : list (option RunHook)) agent response :=
  combinedHooks_call runHook c (RunOnLLMEnd agent response).
Definition combinedRunHooks_OnAgentStart (c : list (option RunHook)) agent :=
  combinedHooks_call runHook c (RunOnAgentStart agent).
Definition combinedRunHooks_OnAgentEnd (c : list (option RunHook)) agent output :=
  combinedHooks_call runHook c (RunOnAgentEnd agent output).
Definition combinedRunHooks_OnHandoff (c : list (option RunHook)) fromAgent toAgent :=
  combinedHooks_call runHook c (RunOnHandoff fromAgent toAgent).
Definition combinedRunHooks_OnToolStart (c : list (option RunHook)) agent tool :=
  combinedHooks_call runHook c (RunOnToolStart agent tool).
Definition combinedRunHooks_OnToolEnd (c : list (option RunHook)) agent tool result :=
  combinedHooks_call runHook c (RunOnToolEnd agent tool result).

Definition combinedAgentHooks_OnStart (c : list (option AgentHook)) agent :=
  combinedHooks_call agentHook c (AgentOnStart agent).
Definition combinedAgentHooks_OnEnd (c : list (option AgentHook)) agent output :=
  combinedHooks_call agentHook c (AgentOnEnd agent output).
Definition combinedAgentHooks_OnHandoff (c : list (option AgentHook)) agent source :=
  combinedHooks_call agentHook c (AgentOnHandoff agent source).
Definition combinedAgentHooks_OnToolStart (c : list (option AgentHook)) agent tool
    arguments := combinedHooks_call agentHook c (AgentOnToolStart agent tool arguments).
Definition combinedAgentHooks_OnToolEnd (c : list (option AgentHook)) agent tool result :=
  combinedHooks_call agentHook c (AgentOnToolEnd agent tool result).
Definition combinedAgentHooks_OnLLMStart (c : list (option AgentHook)) agent systemPrompt
    inputItems :=
  combinedHooks_call agentHook c (AgentOnLLMStart agent systemPrompt inputItems).
Definition combinedAgentHooks_OnLLMEnd (c : list (option AgentHook)) agent response :=
  combinedHooks_call agentHook c (AgentOnLLMEnd agent response).

End HookMethods.

(** *** workflowrunner/types.go: instructions *)

Definition InstructionText (text : string) : InstructionDeclaration :=
  {| id_Text := text; id_Template := None |}.

Definition InstructionTemplate (template : string) (vars : gmap string value)
    : InstructionDeclaration :=
  {| id_Text := "";
     id_Template := Some {| itd_Template := template; itd_Format := "";
                            itd_Delimiters := ("", ""); itd_Variables := vars |} |}.

Definition InstructionDeclaration_IsZero (i : InstructionDeclaration) : bool :=
  eqb (id_Text i) "" && bool_decide (id_Template i = None).

(** *** workflowrunner/builder.go: the steps of the first loop *)

Definition workflowAgentNames (decls : list AgentDeclaration) : list string :=
  List.map ad_Name decls.

Definition handoffAgentNames (decls : list AgentHandoffDeclaration) : list string :=
  List.filter (fun name => negb (eqb name "")) (List.map ahd_Agent decls).

(** [strings.EqualFold]: bytes are compared under ASCII case folding until
    one of them is not ASCII; what is left is then compared under Unicode
    case folding, which belongs to Go's library. *)
Definition foldsTo (sr tr : ascii) : bool :=
  let s := nat_of_ascii sr in
  let t := nat_of_ascii tr in
  ((s =? t) || ((65 <=? s) && (s <=? 90) && (t =? s + 32))
            || ((65 <=? t) && (t <=? 90) && (s =? t + 32)))%nat.

Section EqualFold.
Variable unicode_EqualFold : string -> string -> bool.

Fixpoint EqualFold (s t : string) : bool :=
  match s, t with
  | String sr s', String tr t' =>
      if negb (isASCIIByte sr) || negb (isASCIIByte tr) then unicode_EqualFold s t
      else if foldsTo sr tr then EqualFold s' t'
      else false
  | EmptyString, EmptyString => true
  | _, _ => false
  end.

(** [modelsettings.ModelSettings] and [openai.ReasoningParam], with the
    fields [applyModelDeclaration] sets.  The effort and the summary of the
    reasoning parameter are strings. *)
Inductive Verbosity : Type := VerbosityLow | VerbosityMedium | VerbosityHigh.

Record ReasoningParam : Type := {
  rp_Effort : string;
  rp_Summary : string
}.

Record ModelSettings : Type := {
  ms_Temperature_bits : option Z;
  ms_TopP_bits : option Z;
  ms_MaxTokens : option Z;
  ms_Verbosity : option Verbosity;
  ms_Metadata : gmap string string;
  ms_ExtraHeaders : gmap string string;
  ms_ExtraQuery : gmap string string;
  ms_Reasoning : ReasoningParam;
  ms_ToolChoice : option string
}.

Definition buildReasoningParam (decl : ReasoningDeclaration) : ReasoningParam :=
  let effort :=
    let lowered := ToLower (rd_Effort decl) in
    if eqb lowered "low" then "low"
    else if eqb lowered "medium" then "medium"
    else if eqb lowered "high" then "high"
    else if eqb lowered "" then ""
    else rd_Effort decl in
  let summary :=
    let lowered := ToLower (rd_Summary decl) in
    if eqb lowered "auto" then "auto"
    else if eqb lowered "concise" then "concise"
    else if eqb lowered "detailed" then "detailed"
    else if eqb lowered "" then ""
    else rd_Summary decl in
  {| rp_Effort := effort; rp_Summary := summary |}.

Definition applyModelDeclaration (decl : ModelDeclaration) : error + ModelSettings :=
  if negb (eqb (TrimSpace (md_Provider decl)) "")
     && negb (EqualFold (md_Provider decl) "openai") then
    inl (Errorf "provider %q not supported (only openai is available in this build)"
           [ArgQ (md_Provider decl)])
  else if eqb (TrimSpace (md_Model decl)) "" then
    inl (errors_New "model name cannot be empty")
  else
    match
      if negb (eqb (md_Verbosity decl) "") then
        let lowered := ToLower (md_Verbosity decl) in
        if eqb lowered "low" then inr (Some VerbosityLow)
        else if eqb lowered "medium" then inr (Some VerbosityMedium)
        else if eqb lowered "high" then inr (Some VerbosityHigh)
        else inl (Errorf "unsupported verbosity %q" [ArgQ (md_Verbosity decl)])
      else inr None
    with
    | inl err => inl err
    | inr verbosity =>
        inr {| ms_Temperature_bits := md_Temperature_bits decl;
               ms_TopP_bits := md_TopP_bits decl;
               ms_MaxTokens := md_MaxTokens decl;
               ms_Verbosity := verbosity;
               ms_Metadata := md_Metadata decl;
               ms_ExtraHeaders := md_ExtraHeaders decl;
               ms_ExtraQuery := md_ExtraQuery decl;
               ms_Reasoning :=
                 match md_Reasoning decl with
                 | Some reasoning => buildReasoningParam reasoning
                 | None => {| rp_Effort := ""; rp_Summary := "" |}
                 end;
               ms_ToolChoice :=
                 if negb (eqb (TrimSpace (md_ToolChoice decl)) "")
                 then Some (md_ToolChoice decl) else None |}
    end.

End EqualFold.

(** [agents.RunLLMAgain()], [agents.StopOnFirstTool()] and
    [agents.StopAtTools(names...)]. *)
Inductive ToolUseBehavior : Type :=
| RunLLMAgain
| StopOnFirstTool
| StopAtTools (toolNames : list string).

(** The function returns an error, or nil after giving the agent a
    behaviour or leaving it alone: the result is the behaviour given, if
    any. *)
Definition applyToolUseBehavior (decl : option ToolUseBehaviorDeclaration)
    : error + option ToolUseBehavior :=
  match decl with
  | None => inr None
  | Some decl =>
      let mode := ToLower (TrimSpace (tub_Mode decl)) in
      if oneOf mode [""; "default"] then inr None
      else if eqb mode "run_llm_again" then inr (Some RunLLMAgain)
      else if eqb mode "stop_on_first_tool" then inr (Some StopOnFirstTool)
      else if eqb mode "stop_at_tools" then inr (Some (StopAtTools (tub_ToolNames decl)))
      else if eqb mode "custom" then
        inl (Errorf "custom tool_use_behavior handler %q not supported yet"
               [ArgQ (tub_Handler decl)])
      else inl (Errorf "unsupported mode %q" [ArgQ (tub_Mode decl)])
  end.

Section BuilderSteps.
Context `{S : AgentsSDK}.

(** [WithHostedMCPTool], [WithAgentToolExtractor] and [WithRunHooks]: a nil
    map is made before the entry is written. *)
Definition WithHostedMCPTool (name : string) (factory : ToolFactory) (b : Builder)
    : Builder :=
  {| b_ToolFactories := <[ToLower name := factory]> (b_ToolFactories b);
     b_SessionFactory := b_SessionFactory b;
     b_SessionFactories := b_SessionFactories b;
     b_DefaultSessionStore := b_DefaultSessionStore b;
     b_AgentToolExtractors := b_AgentToolExtractors b;
     b_RunHooks := b_RunHooks b |}.

Definition WithAgentToolExtractor (name : string) (extractor : AgentToolExtractor)
    (b : Builder) : Builder :=
  {| b_ToolFactories := b_ToolFactories b;
     b_SessionFactory := b_SessionFactory b;
     b_SessionFactories := b_SessionFactories b;
     b_DefaultSessionStore := b_DefaultSessionStore b;
     b_AgentToolExtractors := <[name := extractor]> (b_AgentToolExtractors b);
     b_RunHooks := b_RunHooks b |}.

Definition WithRunHooks (name : string) (hooks : option RunHooks) (b : Builder)
    : Builder :=
  {| b_ToolFactories := b_ToolFactories b;
     b_SessionFactory := b_SessionFactory b;
     b_SessionFactories := b_SessionFactories b;
     b_DefaultSessionStore := b_DefaultSessionStore b;
     b_AgentToolExtractors := b_AgentToolExtractors b;
     b_RunHooks := <[name := hooks]> (b_RunHooks b) |}.

(** The registries of [Builder] that the tool factories and
    [buildAgentHooks] read.  A registered factory can return a nil tool
    with a nil error, and a registered executor or hook can be a nil
    interface. *)
Context {LocalShellExecutor AgentHooks : Type}.
Variable LocalShellTool : option LocalShellExecutor -> Tool.
Variable combinedAgentHooks : list AgentHooks -> AgentHooks.

Definition NilableToolFactory : Type :=
  ToolDeclaration -> ToolFactoryEnv -> error + option Tool.

Record Registries : Type := {
  FunctionToolFactories : gmap string NilableToolFactory;
  ComputerToolFactories : gmap string NilableToolFactory;
  LocalShellExecutors : gmap string (option LocalShellExecutor);
  AgentHooksRegistry : gmap string (option AgentHooks)
}.

(** [value, ok := decl.Config[key].(string)] *)
Definition configStringValue (config : gmap string value) (key : string)
    : option string :=
  match config !! key with
  | Some (Str v) => Some v
  | _ => None
  end.

Definition buildFunctionTool (b : Registries) (decl : ToolDeclaration)
    (env : ToolFactoryEnv) : error + Tool :=
  let ref := TrimSpace (td_FunctionRef decl) in
  let ref :=
    if eqb ref "" then
      match configStringValue (td_Config decl) "function_ref" with
      | Some value => if negb (eqb (TrimSpace value) "") then TrimSpace value else ref
      | None => ref
      end
    else ref in
  let ref := if eqb ref "" && negb (eqb (td_Name decl) "") then td_Name decl else ref in
  if eqb ref "" then inl (errors_New "function tool requires function_ref or name")
  else
    match FunctionToolFactories b !! ref with
    | None => inl (Errorf "function tool %q not registered" [ArgQ ref])
    | Some factory =>
        match factory decl env with
        | inl err => inl (Errorf_w "function tool %q: %w" [ArgQ ref] err)
        | inr None => inl (Errorf "function tool %q factory returned nil" [ArgQ ref])
        | inr (Some tool) => inr tool
        end
    end.

Definition buildComputerTool (b : Registries) (decl : ToolDeclaration)
    (env : ToolFactoryEnv) : error + Tool :=
  let provider :=
    match configStringValue (td_Config decl) "provider" with
    | Some value => TrimSpace value
    | None => ""
    end in
  let provider := if eqb provider "" then td_Name decl else provider in
  if eqb provider "" then
    inl (errors_New "computer tool requires config.provider or name")
  else
    match ComputerToolFactories b !! provider with
    | None => inl (Errorf "computer tool provider %q not registered" [ArgQ provider])
    | Some factory =>
        match factory decl env with
        | inl err => inl (Errorf_w "computer tool %q: %w" [ArgQ provider] err)
        | inr None =>
            inl (Errorf "computer tool %q factory returned nil" [ArgQ provider])
        | inr (Some tool) => inr tool
        end
    end.

Definition buildLocalShellTool (b : Registries) (decl : ToolDeclaration)
    (env : ToolFactoryEnv) : error + Tool :=
  let executorRef :=
    match configStringValue (td_Config decl) "executor_ref" with
    | Some value => TrimSpace value
    | None => ""
    end in
  let executorRef := if eqb executorRef "" then td_Name decl else executorRef in
  if eqb executorRef "" then
    inl (errors_New "local_shell tool requires config.executor_ref or name")
  else
    match LocalShellExecutors b !! executorRef with
    | None => inl (Errorf "local shell executor %q not registered" [ArgQ executorRef])
    | Some executor => inr (LocalShellTool executor)
    end.

Fixpoint buildAgentHooks_loop (b : Registries) (names : list string)
    (hooks : list AgentHooks) : error + list AgentHooks :=
  match names with
  | [] => inr hooks
  | name :: rest =>
      match AgentHooksRegistry b !! name with
      | None => inl (Errorf "agent hook %q not registered" [ArgQ name])
      | Some (Some hook) => buildAgentHooks_loop b rest (hooks ++ [hook])
      | Some None => buildAgentHooks_loop b rest hooks
      end
  end.

Definition buildAgentHooks (b : Registries) (names : list string)
    : error + option AgentHooks :=
  let filtered := uniqueNonEmpty names in
  match buildAgentHooks_loop b filtered [] with
  | inl err => inl err
  | inr [] => inr None
  | inr [hook] => inr (Some hook)
  | inr hooks => inr (Some (combinedAgentHooks hooks))
  end.

(** The hooks a list of names stands for: the registered ones that are not
    nil, in the order of the names. *)
Definition registeredRunHooks (b : Builder) (names : list string) : list RunHooks :=
  omap (fun name => mjoin (b_RunHooks b !! name)) names.

(** What [Build] attaches to the agent of a declaration, in this order: a
    tool for each agent it uses as a tool, then a tool for each tool it
    declares and for each MCP server. *)
Definition addTools (tools : list AgentTool) (a : AgentObject) : AgentObject :=
  {| agent_config := agent_config a; agent_Handoffs := agent_Handoffs a;
     agent_Tools := agent_Tools a ++ tools |}.

End BuilderSteps.

Section BuilderTerms.
Context `{S : AgentsSDK}.

(** The tool [Build] makes of a reference to an agent, lines 633-644. *)
Definition agentAsTool (b : Builder) (ref : AgentToolReference) : AgentTool :=
  AsTool (atr_AgentName ref) (atr_ToolName ref) (atr_Description ref)
    (if negb (eqb (TrimSpace (atr_OutputExtractor ref)) "")
     then b_AgentToolExtractors b !! atr_OutputExtractor ref else None).

(** Every key of the tool registry is written in lower case, as the keys
    [NewDefaultBuilder] and [WithHostedMCPTool] write are. *)
Definition lowerCaseKeys (b : Builder) : Prop :=
  forall key, is_Some (b_ToolFactories b !! key) -> ToLower key = key.

End BuilderTerms.

End WithGoLibrary.
End Workflow.

(** ** Terms of the statements about the streaming result *)

Module StreamingTerms.
Import Items Streaming.
Section WithResponses.
Context `{R : Responses}.

(** The error a task has completed with, when it is done and has one. *)
Definition taskFailure (id : TaskId) (r : RunResultStreaming) : option error :=
  match getTask id r with
  | Some t => if Task_IsDone t then Task_result_Error t else None
  | None => None
  end.

(** The last of the failed tasks, in the order in which [checkErrors] looks
    at the tasks. *)
Definition lastFailedTask (r : RunResultStreaming) : option (TaskId * error) :=
  last (omap (fun id => (fun err => (id, err)) <$> taskFailure id r) taskIds).

(** The events of a queue in front of its first sentinel, and those behind
    it. *)
Fixpoint beforeSentinel (queue : list StreamEvent) : list StreamEvent :=
  match queue with
  | [] => []
  | item :: rest =>
      if is_queueCompleteSentinel item then [] else item :: beforeSentinel rest
  end.

Fixpoint behindSentinel (queue : list StreamEvent) : list StreamEvent :=
  match queue with
  | [] => []
  | item :: rest =>
      if is_queueCompleteSentinel item then rest else behindSentinel rest
  end.

Definition hasSentinel (queue : list StreamEvent) : bool :=
  existsb is_queueCompleteSentinel queue.

(** The visitor called on the events of a list, one after the other, until
    it returns an error. *)
Fixpoint visitAll {V : Type} (fn : V -> StreamEvent -> V * option error)
    (v : V) (events : list StreamEvent) : V * option error :=
  match events with
  | [] => (v, None)
  | item :: rest =>
      match fn v item with
      | (v, Some err) => (v, Some err)
      | (v, None) => visitAll fn v rest
      end
  end.

(** A run at rest: no task is running and none has failed, the turn limit
    is kept, no error is stored and no triggered guardrail result is
    queued. *)
Definition atRest (r : RunResultStreaming) : Prop :=
  tasksSettled r /\ noTaskError r /\ (currentTurn r <= maxTurns r)%Z
  /\ storedError r = None /\ lastTriggered (inputGuardrailQueue r) = None.

End WithResponses.
End StreamingTerms.

(** ** workflowrunner/service.go *)

Module Service.
Import strings Workflow.

Section WithGoLibrary.
Context `{G : GoLibrary}.

Definition callbackIsEmpty (cb : CallbackDeclaration) : bool :=
  eqb (TrimSpace (cb_Target cb)) "" && eqb (TrimSpace (cb_Mode cb)) ""
  && bool_decide (size (cb_Headers cb) = 0%nat)
  && bool_decide (cb_Retry cb = None).

Definition collectCallbackDeclarations (req : WorkflowRequest)
    : list CallbackDeclaration :=
  let decls := if negb (callbackIsEmpty (req_Callback req)) then [req_Callback req]
               else [] in
  decls ++ req_Callbacks req.

(** *** The publishers of a run

    Modelled from the way they are used: the two publishers of the package
    are made by [NewHTTPCallbackPublisher] and [StdoutCallbackPublisher],
    which are not among the sources.  A callback factory returns a
    publisher, which can be a nil interface, or an error. *)
Section Publishers.
Context {CallbackPublisher : Type}.
Variable NewHTTPCallbackPublisher : string -> CallbackPublisher.
Variable StdoutCallbackPublisher : CallbackPublisher.

Definition CallbackFactory : Type :=
  CallbackDeclaration -> error + option CallbackPublisher.

(** The factory [NewRunnerService] installs. *)
Definition defaultCallbackFactory : CallbackFactory := fun decl =>
  if oneOf (cb_Mode decl) [""; "http"] then
    inr (Some (NewHTTPCallbackPublisher (cb_Target decl)))
  else if oneOf (cb_Mode decl) ["stdout"; "stdout_verbose"] then
    inr (Some StdoutCallbackPublisher)
  else inl (Errorf "unsupported callback mode %q" [ArgQ (cb_Mode decl)]).

(** The factory [Execute] uses when the service has none. *)
Definition stdoutCallbackFactory : CallbackFactory := fun decl =>
  inr (Some StdoutCallbackPublisher).

(** Lines 222-243 of [Execute]: the publishers and the three flags. *)
Record Publishing : Type := {
  publishers : list (option CallbackPublisher);
  hasStdout : bool;
  hasVerboseStdout : bool;
  hasNonStdout : bool
}.

Fixpoint Execute_publishers (callbackFactory : CallbackFactory) (i : nat)
    (callbackDecls : list CallbackDeclaration) (p : Publishing) : error + Publishing :=
  match callbackDecls with
  | [] => inr p
  | decl :: rest =>
      let mode := ToLower (cb_Mode decl) in
      let stdout := eqb mode "stdout" || eqb mode "stdout_verbose" in
      let hasStdout' := if stdout then true else hasStdout p in
      let hasVerboseStdout' :=
        if stdout && eqb mode "stdout_verbose" then true else hasVerboseStdout p in
      let hasNonStdout' := if stdout then hasNonStdout p else true in
      match callbackFactory decl with
      | inl err =>
          inl (Errorf_w "create callback publisher[%d]: %w" [ArgD (Z.of_nat i)] err)
      | inr publisher =>
          Execute_publishers callbackFactory (S i) rest
            {| publishers := publishers p ++ [publisher];
               hasStdout := hasStdout'; hasVerboseStdout := hasVerboseStdout';
               hasNonStdout := hasNonStdout' |}
      end
  end.

Definition Execute_callbacks (callbackFactory : option CallbackFactory)
    (req : WorkflowRequest) : error + Publishing :=
  let callbackFactory :=
    match callbackFactory with
    | Some factory => factory
    | None => stdoutCallbackFactory
    end in
  Execute_publishers callbackFactory 0 (collectCallbackDeclarations req)
    {| publishers := []; hasStdout := false; hasVerboseStdout := false;
       hasNonStdout := false |}.

(** Line 255. *)
Definition skipPublishing (p : Publishing) : bool :=
  hasStdout p && negb (hasNonStdout p).

End Publishers.

(** [multiCallbackPublisher.Publish].  Publishing changes the state [W] of
    the world outside and returns an error or nil. *)
Section Publish.
Context {W Publisher Event : Type}.
Variable publish : Publisher -> Event -> W -> option error * W.

Fixpoint multiCallbackPublisher_Publish_loop (m : list (option Publisher))
    (event : Event) (firstErr : option error) (w : W) : option error * W :=
  match m with
  | [] => (firstErr, w)
  | None :: m => multiCallbackPublisher_Publish_loop m event firstErr w
  | Some publisher :: m =>
      let '(err, w) := publish publisher event w in
      let firstErr :=
        match err, firstErr with
        | Some err, None => Some err
        | _, _ => firstErr
        end in
      multiCallbackPublisher_Publish_loop m event firstErr w
  end.

Definition multiCallbackPublisher_Publish (m : list (option Publisher))
    (event : Event) (w : W) : option error * W :=
  multiCallbackPublisher_Publish_loop m event None w.

(** The publishers of a list that are not nil. *)
Definition present (m : list (option Publisher)) : list Publisher :=
  omap (fun publisher => publisher) m.

(** The event published to each publisher of a list, whatever each
    returns. *)
Definition publishAll (publishers : list Publisher) (event : Event) (w : W) : W :=
  fold_left (fun w publisher => snd (publish publisher event w)) publishers w.

(** The errors the publishers of a list return, in their order. *)
Fixpoint publishErrors (publishers : list Publisher) (event : Event) (w : W)
    : list error :=
  match publishers with
  | [] => []
  | publisher :: rest =>
      let '(err, w) := publish publisher event w in
      match err with
      | Some err => err :: publishErrors rest event w
      | None => publishErrors rest event w
      end
  end.

End Publish.

(** *** The execution state of a session

    Modelled from the spec and from the way they are used: the state record
    and its store are declared in a file that is not among the sources.
    The record is "a key-value record per session capturing status
    (idle/running/waiting_approval/failed), pending approval requests, and
    a resume token"; the functions below read and write the five fields
    named here, and [wes_Others] stands for the rest.  The store is an
    interface with [Load], [Save] and [Clear]. *)
Section ExecutionState.
Context {ExecutionStatus Time Store ApprovalRequestState Others : Type}.
Context `{StatusEq : EqDecision ExecutionStatus}.
Variable ExecutionStatusIdle : ExecutionStatus.
Variable ExecutionStatusWaitingApproval : ExecutionStatus.
Variable ExecutionStatusFailed : ExecutionStatus.
Variable ExecutionStatus_text : ExecutionStatus -> string.
Variable RequestID : ApprovalRequestState -> string.

Record WorkflowExecutionState : Type := {
  wes_Status : ExecutionStatus;
  wes_PendingApprovals : list ApprovalRequestState;
  wes_ResumeToken : string;
  wes_WorkflowName : string;
  wes_UpdatedAt : Time;
  wes_Others : Others
}.

Variable store_Load :
  string -> Store -> (WorkflowExecutionState * bool * option error) * Store.
Variable store_Save : WorkflowExecutionState -> Store -> option error * Store.
Variable store_Clear : string -> Store -> option error * Store.
Variable NewInMemoryExecutionStateStore : Store.

(** The field of [RunnerService] these methods use. *)
Record RunnerService : Type := {
  StateStore : option Store
}.

(** [store := s.StateStore; if store == nil { store = New...() }] *)
Definition stateStore (s : RunnerService) : Store :=
  match StateStore s with
  | Some store => store
  | None => NewInMemoryExecutionStateStore
  end.

Definition GetExecutionState (s : RunnerService) (sessionID : string)
    : (WorkflowExecutionState * bool * option error) * RunnerService :=
  let '(result, store) := store_Load sessionID (stateStore s) in
  (result, {| StateStore := Some store |}).

Definition ClearExecutionState (s : RunnerService) (sessionID : string)
    : option error * RunnerService :=
  let '(err, store) := store_Clear sessionID (stateStore s) in
  (err, {| StateStore := Some store |}).

Definition PendingApprovals (s : RunnerService) (sessionID : string)
    : (error + list ApprovalRequestState) * RunnerService :=
  let '((state, ok, err), s) := GetExecutionState s sessionID in
  match err with
  | Some err => (inl err, s)
  | None =>
      if negb ok then
        (inl (Errorf "no execution state for session %q" [ArgQ sessionID]), s)
      else (inr (wes_PendingApprovals state), s)
  end.

(** Lines 104-112.  [filtered] is [state.PendingApprovals[:0]]: it shares
    the array of the pending approvals.  The [range] reads the element at
    [i]; an element that is kept is appended to [filtered], that is written
    at [k], the length of [filtered].  [n] counts the iterations left. *)
Fixpoint ResolveApproval_filter (approvalID : string) (n i k : nat)
    (array : list ApprovalRequestState) (removed : bool)
    : list ApprovalRequestState * nat * bool :=
  match n with
  | O => (array, k, removed)
  | S n =>
      match array !! i with
      | None => (array, k, removed)
      | Some approval =>
          if eqb (RequestID approval) approvalID then
            ResolveApproval_filter approvalID n (S i) k array true
          else
            ResolveApproval_filter approvalID n (S i) (S k) (<[k := approval]> array)
              removed
      end
  end.

Definition ResolveApproval (s : RunnerService) (sessionID approvalID : string)
    (approve : bool) (now : Time) : option error * RunnerService :=
  let '((state, ok, err), store) := store_Load sessionID (stateStore s) in
  let s := {| StateStore := Some store |} in
  match err with
  | Some err => (Some (Errorf_w "load execution state: %w" [] err), s)
  | None =>
      if negb ok then
        (Some (Errorf "no execution state for session %q" [ArgQ sessionID]), s)
      else if (List.length (wes_PendingApprovals state) =? 0)%nat then
        (Some (Errorf "no pending approvals for session %q" [ArgQ sessionID]), s)
      else
        let '(array, k, removed) :=
          ResolveApproval_filter approvalID (List.length (wes_PendingApprovals state))
            0 0 (wes_PendingApprovals state) false in
        if negb removed then
          (Some (Errorf "approval id %q not found in session %q"
                   [ArgQ approvalID; ArgQ sessionID]), s)
        else
          let pending := take k array in
          let status :=
            if (List.length pending =? 0)%nat
               && bool_decide (wes_Status state = ExecutionStatusWaitingApproval)
            then if approve then ExecutionStatusIdle else ExecutionStatusFailed
            else wes_Status state in
          let state :=
            {| wes_Status := status; wes_PendingApprovals := pending;
               wes_ResumeToken := wes_ResumeToken state;
               wes_WorkflowName := wes_WorkflowName state;
               wes_UpdatedAt := now; wes_Others := wes_Others state |} in
          let '(err, store) := store_Save state store in
          (err, {| StateStore := Some store |})
  end.

(** [Resume] ends in a call of [Execute], taken as it is called. *)
Context {Started : Type}.
Variable Execute : RunnerService -> WorkflowRequest -> (error + Started) * RunnerService.

Definition Resume (s : RunnerService) (req : WorkflowRequest)
    : (error + Started) * RunnerService :=
  let sessionID := TrimSpace (sd_SessionID (req_Session req)) in
  if eqb sessionID "" then
    (inl (errors_New "session.session_id is required for resume"), s)
  else
    let resumeToken := TrimSpace (sd_ResumeToken (req_Session req)) in
    if eqb resumeToken "" then
      (inl (errors_New "session.resume_token is required for resume"), s)
    else
      let '((state, ok, err), store) := store_Load sessionID (stateStore s) in
      let s := {| StateStore := Some store |} in
      match err with
      | Some err => (inl (Errorf_w "load execution state: %w" [] err), s)
      | None =>
          if negb ok then
            (inl (Errorf "no execution state for session %q" [ArgQ sessionID]), s)
          else if negb (eqb (TrimSpace (wes_ResumeToken state)) resumeToken) then
            (inl (Errorf "resume token does not match stored state" []), s)
          else if negb (bool_decide (wes_Status state = ExecutionStatusWaitingApproval)
                        || bool_decide (wes_Status state = ExecutionStatusFailed)) then
            (inl (Errorf "session status %q cannot be resumed"
                    [ArgQ (ExecutionStatus_text (wes_Status state))]), s)
          else if negb (eqb (wes_WorkflowName state) "")
                  && negb (eqb (wd_Name (req_Workflow req)) "")
                  && negb (eqb (wes_WorkflowName state) (wd_Name (req_Workflow req))) then
            (inl (Errorf "workflow name mismatch: stored=%q request=%q"
                    [ArgQ (wes_WorkflowName state); ArgQ (wd_Name (req_Workflow req))]), s)
          else Execute s req
      end.

End ExecutionState.

End WithGoLibrary.

(** *** [wrapRunError]

    The error is one of the agents package.  The function returns it as it
    is or wrapped by [fmt.Errorf("%w (last agent: %s)", err, name)]. *)
Section RunErrors.
Import Items Streaming.
Context `{R : Responses}.
Variable Agent_Name : Agent -> string.

Inductive RunError : Type :=
| Unwrapped (err : Streaming.error)
| WithLastAgent (err : Streaming.error) (lastAgent : string).

Definition wrapRunError (err : Streaming.error) (r : RunResultStreaming) : RunError :=
  match errors_As err with
  | Some agentsErr =>
      match getRunData agentsErr r with
      | Some runData =>
          match red_LastAgent runData with
          | Some lastAgent => WithLastAgent err (Agent_Name lastAgent)
          | None => Unwrapped err
          end
      | None => Unwrapped err
      end
  | None => Unwrapped err
  end.

End RunErrors.

End Service.


(** ** Concrete runs and requests

    The states and requests at which the statements below are evaluated. *)

Module Examples.
Import Items Streaming.

(** The API types as text: a raw item or an input item is its JSON text, an
    agent is its name, and the original input is one user message. *)
Definition text_responses : Responses :=
  {| Agent := string;
     Input := string;
     ModelResponse := string;
     any := string;
     TResponseInputItem := string;
     zero_TResponseInputItem := "";
     responses_ResponseOutputMessage := string;
     responses_ResponseFunctionToolCall := string;
     responses_ResponseComputerToolCall := string;
     responses_ResponseOutputItemLocalShellCall := string;
     responses_ResponseFileSearchToolCall := string;
     responses_ResponseFunctionWebSearch := string;
     responses_ResponseCodeInterpreterToolCall := string;
     responses_ResponseOutputItemImageGenerationCall := string;
     responses_ResponseOutputItemMcpCall := string;
     responses_ResponseInputItemFunctionCallOutputParam := string;
     responses_ResponseInputItemComputerCallOutputParam := string;
     responses_ResponseInputItemLocalShellCallOutputParam := string;
     responses_ResponseReasoningItem := string;
     responses_ResponseOutputItemMcpListTools := string;
     responses_ResponseOutputItemMcpApprovalRequest := string;
     responses_ResponseInputItemMcpApprovalResponseParam := string;
     ResponseInputItemUnionParamFromResponseOutputMessage := fun raw => raw;
     ResponseInputItemUnionParamFromResponseFunctionToolCall := fun raw => raw;
     ResponseInputItemUnionParamFromResponseComputerToolCall := fun raw => raw;
     ResponseInputItemUnionParamFromResponseOutputItemLocalShellCall := fun raw => raw;
     ResponseInputItemUnionParamFromResponseInputItemFunctionCallOutputParam :=
       fun raw => raw;
     ResponseInputItemUnionParamFromResponseInputItemComputerCallOutputParam :=
       fun raw => raw;
     ResponseInputItemUnionParamFromResponseInputItemLocalShellCallOutputParam :=
       fun raw => raw;
     ResponseInputItemUnionParamFromResponseReasoningItem := fun raw => raw;
     ResponseInputItemUnionParamFromResponseOutputItemMcpListTools := fun raw => raw;
     ResponseInputItemUnionParamFromResponseOutputItemMcpApprovalRequest := fun raw => raw;
     ResponseInputItemUnionParamFromResponseInputItemMcpApprovalResponseParam :=
       fun raw => raw;
     InputToNewInputList := fun text => [text];
     ModelResponse_ResponseID := fun response => response |}.

#[local] Existing Instance text_responses.

(** A run in its first turn, with nothing queued and no task. *)
Definition freshRun : RunResultStreaming :=
  {| input := "What is the capital of France?";
     newItems := [];
     rawResponses := [];
     finalOutput := None;
     inputGuardrailResults := [];
     outputGuardrailResults := [];
     currentAgent := Some "triage";
     currentTurn := 1;
     maxTurns := 10;
     isComplete := false;
     eventQueue := [];
     inputGuardrailQueue := [];
     runImplTask := None;
     inputGuardrailsTask := None;
     outputGuardrailsTask := None;
     storedError := None;
     agentsErrors := [] |}.

Definition runningTask : Task :=
  {| task_done := false; task_cancelRequested := false; task_Error := None |}.

Definition failedTask (err : error) : Task :=
  {| task_done := true; task_cancelRequested := false; task_Error := Some err |}.

Definition triggered : InputGuardrailResult :=
  {| igr_Guardrail := "math_homework";
     igr_Output := {| OutputInfo := "is homework"; TripwireTriggered := true |} |}.

(** [max_turns=1], second turn. *)
Definition exceededRun : RunResultStreaming :=
  setCurrentTurn 2 (setMaxTurns 1 freshRun).

(** The turn limit is exceeded and a triggered guardrail result is queued. *)
Definition exceededTrippedRun : RunResultStreaming :=
  setInputGuardrailQueue [triggered] exceededRun.

(** The turn limit is exceeded and the run-execution task has failed. *)
Definition exceededFailedRun : RunResultStreaming :=
  setRunImplTask (Some (failedTask (OtherError "model call failed"))) exceededRun.

Definition deltaEvent : StreamEvent :=
  RawResponsesStreamEvent "response.output_text.delta".

Definition completedEvent : StreamEvent :=
  RawResponsesStreamEvent "response.completed".

(** [max_turns=1], second turn, the run-execution task still at work: it
    will put the sentinel on the event queue and return. *)
Definition exceededStreamingRun : RunResultStreaming :=
  setRunImplTask (Some runningTask) exceededRun.

Definition windDown : Schedule :=
  [ [ (RunImpl, call_eventQueue_Put queueCompleteSentinel) ];
    [ (RunImpl, call_return None) ] ].

(** A run whose run-execution task is at work, with one event queued. *)
Definition streamingRun : RunResultStreaming :=
  setEventQueue [deltaEvent] (setRunImplTask (Some runningTask) freshRun).

(** A visitor that counts the events it sees and fails on each. *)
Definition failingVisitor (seen : nat) (event : StreamEvent) : nat * option error :=
  (S seen, Some (OtherError "consumer closed")).

(** A visitor that counts the events it sees and fails on the second. *)
Definition failOnSecond (seen : nat) (event : StreamEvent) : nat * option error :=
  (S seen, if (seen =? 1)%nat then Some (OtherError "consumer closed") else None).

(** The run-execution task puts one more event on the queue. *)
Definition oneMoreEvent : Schedule :=
  [ [ (RunImpl, call_eventQueue_Put completedEvent) ] ].

(** A visitor that counts the events it sees. *)
Definition countingVisitor (seen : nat) (event : StreamEvent) : nat * option error :=
  (S seen, None).

(** The run-execution task has failed with an [AgentsError] that carries
    no data yet. *)
Definition toolFailedRun : RunResultStreaming :=
  setAgentsErrors [ {| RunData := None |} ]
    (setRunImplTask (Some (failedTask (AgentsErrorAt 0 "tool failed"))) freshRun).

(** What the run-execution task of [streamingRun] still does: one more
    event, a guardrail result, then it returns. *)
Definition finishingSchedule : Schedule :=
  [ [ (RunImpl, call_eventQueue_Put queueCompleteSentinel);
      (RunImpl, call_inputGuardrailQueue_Put triggered) ];
    [ (RunImpl, call_return None) ] ].

(** A file search call among the new items of a run. *)
Definition fileSearchItem : RunItem :=
  RunToolCallItem {| tci_Agent := Some "triage";
                     tci_RawItem := ResponseFileSearchToolCall "{}";
                     tci_Type := "tool_call_item" |}.

Definition messageItem : RunItem :=
  RunMessageOutputItem {| moi_Agent := Some "triage";
                          moi_RawItem := "Paris";
                          moi_Type := "message_output_item" |}.

Import Workflow.

(** Go's library on ASCII text. *)
Definition ascii_library : GoLibrary :=
  {| unicode_TrimSpace := fun s => s;
     unicode_ToLower := fun s => s;
     url_ParseRequestURI := fun _ => None |}.

Definition text_sdk : AgentsSDK :=
  {| AgentConfig := string;
     Tool := string;
     Session := string;
     RunHooks := string;
     AgentToolExtractor := string;
     TraceMetadata := string;
     combinedRunHooks := fun hooks => String.concat "," hooks;
     NewSQLiteSessionFactory := fun table decl => inr table;
     composeTraceMetadata := fun req => req_Query req |}.

#[local] Existing Instance ascii_library.
#[local] Existing Instance text_sdk.

Definition jsonInput : WorkflowInput :=
  {| wi_Type := "JSON"; wi_Role := ""; wi_MimeType := "application/json";
     wi_URI := "https://example.com/data.json"; wi_Content := Nil |}.

Definition noMessages (input : WorkflowInput) : error + string :=
  inl (errors_New "no message builder").

Definition agentDecl (name : string) (handoffs : list string) (tools : list string)
    : AgentDeclaration :=
  {| ad_Name := name; ad_DisplayName := "";
     ad_Instructions := {| id_Text := ""; id_Template := None |};
     ad_PromptID := ""; ad_Model := None;
     ad_Handoffs :=
       List.map (fun target =>
                   {| ahd_Agent := target; ahd_InputFilter := ""; ahd_Instructions := "";
                      ahd_InstructionsRef := ""; ahd_InstructionsScope := "" |}) handoffs;
     ad_AgentTools :=
       List.map (fun target =>
                   {| atr_AgentName := target; atr_ToolName := ""; atr_Description := "";
                      atr_OutputExtractor := "" |}) tools;
     ad_Tools := []; ad_MCPServers := []; ad_InputGuardrails := [];
     ad_OutputGuardrails := []; ad_OutputType := None; ad_ToolUseBehavior := None;
     ad_HandoffDescription := ""; ad_Hooks := []; ad_Annotations := ∅ |}.

(** A triage agent that hands off to a researcher and uses a summarizer
    as a tool. *)
Definition triageRequest : WorkflowRequest :=
  {| req_Version := "v1";
     req_Query := "Summarize the news";
     req_Inputs := [];
     req_Session :=
       {| sd_SessionID := "session-1"; sd_ResumeToken := ""; sd_PersistentStore := "";
          sd_StoreConfig := ∅; sd_HistorySize := 0; sd_MaxTurns := 4;
          sd_Credentials := {| cd_UserID := "user-1"; cd_AccountID := "account-1";
                               cd_Capabilities := []; cd_Metadata := ∅ |} |};
     req_Callback := {| cb_Target := ""; cb_Mode := "stdout"; cb_Headers := ∅;
                        cb_Retry := None |};
     req_Callbacks := [];
     req_Workflow :=
       {| wd_Name := "news"; wd_StartingAgent := "triage";
          wd_Agents := [ agentDecl "triage" ["researcher"] ["summarizer"];
                         agentDecl "researcher" [] [];
                         agentDecl "summarizer" [] [] ];
          wd_Metadata := ∅; wd_OnStart := []; wd_OnFinish := []; wd_OnError := [] |};
     req_Metadata := ∅;
     req_Context := ∅ |}.

Definition plainBuilder : Builder :=
  {| b_ToolFactories := ∅; b_SessionFactory := None; b_SessionFactories := ∅;
     b_DefaultSessionStore := "sqlite"; b_AgentToolExtractors := ∅; b_RunHooks := ∅ |}.

Definition namedAgents (b : Builder) (req : WorkflowRequest) (decl : AgentDeclaration)
    : ConfigStep * error + string :=
  inr (ad_Name decl).

(** A run that has ended: no task is left, and the queue holds an event,
    the sentinel, and an event that came behind it. *)
Definition endedRun : RunResultStreaming :=
  setEventQueue [deltaEvent; queueCompleteSentinel; completedEvent] freshRun.

(** A run without tasks whose queue holds one event and no sentinel. *)
Definition abandonedRun : RunResultStreaming := setEventQueue [deltaEvent] freshRun.

(** The session of [triageRequest], asking for postgres. *)
Definition postgresSession : SessionDeclaration :=
  {| sd_SessionID := "session-1"; sd_ResumeToken := ""; sd_PersistentStore := "postgres";
     sd_StoreConfig := ∅; sd_HistorySize := 0; sd_MaxTurns := 4;
     sd_Credentials := {| cd_UserID := "user-1"; cd_AccountID := "account-1";
                          cd_Capabilities := []; cd_Metadata := ∅ |} |}.

Definition toolDecl (type name : string) : ToolDeclaration :=
  {| td_Type := type; td_Name := name; td_Config := ∅; td_ApprovalFlow := None;
     td_Hooks := []; td_FunctionRef := "" |}.

(** The triage agent with one tool whose type is not in lower case. *)
Definition triageItem : pendingConfig :=
  {| pc_decl := agentDecl "triage" [] []; pc_agent := "triage"; pc_agentTools := [];
     pc_toolDecls := [toolDecl "Hosted_MCP" "docs"] |}.

Definition textInput : WorkflowInput :=
  {| wi_Type := "Text"; wi_Role := ""; wi_MimeType := "";
     wi_URI := ""; wi_Content := Str "What changed today?" |}.

Definition imageInput : WorkflowInput :=
  {| wi_Type := "image"; wi_Role := ""; wi_MimeType := "image/png";
     wi_URI := " https://example.com/cat.png"; wi_Content := Nil |}.

(** An encoder and a decoder that always fail. *)
Definition failingMarshal (v : list (string * value)) : error + string :=
  inl (errors_New "json: unsupported value").

Definition failingUnmarshal {A : Type} (data : string) : error + A :=
  inl (errors_New "json: cannot unmarshal").

Definition customBehavior : ToolUseBehaviorDeclaration :=
  {| tub_Mode := "Custom"; tub_ToolNames := []; tub_Handler := "pick_tool" |}.

Definition openaiModel : ModelDeclaration :=
  {| md_Provider := "OpenAI"; md_Model := "gpt-4o"; md_Temperature_bits := None;
     md_TopP_bits := None; md_MaxTokens := None; md_Reasoning := None;
     md_Verbosity := "High"; md_Metadata := ∅; md_ExtraHeaders := ∅;
     md_ExtraQuery := ∅; md_ToolChoice := ""; md_ParallelToolCalls := None;
     md_Truncation := "" |}.

(** No Unicode case folding is needed on ASCII text. *)
Definition noUnicodeFold (s t : string) : bool := false.

Definition noRegistries : Registries (LocalShellExecutor := string) (AgentHooks := string) :=
  {| FunctionToolFactories := ∅; ComputerToolFactories := ∅; LocalShellExecutors := ∅;
     AgentHooksRegistry := ∅ |}.

Definition shellTool (executor : option string) : string :=
  match executor with
  | Some name => name
  | None => ""
  end.

Definition triageEnv : ToolFactoryEnv :=
  {| env_AgentName := "triage"; env_WorkflowName := "news"; env_RequestMetadata := ∅ |}.

(** A hook is a name and whether it fails; the world is the list of the
    hooks called so far. *)
Definition loggingHook (hook : string * bool) (call : string) (log : list string)
    : option error * list string :=
  (if snd hook then Some (Errorf "hook %q failed" [ArgQ (fst hook)]) else None,
   log ++ [fst hook]).

(** A store of one slot: statuses are strings, times are numbers, an
    approval request is its ID, and the rest of a state is nothing. *)
Definition SlotState : Type :=
  Service.WorkflowExecutionState (ExecutionStatus := string) (Time := nat)
    (ApprovalRequestState := string) (Others := unit).

Definition emptyState : SlotState :=
  {| Service.wes_Status := "idle"; Service.wes_PendingApprovals := [];
     Service.wes_ResumeToken := ""; Service.wes_WorkflowName := "";
     Service.wes_UpdatedAt := 0%nat; Service.wes_Others := tt |}.

Definition slot_Load (sessionID : string) (store : option SlotState)
    : (SlotState * bool * option error) * option SlotState :=
  match store with
  | Some state => ((state, true, None), store)
  | None => ((emptyState, false, None), store)
  end.

Definition slot_Save (state : SlotState) (store : option SlotState)
    : option error * option SlotState :=
  (None, Some state).

(** A run of the news workflow that waits for two approvals. *)
Definition waitingState : SlotState :=
  {| Service.wes_Status := "waiting_approval";
     Service.wes_PendingApprovals := ["approval-1"; "approval-2"];
     Service.wes_ResumeToken := "session-1:run-1"; Service.wes_WorkflowName := "news";
     Service.wes_UpdatedAt := 7%nat; Service.wes_Others := tt |}.

Definition waitingService : Service.RunnerService (Store := option SlotState) :=
  {| Service.StateStore := Some (Some waitingState) |}.

End Examples.


(** * Properties *)

(** ** Run items and the input list *)

Module ItemsProperties.
Import Items.
Section WithResponses.
Context `{R : Responses}.

(** The items whose conversion reaches the [default] case of the type
    switch are the tool calls of the five kinds without a case. *)
Lemma ToInputItem_panics_iff (item : RunItem) :
  (exists msg, ToInputItem item = Panic msg) <-> unhandledItem item = true.
Proof.
  split.
  - intros [msg H]. destruct item as [i|i|i|i|i|i|i|i|i]; simpl in *; try discriminate.
    + destruct (tci_RawItem i); simpl in *; try discriminate; reflexivity.
    + unfold ToolCallOutputItem_ToInputItem in H.
      destruct (tcoi_RawItem i); discriminate.
  - intros H. destruct item as [i|i|i|i|i|i|i|i|i]; simpl in *; try discriminate.
    destruct (tci_RawItem i); simpl in *; try discriminate; eexists; reflexivity.
Qed.

Lemma ToInputItem_returns_iff (item : RunItem) :
  returns (ToInputItem item) <-> unhandledItem item = false.
Proof.
  unfold returns. split.
  - intros [x Hx]. destruct (unhandledItem item) eqn:E; [|reflexivity].
    apply ToInputItem_panics_iff in E. destruct E as [msg E]. congruence.
  - intros H. destruct (ToInputItem item) as [x|msg] eqn:E; [eauto|].
    assert (unhandledItem item = true) by (apply ToInputItem_panics_iff; eauto).
    congruence.
Qed.

(** The loop of [toInputList] writes the conversions into [result] from
    index [i] on. *)
Lemma toInputList_loop_spec (newRunItems : list RunItem) :
  forall (i : nat) (result : list TResponseInputItem),
    (i + List.length newRunItems <= List.length result)%nat ->
    toInputList_loop i newRunItems result =
    (xs ← go_mapM ToInputItem newRunItems;
     Ok (take i result ++ xs ++ drop (i + List.length newRunItems) result)).
Proof.
  induction newRunItems as [|item rest IH]; intros i result Hlen; simpl in *.
  - rewrite Nat.add_0_r, take_drop. reflexivity.
  - destruct (ToInputItem item) as [x|msg]; simpl; [|reflexivity].
    rewrite IH by (rewrite length_insert; lia).
    destruct (go_mapM ToInputItem rest) as [xs|msg]; simpl; [|reflexivity].
    f_equal.
    rewrite (take_S_r _ _ x) by (apply list_lookup_insert_eq; lia).
    rewrite take_insert_ge by lia.
    rewrite drop_insert_lt by lia.
    rewrite <- app_assoc. simpl.
    replace (i + S (List.length rest))%nat with (S i + List.length rest)%nat by lia.
    reflexivity.
Qed.

Lemma toInputList_refines (input : Input) (newRunItems : list RunItem) :
  toInputList input newRunItems = to_input_list_spec input newRunItems.
Proof.
  unfold toInputList, to_input_list_spec.
  rewrite toInputList_loop_spec by (rewrite length_replicate; lia).
  destruct (go_mapM ToInputItem newRunItems) as [xs|msg]; simpl; [|reflexivity].
  rewrite drop_ge by (rewrite length_replicate; lia).
  rewrite app_nil_r. reflexivity.
Qed.

(** C2 (defect).  [ToInputItem] is not total on the run items.  On a tool
    call item whose raw item is a file search call the type switch of
    [TResponseInputItemFromToolCallItemType] has no case and the function
    panics; the same holds for the web search, code interpreter, image
    generation and MCP calls.  On every other item, the three kinds of tool
    call output included, it returns. *)
Theorem C2_ToInputItem_panics_on_file_search
    (agent : option Agent) (raw : responses_ResponseFileSearchToolCall) :
  ToInputItem
    (RunToolCallItem {| tci_Agent := agent;
                        tci_RawItem := ResponseFileSearchToolCall raw;
                        tci_Type := "tool_call_item" |})
  = Panic "unexpected ToolCallItemType type agents.ResponseFileSearchToolCall"
  /\ (forall item, returns (ToInputItem item) <-> unhandledItem item = false).
Proof.
  split; [reflexivity|]. intros item. apply ToInputItem_returns_iff.
Qed.

(** C4.  [toInputList] is the normalized original input followed by the
    [ToInputItem] of each new item, in order (a conversion that panics
    makes both sides panic).  The methods of the terminal and of the
    streaming result are this function of their input and new items and
    read nothing else: on two results that agree on both they give the
    same list. *)
Theorem C4_toInputList_round_trip (input : Input) (newRunItems : list RunItem) :
  toInputList input newRunItems
  = (normalized ← go_mapM ToInputItem newRunItems;
     Ok (InputToNewInputList input ++ normalized))
  /\ (forall res res' : Streaming.RunResult,
        Streaming.rr_Input res = input -> Streaming.rr_NewItems res = newRunItems ->
        Streaming.rr_Input res' = input -> Streaming.rr_NewItems res' = newRunItems ->
        Streaming.RunResult_ToInputList res = toInputList input newRunItems
        /\ Streaming.RunResult_ToInputList res' = Streaming.RunResult_ToInputList res)
  /\ (forall r r' : Streaming.RunResultStreaming,
        Streaming.input r = input -> Streaming.newItems r = newRunItems ->
        Streaming.input r' = input -> Streaming.newItems r' = newRunItems ->
        Streaming.ToInputList r = toInputList input newRunItems
        /\ Streaming.ToInputList r' = Streaming.ToInputList r).
Proof.
  split; [apply toInputList_refines|]. split.
  - intros res res' Hi Hn Hi' Hn'. unfold Streaming.RunResult_ToInputList.
    rewrite Hi, Hn, Hi', Hn'. split; reflexivity.
  - intros r r' Hi Hn Hi' Hn'. unfold Streaming.ToInputList.
    rewrite Hi, Hn, Hi', Hn'. split; reflexivity.
Qed.

(** *** The input list as a whole *)

Lemma go_mapM_returns (items : list RunItem) :
  returns (go_mapM ToInputItem items)
  <-> Forall (fun item => unhandledItem item = false) items.
Proof.
  induction items as [|item rest IH]; simpl.
  - split; [constructor|]. intros _. eexists; reflexivity.
  - split.
    + intros [l Hl]. destruct (ToInputItem item) as [x|msg] eqn:E; [|discriminate].
      simpl in Hl. destruct (go_mapM ToInputItem rest) as [xs|msg] eqn:E2; [|discriminate].
      constructor.
      * apply ToInputItem_returns_iff. eexists; eauto.
      * apply IH. eexists; reflexivity.
    + intros H. inversion H as [|? ? H1 H2]; subst.
      apply ToInputItem_returns_iff in H1. destruct H1 as [x ->].
      apply IH in H2. destruct H2 as [xs ->]. eexists; reflexivity.
Qed.

Lemma go_mapM_length (items : list RunItem) :
  forall xs, go_mapM ToInputItem items = Ok xs -> List.length xs = List.length items.
Proof.
  induction items as [|item rest IH]; simpl; intros xs H.
  - injection H as <-. reflexivity.
  - destruct (ToInputItem item) as [x|msg]; [|discriminate]. simpl in H.
    destruct (go_mapM ToInputItem rest) as [ys|msg]; [|discriminate].
    injection H as <-. simpl. rewrite (IH ys eq_refl). reflexivity.
Qed.

(** X1.  [toInputList] gives a list or nothing.  It returns exactly when
    no new item is a tool call of a kind without conversion; one such item,
    wherever it stands, makes the whole call panic.  The list it returns
    starts with the items of the original input and has one more element
    for each new item. *)
Theorem toInputList_all_or_nothing (input : Input) (newRunItems : list RunItem) :
  (returns (toInputList input newRunItems)
   <-> Forall (fun item => unhandledItem item = false) newRunItems)
  /\ ((exists msg, toInputList input newRunItems = Panic msg)
      <-> Exists (fun item => unhandledItem item = true) newRunItems)
  /\ forall l, toInputList input newRunItems = Ok l ->
       List.length l
       = (List.length (InputToNewInputList input) + List.length newRunItems)%nat
       /\ take (List.length (InputToNewInputList input)) l = InputToNewInputList input.
Proof.
  rewrite toInputList_refines. unfold to_input_list_spec.
  pose proof (go_mapM_returns newRunItems) as Hret.
  pose proof (go_mapM_length newRunItems) as Hlen.
  assert (returns (xs ← go_mapM ToInputItem newRunItems;
                   Ok (InputToNewInputList input ++ xs))
          <-> Forall (fun item => unhandledItem item = false) newRunItems) as H1.
  { rewrite <- Hret. unfold returns.
    destruct (go_mapM ToInputItem newRunItems) as [xs|msg]; simpl.
    - split; intros _; eexists; reflexivity.
    - split; intros [l Hl]; discriminate. }
  split; [exact H1|]. split.
  - rewrite List.Exists_exists. split.
    + intros [msg Hp].
      destruct (List.Forall_Exists_dec (fun item => unhandledItem item = false)
                  (fun item => bool_dec (unhandledItem item) false) newRunItems)
        as [Hall|Hex].
      * apply H1 in Hall. destruct Hall as [l Hl]. congruence.
      * apply List.Exists_exists in Hex. destruct Hex as (item & Hin & Hun).
        exists item. split; [exact Hin|]. destruct (unhandledItem item); congruence.
    + intros (item & Hin & Hun).
      destruct (xs ← go_mapM ToInputItem newRunItems;
                Ok (InputToNewInputList input ++ xs)) as [l|msg] eqn:E; [|eauto].
      assert (Forall (fun item => unhandledItem item = false) newRunItems) as Hall
        by (apply H1; eexists; reflexivity).
      rewrite List.Forall_forall in Hall. rewrite (Hall item Hin) in Hun. discriminate.
  - intros l Hl.
    destruct (go_mapM ToInputItem newRunItems) as [xs|msg]; [|discriminate].
    simpl in Hl. injection Hl as <-. rewrite length_app, (Hlen xs eq_refl).
    split; [reflexivity|]. rewrite take_app_length. reflexivity.
Qed.

End WithResponses.
End ItemsProperties.


(** ** The streaming run result *)

Module StreamingProperties.
Import Items Streaming.
Section WithResponses.
Context `{R : Responses}.

(** *** What a poll leaves alone *)


Lemma sameRun_refl r : sameRun r r.
Proof. repeat split. Qed.

Lemma sameRun_trans r1 r2 r3 : sameRun r1 r2 -> sameRun r2 r3 -> sameRun r1 r3.
Proof. unfold sameRun. intros H1 H2. intuition congruence. Qed.

Lemma sameRun_createErrorDetails r r' :
  sameRun r r' -> createErrorDetails r' = createErrorDetails r.
Proof.
  unfold sameRun, createErrorDetails, CurrentAgent. intros H.
  f_equal; intuition congruence.
Qed.

Lemma sameRun_getTask r r' id : sameRun r r' -> getTask id r' = getTask id r.
Proof. unfold sameRun. intros H. destruct id; simpl; intuition congruence. Qed.


Lemma keepsRunData_refl r : keepsRunData r r.
Proof. split; [lia|auto]. Qed.

Lemma keepsRunData_trans r1 r2 r3 :
  keepsRunData r1 r2 -> keepsRunData r2 r3 -> keepsRunData r1 r3.
Proof. intros [L1 H1] [L2 H2]. split; [lia|auto]. Qed.

Lemma getRunData_Some_lt p d r :
  getRunData p r = Some d -> (p < List.length (agentsErrors r))%nat.
Proof.
  unfold getRunData. destruct (agentsErrors r !! p) eqn:E; [|discriminate].
  intros _. eapply lookup_lt_Some; eauto.
Qed.


Lemma storeNew_spec mk r :
  let p := List.length (agentsErrors r) in
  storedError (storeNew mk r) = Some (mk p)
  /\ getRunData p (storeNew mk r) = Some (createErrorDetails r)
  /\ List.length (agentsErrors (storeNew mk r)) = S p
  /\ inputGuardrailQueue (storeNew mk r) = inputGuardrailQueue r
  /\ sameRun r (storeNew mk r) /\ keepsRunData r (storeNew mk r).
Proof.
  unfold storeNew, newAgentsError, getRunData, keepsRunData, getRunData; simpl.
  split; [reflexivity|]. split.
  { rewrite list_lookup_insert_eq by (rewrite length_app; simpl; lia). reflexivity. }
  split. { rewrite length_insert, length_app. simpl. lia. }
  split; [reflexivity|]. split; [repeat split|].
  split. { rewrite length_insert, length_app. lia. }
  intros p d H.
  assert (p < List.length (agentsErrors r))%nat as Hp.
  { destruct (agentsErrors r !! p) eqn:E; [|discriminate]. eapply lookup_lt_Some; eauto. }
  rewrite list_lookup_insert_ne by lia.
  rewrite lookup_app_l by lia. exact H.
Qed.

Lemma checkErrors_maxTurns_unfold r :
  checkErrors_maxTurns r =
  if (currentTurn r >? maxTurns r)%Z then
    storeNew (fun p => MaxTurnsExceededError p
                         ("Max turns (" ++ pretty (maxTurns r) ++ ") exceeded")) r
  else r.
Proof. reflexivity. Qed.

Lemma checkErrors_maxTurns_frame r :
  sameRun r (checkErrors_maxTurns r) /\ keepsRunData r (checkErrors_maxTurns r)
  /\ inputGuardrailQueue (checkErrors_maxTurns r) = inputGuardrailQueue r.
Proof.
  rewrite checkErrors_maxTurns_unfold.
  destruct (currentTurn r >? maxTurns r)%Z.
  - pose proof (storeNew_spec
      (fun p => MaxTurnsExceededError p
                  ("Max turns (" ++ pretty (maxTurns r) ++ ") exceeded")) r) as H.
    simpl in H. tauto.
  - split; [apply sameRun_refl|]. split; [apply keepsRunData_refl|reflexivity].
Qed.

(** *** The guardrail queue *)

Lemma guardrails_loop_step g rest r :
  checkErrors_guardrails_loop (g :: rest) r =
  checkErrors_guardrails_loop rest
    (if TripwireTriggered (igr_Output g)
     then storeNew (fun p => InputGuardrailTripwireTriggeredError p g)
            (setInputGuardrailQueue rest r)
     else setInputGuardrailQueue rest r).
Proof. simpl. destruct (TripwireTriggered (igr_Output g)); reflexivity. Qed.

Lemma setInputGuardrailQueue_frame q r :
  sameRun r (setInputGuardrailQueue q r) /\ keepsRunData r (setInputGuardrailQueue q r)
  /\ storedError (setInputGuardrailQueue q r) = storedError r.
Proof. split; [repeat split|]. split; [|reflexivity].
  split; [simpl; lia|]. intros p d H. exact H.
Qed.

Lemma lastTriggered_cons g rest :
  lastTriggered (g :: rest) =
  match lastTriggered rest with
  | Some g' => Some g'
  | None => if TripwireTriggered (igr_Output g) then Some g else None
  end.
Proof.
  unfold lastTriggered. simpl.
  destruct (TripwireTriggered (igr_Output g)).
  - destruct (List.filter _ rest) as [|x l] eqn:E; [reflexivity|].
    change (last (g :: x :: l)) with (last (x :: l)).
    destruct (last (x :: l)) eqn:E2; [reflexivity|].
    apply last_None in E2. discriminate.
  - destruct (last _); reflexivity.
Qed.

Lemma guardrails_loop_spec queue :
  forall r,
    let r' := checkErrors_guardrails_loop queue r in
    sameRun r r' /\ keepsRunData r r'
    /\ inputGuardrailQueue r' = match queue with [] => inputGuardrailQueue r | _ => [] end
    /\ match lastTriggered queue with
       | Some g =>
           exists p, storedError r' = Some (InputGuardrailTripwireTriggeredError p g)
                     /\ getRunData p r' = Some (createErrorDetails r)
                     /\ (List.length (agentsErrors r) <= p)%nat
       | None => storedError r' = storedError r /\ agentsErrors r' = agentsErrors r
       end.
Proof.
  induction queue as [|g rest IH]; intros r.
  - simpl. split; [apply sameRun_refl|]. split; [apply keepsRunData_refl|]. auto.
  - cbv zeta. rewrite guardrails_loop_step, lastTriggered_cons.
    set (r0 := setInputGuardrailQueue rest r).
    destruct (setInputGuardrailQueue_frame rest r) as (F0 & K0 & S0). fold r0 in F0, K0, S0.
    destruct (TripwireTriggered (igr_Output g)) eqn:Etrip.
    + pose proof (storeNew_spec (fun p => InputGuardrailTripwireTriggeredError p g) r0)
        as (S1 & D1 & L1 & Q1 & F1 & K1).
      set (r1 := storeNew (fun p => InputGuardrailTripwireTriggeredError p g) r0) in *.
      specialize (IH r1). cbv zeta in IH. destruct IH as (F2 & K2 & Q2 & E2).
      split; [eauto using sameRun_trans|]. split; [eauto using keepsRunData_trans|].
      split.
      { rewrite Q2. destruct rest; [|reflexivity]. rewrite Q1. reflexivity. }
      destruct (lastTriggered rest) as [g'|].
      * destruct E2 as (p & Hs & Hd & Hp). exists p. split; [exact Hs|]. split.
        { rewrite Hd, (sameRun_createErrorDetails r0 r1 F1),
            (sameRun_createErrorDetails r r0 F0). reflexivity. }
        { rewrite L1 in Hp. simpl in Hp. unfold r0 in Hp. simpl in Hp. lia. }
      * destruct E2 as (Hs & Ha). exists (List.length (agentsErrors r0)).
        split; [rewrite Hs; exact S1|]. split.
        { destruct K2 as [_ K2].
          rewrite (K2 _ _ D1), (sameRun_createErrorDetails r r0 F0). reflexivity. }
        { unfold r0. simpl. lia. }
    + specialize (IH r0). cbv zeta in IH. destruct IH as (F2 & K2 & Q2 & E2).
      split; [eauto using sameRun_trans|]. split; [eauto using keepsRunData_trans|].
      split.
      { rewrite Q2. destruct rest; reflexivity. }
      destruct (lastTriggered rest) as [g'|].
      * destruct E2 as (p & Hs & Hd & Hp). exists p. split; [exact Hs|]. split.
        { rewrite Hd, (sameRun_createErrorDetails r r0 F0). reflexivity. }
        { unfold r0 in Hp. simpl in Hp. exact Hp. }
      * destruct E2 as (Hs & Ha). split; [rewrite Hs; exact S0|].
        rewrite Ha. reflexivity.
Qed.

Lemma checkErrors_guardrails_spec r :
  let r' := checkErrors_guardrails r in
  sameRun r r' /\ keepsRunData r r' /\ inputGuardrailQueue r' = []
  /\ match lastTriggered (inputGuardrailQueue r) with
     | Some g =>
         exists p, storedError r' = Some (InputGuardrailTripwireTriggeredError p g)
                   /\ getRunData p r' = Some (createErrorDetails r)
                   /\ (List.length (agentsErrors r) <= p)%nat
     | None => storedError r' = storedError r /\ agentsErrors r' = agentsErrors r
     end.
Proof.
  cbv zeta. unfold checkErrors_guardrails.
  pose proof (guardrails_loop_spec (inputGuardrailQueue r) r) as H. cbv zeta in H.
  destruct H as (F & K & Q & E). repeat split; try assumption; try apply F; try apply K.
  rewrite Q. destruct (inputGuardrailQueue r); reflexivity.
Qed.

(** The first two blocks only add error objects: the cells a state has
    keep their content, nil or not. *)
Lemma storeNew_cells mk r p :
  (p < List.length (agentsErrors r))%nat ->
  getRunData p (storeNew mk r) = getRunData p r.
Proof.
  intros Hp. unfold storeNew, newAgentsError, getRunData. simpl.
  rewrite list_lookup_insert_ne by lia.
  rewrite lookup_app_l by lia. reflexivity.
Qed.

Lemma checkErrors_maxTurns_cells r p :
  (p < List.length (agentsErrors r))%nat ->
  getRunData p (checkErrors_maxTurns r) = getRunData p r.
Proof.
  intros Hp. rewrite checkErrors_maxTurns_unfold.
  destruct (currentTurn r >? maxTurns r)%Z; [|reflexivity].
  apply storeNew_cells. exact Hp.
Qed.

Lemma guardrails_loop_cells queue :
  forall r p, (p < List.length (agentsErrors r))%nat ->
    getRunData p (checkErrors_guardrails_loop queue r) = getRunData p r.
Proof.
  induction queue as [|g rest IH]; intros r p Hp; [reflexivity|].
  rewrite guardrails_loop_step.
  destruct (TripwireTriggered (igr_Output g)).
  - rewrite IH.
    + rewrite storeNew_cells by exact Hp. reflexivity.
    + pose proof (storeNew_spec (fun p => InputGuardrailTripwireTriggeredError p g)
                    (setInputGuardrailQueue rest r)) as (_ & _ & L & _).
      rewrite L. simpl. lia.
  - rewrite IH by exact Hp. reflexivity.
Qed.

(** *** The task blocks *)

Lemma annotateError_frame err r :
  sameRun r (annotateError err r)
  /\ storedError (annotateError err r) = storedError r
  /\ inputGuardrailQueue (annotateError err r) = inputGuardrailQueue r
  /\ List.length (agentsErrors (annotateError err r)) = List.length (agentsErrors r).
Proof.
  unfold annotateError.
  destruct (errors_As err) as [p|]; [|repeat split].
  destruct (agentsErrors r !! p) as [[[d|]]|]; try (repeat split).
  simpl. apply length_insert.
Qed.

Lemma annotateError_keeps err r : keepsRunData r (annotateError err r).
Proof.
  split. { destruct (annotateError_frame err r) as (_ & _ & _ & L). lia. }
  intros q d Hq. unfold annotateError.
  destruct (errors_As err) as [p|]; [|exact Hq].
  destruct (agentsErrors r !! p) as [[[d'|]]|] eqn:E; try exact Hq.
  unfold getRunData in *. simpl.
  destruct (decide (p = q)) as [->|Hne].
  - rewrite E in Hq. discriminate.
  - rewrite list_lookup_insert_ne by exact Hne. exact Hq.
Qed.

Lemma annotateError_nil err r p :
  errors_As err = Some p -> (p < List.length (agentsErrors r))%nat ->
  getRunData p r = None ->
  getRunData p (annotateError err r) = Some (createErrorDetails r).
Proof.
  intros Has Hp Hnil. unfold annotateError. rewrite Has.
  unfold getRunData in *.
  destruct (agentsErrors r !! p) as [[[d|]]|] eqn:E.
  - discriminate.
  - simpl. rewrite list_lookup_insert_eq by exact Hp. reflexivity.
  - apply lookup_ge_None in E. lia.
Qed.

Lemma annotateError_origin err r q d :
  getRunData q (annotateError err r) = Some d ->
  getRunData q r = Some d \/ d = createErrorDetails r.
Proof.
  unfold annotateError.
  destruct (errors_As err) as [p|]; [|auto].
  destruct (agentsErrors r !! p) as [[[d'|]]|] eqn:E; auto.
  unfold getRunData. simpl.
  destruct (decide (p = q)) as [->|Hne].
  - rewrite list_lookup_insert_eq by (eapply lookup_lt_Some; eauto).
    intros [= <-]. auto.
  - rewrite list_lookup_insert_ne by exact Hne. auto.
Qed.

(** The block of a task that is done with an error. *)
Lemma checkErrors_task_failed id r t err :
  getTask id r = Some t -> Task_IsDone t = true -> Task_result_Error t = Some err ->
  checkErrors_task id r =
  setStoredError (Some (Errorf_w (taskErrorPrefix id) err)) (annotateError err r).
Proof. intros Ht Hd He. unfold checkErrors_task. rewrite Ht, Hd, He. reflexivity. Qed.

(** The block of any other task does nothing. *)
Lemma checkErrors_task_cases id r :
  checkErrors_task id r = r
  \/ exists t err, getTask id r = Some t /\ Task_IsDone t = true
                   /\ Task_result_Error t = Some err.
Proof.
  unfold checkErrors_task.
  destruct (getTask id r) as [t|]; [|auto].
  destruct (Task_IsDone t) eqn:Hd; [|auto].
  destruct (Task_result_Error t) as [err|] eqn:He; [|auto].
  right. eauto.
Qed.

Lemma checkErrors_task_frame id r :
  sameRun r (checkErrors_task id r) /\ keepsRunData r (checkErrors_task id r)
  /\ inputGuardrailQueue (checkErrors_task id r) = inputGuardrailQueue r
  /\ List.length (agentsErrors (checkErrors_task id r)) = List.length (agentsErrors r).
Proof.
  destruct (checkErrors_task_cases id r) as [->|(t & err & Ht & Hd & He)].
  - split; [apply sameRun_refl|]. split; [apply keepsRunData_refl|]. auto.
  - rewrite (checkErrors_task_failed id r t err Ht Hd He).
    destruct (annotateError_frame err r) as (F & S & Q & L).
    pose proof (annotateError_keeps err r) as K.
    split; [exact F|]. split; [exact K|]. split; [exact Q|exact L].
Qed.

Lemma checkErrors_task_origin id r q d :
  getRunData q (checkErrors_task id r) = Some d ->
  getRunData q r = Some d \/ d = createErrorDetails r.
Proof.
  destruct (checkErrors_task_cases id r) as [->|(t & err & Ht & Hd & He)]; [auto|].
  rewrite (checkErrors_task_failed id r t err Ht Hd He).
  apply annotateError_origin.
Qed.

Lemma checkErrors_task_noError id r :
  noTaskError r -> checkErrors_task id r = r.
Proof.
  intros H. destruct (checkErrors_task_cases id r) as [->|(t & err & Ht & Hd & He)];
    [reflexivity|].
  rewrite (H id t Ht Hd) in He. discriminate.
Qed.

Lemma noTaskError_sameRun r r' : sameRun r r' -> noTaskError r -> noTaskError r'.
Proof.
  intros F H id t Ht. rewrite (sameRun_getTask r r' id F) in Ht. apply (H id t Ht).
Qed.

(** After the block of a task that failed with an [AgentsError], the object
    carries data: what it had, or the snapshot. *)
Lemma checkErrors_task_annotates id r t err p :
  getTask id r = Some t -> Task_IsDone t = true -> Task_result_Error t = Some err ->
  errors_As err = Some p -> (p < List.length (agentsErrors r))%nat ->
  getRunData p (checkErrors_task id r) =
  Some (match getRunData p r with Some d => d | None => createErrorDetails r end).
Proof.
  intros Ht Hd He Has Hp.
  rewrite (checkErrors_task_failed id r t err Ht Hd He).
  change (getRunData p (setStoredError ?e ?x)) with (getRunData p x).
  destruct (getRunData p r) as [d|] eqn:E.
  - apply (annotateError_keeps err r). exact E.
  - apply annotateError_nil; assumption.
Qed.

(** *** The whole poll *)

Lemma poll_unfold r :
  poll r =
  checkErrors_task OutputGuardrails
    (checkErrors_task InputGuardrails
       (checkErrors_task RunImpl (checkErrors_guardrails (checkErrors_maxTurns r)))).
Proof. reflexivity. Qed.

Lemma checkErrors_eq r : checkErrors r = (None, poll r).
Proof. reflexivity. Qed.

Lemma poll_frame r :
  sameRun r (poll r) /\ keepsRunData r (poll r) /\ inputGuardrailQueue (poll r) = [].
Proof.
  rewrite poll_unfold.
  destruct (checkErrors_maxTurns_frame r) as (F1 & K1 & Q1).
  set (r1 := checkErrors_maxTurns r) in *.
  destruct (checkErrors_guardrails_spec r1) as (F2 & K2 & Q2 & _).
  set (r2 := checkErrors_guardrails r1) in *.
  destruct (checkErrors_task_frame RunImpl r2) as (F3 & K3 & Q3 & _).
  set (r3 := checkErrors_task RunImpl r2) in *.
  destruct (checkErrors_task_frame InputGuardrails r3) as (F4 & K4 & Q4 & _).
  set (r4 := checkErrors_task InputGuardrails r3) in *.
  destruct (checkErrors_task_frame OutputGuardrails r4) as (F5 & K5 & Q5 & _).
  split; [eauto using sameRun_trans|]. split; [eauto using keepsRunData_trans|].
  congruence.
Qed.

(** A poll in which no task has failed is the first two blocks. *)
Lemma poll_noTaskError r :
  noTaskError r -> poll r = checkErrors_guardrails (checkErrors_maxTurns r).
Proof.
  intros H. rewrite poll_unfold.
  destruct (checkErrors_maxTurns_frame r) as (F1 & _).
  destruct (checkErrors_guardrails_spec (checkErrors_maxTurns r)) as (F2 & _).
  assert (noTaskError (checkErrors_guardrails (checkErrors_maxTurns r))) as H2.
  { eapply noTaskError_sameRun; [|exact H]. eauto using sameRun_trans. }
  rewrite (checkErrors_task_noError RunImpl _ H2).
  rewrite (checkErrors_task_noError InputGuardrails _ H2).
  rewrite (checkErrors_task_noError OutputGuardrails _ H2). reflexivity.
Qed.

Lemma poll_cells_before_tasks r p :
  (p < List.length (agentsErrors r))%nat ->
  getRunData p (checkErrors_guardrails (checkErrors_maxTurns r)) = getRunData p r.
Proof.
  intros Hp. unfold checkErrors_guardrails.
  rewrite guardrails_loop_cells.
  - apply checkErrors_maxTurns_cells. exact Hp.
  - destruct (checkErrors_maxTurns_frame r) as (_ & [L _] & _). lia.
Qed.

(** Whatever a poll finds in the object of a failed task is the data it had
    or the snapshot of the poll. *)
Lemma poll_annotates r id t err p :
  getTask id r = Some t -> Task_IsDone t = true -> Task_result_Error t = Some err ->
  errors_As err = Some p -> (p < List.length (agentsErrors r))%nat ->
  getRunData p (poll r) =
  Some (match getRunData p r with Some d => d | None => createErrorDetails r end).
Proof.
  intros Ht Hd He Has Hp. rewrite poll_unfold.
  destruct (checkErrors_maxTurns_frame r) as (F1 & [L1 _] & _).
  destruct (checkErrors_guardrails_spec (checkErrors_maxTurns r)) as (F2 & [L2 _] & _).
  pose proof (poll_cells_before_tasks r p Hp) as C2.
  set (r2 := checkErrors_guardrails (checkErrors_maxTurns r)) in *.
  assert (sameRun r r2) as F by eauto using sameRun_trans.
  assert (p < List.length (agentsErrors r2))%nat as Hp2 by lia.
  clear F1 F2 L1 L2.
  destruct (checkErrors_task_frame RunImpl r2) as (F3 & K3 & _ & L3).
  pose proof (checkErrors_task_origin RunImpl r2 p) as O3.
  set (r3 := checkErrors_task RunImpl r2) in *.
  destruct (checkErrors_task_frame InputGuardrails r3) as (F4 & K4 & _ & L4).
  pose proof (checkErrors_task_origin InputGuardrails r3 p) as O4.
  set (r4 := checkErrors_task InputGuardrails r3) in *.
  destruct (checkErrors_task_frame OutputGuardrails r4) as (F5 & K5 & _ & L5).
  set (r5 := checkErrors_task OutputGuardrails r4) in *.
  assert (sameRun r r3) as Fr3 by eauto using sameRun_trans.
  assert (sameRun r r4) as Fr4 by eauto using sameRun_trans.
  pose proof (sameRun_createErrorDetails r r2 F) as D2.
  pose proof (sameRun_createErrorDetails r r3 Fr3) as D3.
  pose proof (sameRun_createErrorDetails r r4 Fr4) as D4.
  destruct (getRunData p r) as [d|] eqn:E.
  - apply K5, K4, K3. exact C2.
  - assert (forall d, getRunData p r3 = Some d -> d = createErrorDetails r) as I3.
    { intros d Hd3. destruct (O3 d Hd3) as [H|H]; congruence. }
    assert (forall d, getRunData p r4 = Some d -> d = createErrorDetails r) as I4.
    { intros d Hd4. destruct (O4 d Hd4) as [H|H]; [auto|congruence]. }
    destruct id.
    + apply K5, K4. unfold r3.
      rewrite (checkErrors_task_annotates RunImpl r2 t err p); auto.
      * rewrite C2. congruence.
      * rewrite (sameRun_getTask r r2 RunImpl F). exact Ht.
    + apply K5. unfold r4.
      rewrite (checkErrors_task_annotates InputGuardrails r3 t err p); auto.
      * destruct (getRunData p r3) as [d|] eqn:E3; [rewrite (I3 d eq_refl)|]; congruence.
      * rewrite (sameRun_getTask r r3 InputGuardrails Fr3). exact Ht.
      * lia.
    + unfold r5.
      rewrite (checkErrors_task_annotates OutputGuardrails r4 t err p); auto.
      * destruct (getRunData p r4) as [d|] eqn:E4; [rewrite (I4 d eq_refl)|]; congruence.
      * rewrite (sameRun_getTask r r4 OutputGuardrails Fr4). exact Ht.
      * lia.
Qed.

(** C7.  For a task that is done with an error whose chain holds an
    [AgentsError]: the block of [checkErrors] for that task stores the
    wrapped error; it sets a nil [RunData] to the current snapshot and
    leaves a non-nil one, and every other error object, as it is; run a
    second time the block changes nothing.  Over a whole poll the object
    ends with the data it had or, if it had none, the snapshot, and a second
    poll leaves that in place. *)
Theorem C7_task_error_annotated_once
    (id : TaskId) (r : RunResultStreaming) (t : Task) (err : error) (p : loc) :
  getTask id r = Some t -> Task_IsDone t = true -> Task_result_Error t = Some err ->
  errors_As err = Some p -> (p < List.length (agentsErrors r))%nat ->
  storedError (checkErrors_task id r) = Some (Errorf_w (taskErrorPrefix id) err)
  /\ (getRunData p r = None ->
      getRunData p (checkErrors_task id r) = Some (createErrorDetails r))
  /\ (forall d, getRunData p r = Some d ->
      agentsErrors (checkErrors_task id r) = agentsErrors r)
  /\ checkErrors_task id (checkErrors_task id r) = checkErrors_task id r
  /\ getRunData p (poll r) =
     Some (match getRunData p r with Some d => d | None => createErrorDetails r end)
  /\ getRunData p (poll (poll r)) = getRunData p (poll r).
Proof.
  intros Ht Hd He Has Hp.
  pose proof (checkErrors_task_annotates id r t err p Ht Hd He Has Hp) as Hann.
  pose proof (checkErrors_task_failed id r t err Ht Hd He) as Hblock.
  split. { rewrite Hblock. reflexivity. }
  split. { intros Hnil. rewrite Hann, Hnil. reflexivity. }
  split.
  { intros d Hsome. rewrite Hblock. simpl. unfold annotateError. rewrite Has.
    unfold getRunData in Hsome.
    destruct (agentsErrors r !! p) as [[[d'|]]|]; try reflexivity. discriminate. }
  split.
  { destruct (checkErrors_task_frame id r) as (F & _ & _ & L).
    set (r' := checkErrors_task id r) in *.
    assert (getTask id r' = Some t) as Ht' by (rewrite (sameRun_getTask r r' id F); exact Ht).
    rewrite (checkErrors_task_failed id r' t err Ht' Hd He).
    assert (annotateError err r' = r') as Hsame.
    { unfold annotateError. rewrite Has. unfold getRunData in Hann.
      destruct (agentsErrors r' !! p) as [[[d'|]]|]; try reflexivity. discriminate. }
    rewrite Hsame, Hblock. reflexivity. }
  pose proof (poll_annotates r id t err p Ht Hd He Has Hp) as Hpoll.
  split; [exact Hpoll|].
  destruct (poll_frame r) as (F & [L _] & _).
  rewrite (poll_annotates (poll r) id t err p); auto.
  - rewrite Hpoll. reflexivity.
  - rewrite (sameRun_getTask r (poll r) id F). exact Ht.
  - lia.
Qed.

(** *** What the tasks can and cannot do *)

Lemma run_call_storedError id c r : storedError (run_call id c r) = storedError r.
Proof. destruct c; try reflexivity. destruct id; reflexivity. Qed.

Lemma run_step_storedError s r : storedError (run_step s r) = storedError r.
Proof.
  unfold run_step. destruct (taskRunning (fst s) r); [|reflexivity].
  apply run_call_storedError.
Qed.

Lemma run_batch_storedError batch :
  forall r, storedError (run_batch batch r) = storedError r.
Proof.
  unfold run_batch. induction batch as [|s batch IH]; intros r; simpl; [reflexivity|].
  rewrite IH. apply run_step_storedError.
Qed.

Lemma getTask_setTask id id' t r :
  getTask id' (setTask id t r) = if decide (id = id') then t else getTask id' r.
Proof. destruct id, id'; reflexivity. Qed.

Lemma run_call_getTask id c r id' :
  getTask id' (run_call id c r) = getTask id' r
  \/ (id' = id /\ exists t err, getTask id r = Some t
                               /\ getTask id' (run_call id c r) = Some (Task_finish err t)).
Proof.
  destruct c; try (left; destruct id'; reflexivity).
  simpl. rewrite getTask_setTask. destruct (decide (id = id')) as [<-|Hne]; [|auto].
  destruct (getTask id r) as [t|] eqn:E; [|auto].
  right. split; [reflexivity|]. exists t, err. auto.
Qed.

(** A task that is not running stays so. *)
Lemma run_step_settles s r id :
  taskRunning id r = false -> taskRunning id (run_step s r) = false.
Proof.
  intros H. unfold run_step. destruct (taskRunning (fst s) r) eqn:Hrun; [|exact H].
  unfold taskRunning in *.
  destruct (run_call_getTask (fst s) (snd s) r id) as [->|(-> & t & err & Ht & ->)];
    [exact H|reflexivity].
Qed.

Lemma run_batch_settles batch :
  forall r id, taskRunning id r = false -> taskRunning id (run_batch batch r) = false.
Proof.
  unfold run_batch. induction batch as [|s batch IH]; intros r id H; simpl; [exact H|].
  apply IH. apply run_step_settles. exact H.
Qed.

Lemma run_batch_settled batch :
  forall r, tasksSettled r -> run_batch batch r = r.
Proof.
  unfold run_batch. induction batch as [|s batch IH]; intros r H; simpl; [reflexivity|].
  unfold run_step at 2. rewrite (H (fst s)). apply IH. exact H.
Qed.

Lemma yield_settled sched r : tasksSettled r -> yield sched r = (tail sched, r).
Proof.
  intros H. destruct sched as [|batch sched]; [reflexivity|].
  simpl. rewrite run_batch_settled by exact H. reflexivity.
Qed.

Lemma run_call_isComplete id c r :
  isComplete r = true -> isComplete (run_call id c r) = true.
Proof. intros H. destruct c; try exact H; try reflexivity. destruct id; exact H. Qed.

Lemma run_batch_isComplete batch :
  forall r, isComplete r = true -> isComplete (run_batch batch r) = true.
Proof.
  unfold run_batch. induction batch as [|s batch IH]; intros r H; simpl; [exact H|].
  apply IH. unfold run_step. destruct (taskRunning (fst s) r); [|exact H].
  apply run_call_isComplete. exact H.
Qed.

Lemma tasksSettled_sameRun r r' : sameRun r r' -> tasksSettled r -> tasksSettled r'.
Proof.
  intros F H id. specialize (H id). unfold taskRunning in *.
  rewrite (sameRun_getTask r r' id F). exact H.
Qed.

Lemma markAsComplete_sameTasks r id : getTask id (markAsComplete r) = getTask id r.
Proof. destruct id; reflexivity. Qed.

Lemma markAsComplete_id r : isComplete r = true -> markAsComplete r = r.
Proof. destruct r; simpl. intros ->. reflexivity. Qed.

(** *** [awaitTasks] and [cleanupTasks] *)

Lemma waitTasks_spec ids sched :
  forall r sched' r',
    waitTasks ids sched r = Some (sched', r') ->
    (forall id, In id ids -> taskRunning id r' = false)
    /\ (forall id, taskRunning id r = false -> taskRunning id r' = false)
    /\ (isComplete r = true -> isComplete r' = true)
    /\ storedError r' = storedError r.
Proof.
  induction sched as [|batch sched IH]; intros r sched' r' H; simpl in H.
  - destruct (forallb _ ids) eqn:E; [|discriminate]. injection H as <- <-.
    split; [|auto]. intros id Hin. rewrite forallb_forall in E.
    specialize (E id Hin). destruct (taskRunning id r); [discriminate|reflexivity].
  - destruct (forallb _ ids) eqn:E.
    + injection H as <- <-.
      split; [|auto]. intros id Hin. rewrite forallb_forall in E.
      specialize (E id Hin). destruct (taskRunning id r); [discriminate|reflexivity].
    + destruct (IH _ _ _ H) as (H1 & H2 & H3 & H4).
      split; [exact H1|]. split.
      { intros id Hid. apply H2. apply run_batch_settles. exact Hid. }
      split.
      { intros Hc. apply H3. apply run_batch_isComplete. exact Hc. }
      { rewrite H4. apply run_batch_storedError. }
Qed.

Lemma In_taskIds id : In id taskIds.
Proof. destruct id; simpl; auto. Qed.

(** When [awaitTasks] returns, no task is running. *)
Lemma awaitTasks_settled sched r sched' r' :
  awaitTasks sched r = Some (sched', r') -> tasksSettled r'.
Proof.
  unfold awaitTasks. intros H.
  destruct (waitTasks_spec _ _ _ _ _ H) as (H1 & H2 & _).
  intros id. destruct (taskRunning id r) eqn:E.
  - apply H1. unfold pendingTasks. apply filter_In. split; [apply In_taskIds|exact E].
  - apply H2. exact E.
Qed.

Lemma pendingTasks_settled r : tasksSettled r -> pendingTasks r = [].
Proof.
  intros H. unfold pendingTasks, taskIds. simpl. rewrite !H. reflexivity.
Qed.

Lemma awaitTasks_of_settled sched r :
  tasksSettled r -> awaitTasks sched r = Some (sched, r).
Proof.
  intros H. unfold awaitTasks. rewrite pendingTasks_settled by exact H.
  destruct sched; reflexivity.
Qed.

Lemma cleanupTasks_task_settled id r :
  taskRunning id r = false -> cleanupTasks_task id r = r.
Proof.
  unfold taskRunning, cleanupTasks_task.
  destruct (getTask id r) as [t|]; [|reflexivity].
  destruct (Task_IsDone t); [reflexivity|discriminate].
Qed.

Lemma cleanupTasks_settled r : tasksSettled r -> cleanupTasks r = r.
Proof.
  intros H. unfold cleanupTasks.
  rewrite (cleanupTasks_task_settled RunImpl r) by apply H.
  rewrite (cleanupTasks_task_settled InputGuardrails r) by apply H.
  apply cleanupTasks_task_settled. apply H.
Qed.

Lemma setTask_frame id t r :
  isComplete (setTask id t r) = isComplete r
  /\ eventQueue (setTask id t r) = eventQueue r
  /\ inputGuardrailQueue (setTask id t r) = inputGuardrailQueue r
  /\ storedError (setTask id t r) = storedError r.
Proof. destruct id; repeat split. Qed.

Lemma cleanupTasks_task_frame id r :
  isComplete (cleanupTasks_task id r) = isComplete r
  /\ storedError (cleanupTasks_task id r) = storedError r
  /\ forall id', taskRunning id' (cleanupTasks_task id r) = taskRunning id' r.
Proof.
  unfold cleanupTasks_task.
  destruct (getTask id r) as [t|] eqn:E; [|auto].
  destruct (Task_IsDone t) eqn:Hd; simpl; [auto|].
  destruct (setTask_frame id (Some (Task_Cancel t)) r) as (H1 & _ & _ & H4).
  split; [exact H1|]. split; [exact H4|].
  intros id'. unfold taskRunning. rewrite getTask_setTask.
  destruct (decide (id = id')) as [<-|]; [|reflexivity].
  rewrite E. reflexivity.
Qed.

Lemma cleanupTasks_frame r :
  isComplete (cleanupTasks r) = isComplete r
  /\ storedError (cleanupTasks r) = storedError r
  /\ forall id, taskRunning id (cleanupTasks r) = taskRunning id r.
Proof.
  unfold cleanupTasks.
  destruct (cleanupTasks_task_frame RunImpl r) as (A1 & B1 & C1).
  set (r1 := cleanupTasks_task RunImpl r) in *.
  destruct (cleanupTasks_task_frame InputGuardrails r1) as (A2 & B2 & C2).
  set (r2 := cleanupTasks_task InputGuardrails r1) in *.
  destruct (cleanupTasks_task_frame OutputGuardrails r2) as (A3 & B3 & C3).
  split; [congruence|]. split; [congruence|].
  intros id. rewrite C3, C2, C1. reflexivity.
Qed.

Lemma drainQueue_nil {A : Type} (queue : list A) : drainQueue queue = [].
Proof. induction queue; [reflexivity|assumption]. Qed.

(** C8.  When [Cancel] returns, the run is complete and both queues are
    empty; a second [Cancel], whatever the tasks were still scheduled to do,
    returns at once and leaves the state exactly as the first one left it. *)
Theorem C8_Cancel_idempotent
    (sched : Schedule) (r : RunResultStreaming)
    (sched1 : Schedule) (r1 : RunResultStreaming) :
  Cancel sched r = Some (sched1, r1) ->
  (IsComplete r1 = true /\ eventQueue r1 = [] /\ inputGuardrailQueue r1 = [])
  /\ forall sched2, Cancel sched2 r1 = Some (sched2, r1).
Proof.
  unfold Cancel. intros H.
  destruct (awaitTasks sched (cleanupTasks (markAsComplete r)))
    as [[s' r']|] eqn:Hawait; [|discriminate].
  injection H as <- <-.
  pose proof (awaitTasks_settled _ _ _ _ Hawait) as Hsettled.
  assert (isComplete r' = true) as Hc.
  { unfold awaitTasks in Hawait.
    destruct (waitTasks_spec _ _ _ _ _ Hawait) as (_ & _ & H3 & _).
    apply H3. destruct (cleanupTasks_frame (markAsComplete r)) as (-> & _). reflexivity. }
  rewrite !drainQueue_nil.
  set (r1 := setInputGuardrailQueue [] (setEventQueue [] r')).
  split. { repeat split. exact Hc. }
  intros sched2.
  assert (tasksSettled r1) as Hs1.
  { intros id. specialize (Hsettled id). unfold taskRunning in *.
    destruct id; exact Hsettled. }
  assert (markAsComplete r1 = r1) as -> by (apply markAsComplete_id; exact Hc).
  rewrite cleanupTasks_settled by exact Hs1.
  rewrite awaitTasks_of_settled by exact Hs1.
  reflexivity.
Qed.

(** *** The turn limit *)

Lemma checkErrors_maxTurns_exceeded r :
  (currentTurn r > maxTurns r)%Z ->
  let p := List.length (agentsErrors r) in
  storedError (checkErrors_maxTurns r) = Some (MaxTurnsExceededError p (maxTurnsMessage r))
  /\ getRunData p (checkErrors_maxTurns r) = Some (createErrorDetails r).
Proof.
  intros H. rewrite checkErrors_maxTurns_unfold.
  replace (currentTurn r >? maxTurns r)%Z with true by (symmetry; apply Z.gtb_lt; lia).
  pose proof (storeNew_spec (fun p => MaxTurnsExceededError p (maxTurnsMessage r)) r) as S.
  cbv zeta in *. destruct S as (S1 & S2 & _). split; assumption.
Qed.

Lemma checkErrors_maxTurns_within r :
  (currentTurn r <= maxTurns r)%Z -> checkErrors_maxTurns r = r.
Proof.
  intros H. rewrite checkErrors_maxTurns_unfold.
  replace (currentTurn r >? maxTurns r)%Z with false; [reflexivity|].
  symmetry. rewrite Z.gtb_ltb. apply Z.ltb_ge. lia.
Qed.

(** A poll that finds no triggered tripwire and no failed task leaves the
    slot as the turn-limit block left it. *)
Lemma poll_turn_limit_only r :
  noTaskError r -> lastTriggered (inputGuardrailQueue r) = None ->
  storedError (poll r) = storedError (checkErrors_maxTurns r)
  /\ agentsErrors (poll r) = agentsErrors (checkErrors_maxTurns r).
Proof.
  intros Hno Hlast. rewrite poll_noTaskError by exact Hno.
  destruct (checkErrors_maxTurns_frame r) as (_ & _ & Q).
  pose proof (checkErrors_guardrails_spec (checkErrors_maxTurns r)) as H.
  cbv zeta in H. rewrite Q, Hlast in H. tauto.
Qed.

Lemma getRunData_agentsErrors r r' p :
  agentsErrors r' = agentsErrors r -> getRunData p r' = getRunData p r.
Proof. unfold getRunData. intros ->. reflexivity. Qed.

(** Once the turn limit is exceeded a poll leaves some error in the slot. *)
Lemma poll_exceeded_stores r :
  (currentTurn r > maxTurns r)%Z -> exists e, storedError (poll r) = Some e.
Proof.
  intros H. rewrite poll_unfold.
  destruct (checkErrors_maxTurns_exceeded r H) as (S1 & _).
  set (r1 := checkErrors_maxTurns r) in *.
  assert (exists e, storedError (checkErrors_guardrails r1) = Some e) as S2.
  { pose proof (checkErrors_guardrails_spec r1) as G. cbv zeta in G.
    destruct G as (_ & _ & _ & G).
    destruct (lastTriggered (inputGuardrailQueue r1)).
    - destruct G as (p & G & _). eauto.
    - destruct G as (G & _). rewrite G. eauto. }
  set (r2 := checkErrors_guardrails r1) in *.
  assert (forall id x, (exists e, storedError x = Some e) ->
                       exists e, storedError (checkErrors_task id x) = Some e) as Htask.
  { intros id x Hx.
    destruct (checkErrors_task_cases id x) as [->|(t & err & Ht & Hd & He)]; [exact Hx|].
    rewrite (checkErrors_task_failed id x t err Ht Hd He). simpl. eauto. }
  auto.
Qed.

(** With no task running and none failed, [StreamEvents] leaves its loop at
    the first check and returns what the last poll stores: the turn-limit
    error, with the snapshot of the run. *)
Lemma StreamEvents_turn_limit {V : Type} (fn : V -> StreamEvent -> V * option error)
    (sched : Schedule) (r : RunResultStreaming) (v : V) :
  (currentTurn r > maxTurns r)%Z -> noTaskError r -> tasksSettled r ->
  exists p r',
    StreamEvents fn sched r v
    = Returned (Some (MaxTurnsExceededError p (maxTurnsMessage r))) (tail sched) r' v
    /\ getRunData p r' = Some (createErrorDetails r)
    /\ storedError r' = Some (MaxTurnsExceededError p (maxTurnsMessage r))
    /\ IsComplete r' = true.
Proof.
  intros Hturn Hno Hset.
  destruct (poll_exceeded_stores r Hturn) as (e & He).
  destruct (poll_frame r) as (F & K & Q).
  set (r1 := markAsComplete (poll r)).
  assert (tasksSettled r1) as Hset1.
  { intros id. pose proof (tasksSettled_sameRun _ _ F Hset id) as H.
    unfold taskRunning in *. unfold r1. rewrite markAsComplete_sameTasks. exact H. }
  assert (noTaskError r1) as Hno1.
  { intros id t Ht. unfold r1 in Ht. rewrite markAsComplete_sameTasks in Ht.
    apply (noTaskError_sameRun _ _ F Hno id t Ht). }
  assert (currentTurn r1 > maxTurns r1)%Z as Hturn1.
  { unfold r1. simpl. destruct F as (_ & _ & _ & _ & _ & _ & _ & -> & -> & _). exact Hturn. }
  assert (inputGuardrailQueue r1 = []) as Q1 by exact Q.
  assert (createErrorDetails r1 = createErrorDetails r) as D1.
  { apply (sameRun_createErrorDetails r (poll r) F). }
  assert (maxTurnsMessage r1 = maxTurnsMessage r) as M1.
  { unfold maxTurnsMessage, r1. simpl.
    destruct F as (_ & _ & _ & _ & _ & _ & _ & _ & -> & _). reflexivity. }
  destruct (poll_turn_limit_only r1 Hno1) as (S2 & A2).
  { rewrite Q1. reflexivity. }
  destruct (checkErrors_maxTurns_exceeded r1 Hturn1) as (S3 & D3).
  exists (List.length (agentsErrors r1)), (poll r1).
  split.
  { unfold StreamEvents, StreamEvents_fuel. cbn [StreamEvents_loop].
    unfold StreamEvents_iteration.
    rewrite yield_settled by exact Hset.
    rewrite checkErrors_eq. unfold getStoredError. rewrite He.
    unfold StreamEvents_epilogue. fold r1.
    rewrite awaitTasks_of_settled by exact Hset1.
    rewrite checkErrors_eq.
    assert (tasksSettled (poll r1)) as Hset2.
    { destruct (poll_frame r1) as (F1 & _). eapply tasksSettled_sameRun; eauto. }
    rewrite cleanupTasks_settled by exact Hset2.
    unfold getStoredError. rewrite S2, S3, M1. reflexivity. }
  split.
  { rewrite (getRunData_agentsErrors _ _ _ A2), D3, D1. reflexivity. }
  split.
  { rewrite S2, S3, M1. reflexivity. }
  { destruct (poll_frame r1) as ((_ & _ & _ & _ & _ & _ & _ & _ & _ & C & _) & _).
    unfold IsComplete. rewrite C. reflexivity. }
Qed.

(** *** The loop of [StreamEvents] *)

Lemma scheduledPuts_cons batch sched :
  scheduledPuts (batch :: sched)
  = (List.length (List.filter is_Put batch) + scheduledPuts sched)%nat.
Proof.
  unfold scheduledPuts. simpl. rewrite List.filter_app, length_app. reflexivity.
Qed.

Lemma run_call_eventQueue id c r :
  (List.length (eventQueue (run_call id c r))
   <= List.length (eventQueue r) + (if is_Put (id, c) then 1 else 0))%nat.
Proof.
  destruct c; simpl; try lia.
  - rewrite length_app. simpl. lia.
  - destruct id; simpl; lia.
Qed.

Lemma run_batch_eventQueue batch :
  forall r,
    (List.length (eventQueue (run_batch batch r))
     <= List.length (eventQueue r) + List.length (List.filter is_Put batch))%nat.
Proof.
  unfold run_batch. induction batch as [|s batch IH]; intros r; simpl; [lia|].
  specialize (IH (run_step s r)).
  assert (List.length (eventQueue (run_step s r))
          <= List.length (eventQueue r) + (if is_Put s then 1 else 0))%nat as H.
  { unfold run_step. destruct (taskRunning (fst s) r).
    - destruct s as [id c]. apply run_call_eventQueue.
    - lia. }
  destruct (is_Put s); simpl; lia.
Qed.

Lemma yield_bound sched r sched' r' :
  yield sched r = (sched', r') ->
  (iterationsBound sched' r' <= iterationsBound sched r)%nat.
Proof.
  unfold iterationsBound. destruct sched as [|batch sched]; simpl.
  - intros [= <- <-]. lia.
  - intros [= <- <-]. rewrite scheduledPuts_cons.
    pose proof (run_batch_eventQueue batch r). lia.
Qed.

Lemma eventQueue_Get_bound sched :
  forall r item sched' r',
    eventQueue_Get sched r = Some (item, sched', r') ->
    (S (iterationsBound sched' r') <= iterationsBound sched r)%nat.
Proof.
  unfold iterationsBound.
  induction sched as [|batch sched IH]; intros r item sched' r' H; simpl in H.
  - destruct (eventQueue r) as [|x q] eqn:E; [discriminate|].
    injection H as <- <- <-. simpl. lia.
  - destruct (eventQueue r) as [|x q] eqn:E.
    + apply IH in H. rewrite scheduledPuts_cons.
      pose proof (run_batch_eventQueue batch r). rewrite E in *. simpl in *. lia.
    + injection H as <- <- <-. simpl. lia.
Qed.

Lemma eventQueue_Get_storedError sched :
  forall r item sched' r',
    eventQueue_Get sched r = Some (item, sched', r') -> storedError r' = storedError r.
Proof.
  induction sched as [|batch sched IH]; intros r item sched' r' H; simpl in H.
  - destruct (eventQueue r) as [|x q]; [discriminate|].
    injection H as <- <- <-. reflexivity.
  - destruct (eventQueue r) as [|x q].
    + apply IH in H. rewrite H. apply run_batch_storedError.
    + injection H as <- <- <-. reflexivity.
Qed.

Lemma poll_eventQueue r : eventQueue (poll r) = eventQueue r.
Proof.
  destruct (poll_frame r) as ((_ & _ & _ & _ & _ & _ & _ & _ & _ & _ & H & _) & _).
  exact H.
Qed.

(** An iteration that reaches the visitor. *)
Lemma iteration_visit {V : Type} (fn : V -> StreamEvent -> V * option error)
    sched r v s1 r1 item s2 r2 :
  yield sched r = (s1, r1) ->
  getStoredError (poll r1) = None ->
  IsComplete (poll r1) && Queue_IsEmpty (eventQueue (poll r1)) = false ->
  eventQueue_Get s1 (poll r1) = Some (item, s2, r2) ->
  is_queueCompleteSentinel item = false ->
  StreamEvents_iteration fn sched r v =
  match fn v item with
  | (v', Some err) => Exit (LoopReturn err s2 r2 v')
  | (v', None) => Continue s2 r2 v'
  end.
Proof.
  intros Hy Hs Hc Hg Hi. unfold StreamEvents_iteration.
  rewrite Hy, checkErrors_eq, Hs, Hc, Hg, Hi.
  destruct (fn v item) as [v' [err|]]; reflexivity.
Qed.

(** An iteration continues only after a visit without error. *)
Lemma iteration_Continue {V : Type} (fn : V -> StreamEvent -> V * option error)
    sched r v s2 r2 v' :
  StreamEvents_iteration fn sched r v = Continue s2 r2 v' ->
  exists s1 r1 item,
    yield sched r = (s1, r1)
    /\ eventQueue_Get s1 (poll r1) = Some (item, s2, r2)
    /\ fn v item = (v', None).
Proof.
  unfold StreamEvents_iteration.
  destruct (yield sched r) as [s1 r1] eqn:Hy. rewrite checkErrors_eq.
  destruct (getStoredError (poll r1)); [discriminate|].
  destruct (IsComplete (poll r1) && Queue_IsEmpty (eventQueue (poll r1)));
    [discriminate|].
  destruct (eventQueue_Get s1 (poll r1)) as [[[item s2'] r2']|] eqn:Hg; [|discriminate].
  destruct (is_queueCompleteSentinel item).
  - rewrite checkErrors_eq. discriminate.
  - destruct (fn v item) as [v'' [err|]] eqn:Hf; [discriminate|].
    intros [= <- <- <-]. exists s1, r1, item. auto.
Qed.

Lemma iteration_not_LoopFuel {V : Type} (fn : V -> StreamEvent -> V * option error)
    sched r v :
  StreamEvents_iteration fn sched r v <> Exit LoopFuel.
Proof.
  unfold StreamEvents_iteration.
  destruct (yield sched r) as [s1 r1]. rewrite checkErrors_eq.
  destruct (getStoredError (poll r1)); [discriminate|].
  destruct (IsComplete (poll r1) && Queue_IsEmpty (eventQueue (poll r1)));
    [discriminate|].
  destruct (eventQueue_Get s1 (poll r1)) as [[[item s2'] r2']|]; [|discriminate].
  destruct (is_queueCompleteSentinel item).
  - rewrite checkErrors_eq. discriminate.
  - destruct (fn v item) as [v'' [err|]]; discriminate.
Qed.

Lemma iteration_Continue_bound {V : Type} (fn : V -> StreamEvent -> V * option error)
    sched r v s2 r2 v' :
  StreamEvents_iteration fn sched r v = Continue s2 r2 v' ->
  (S (iterationsBound s2 r2) <= iterationsBound sched r)%nat.
Proof.
  intros H. apply iteration_Continue in H. destruct H as (s1 & r1 & item & Hy & Hg & _).
  apply yield_bound in Hy. apply eventQueue_Get_bound in Hg.
  unfold iterationsBound in *. rewrite poll_eventQueue in Hg. lia.
Qed.

(** With fuel above the bound the loop does not depend on the fuel, and
    does not run out of it. *)
Lemma loop_fuel_irrelevant {V : Type} (fn : V -> StreamEvent -> V * option error) fuel :
  forall fuel' sched r v,
    (iterationsBound sched r < fuel)%nat -> (iterationsBound sched r < fuel')%nat ->
    StreamEvents_loop fuel fn sched r v = StreamEvents_loop fuel' fn sched r v.
Proof.
  induction fuel as [|fuel IH]; intros fuel' sched r v H H'; [lia|].
  destruct fuel' as [|fuel']; [lia|]. simpl.
  destruct (StreamEvents_iteration fn sched r v) as [s2 r2 v'|e] eqn:E; [|reflexivity].
  apply iteration_Continue_bound in E. apply IH; lia.
Qed.

Lemma loop_enough_fuel {V : Type} (fn : V -> StreamEvent -> V * option error) fuel :
  forall sched r v,
    (iterationsBound sched r < fuel)%nat ->
    StreamEvents_loop fuel fn sched r v <> LoopFuel.
Proof.
  induction fuel as [|fuel IH]; intros sched r v H; [lia|]. simpl.
  destruct (StreamEvents_iteration fn sched r v) as [s2 r2 v'|e] eqn:E.
  - apply iteration_Continue_bound in E. apply IH. lia.
  - intros ->. exact (iteration_not_LoopFuel fn sched r v E).
Qed.

Lemma loop_S {V : Type} (fn : V -> StreamEvent -> V * option error) fuel sched r v :
  StreamEvents_loop (S fuel) fn sched r v =
  match StreamEvents_iteration fn sched r v with
  | Continue sched r v => StreamEvents_loop fuel fn sched r v
  | Exit e => e
  end.
Proof. reflexivity. Qed.

Lemma loopReaches_loop {V : Type} (fn : V -> StreamEvent -> V * option error) c0 c :
  loopReaches fn c0 c ->
  forall fuel,
    (iterationsBound (fst (fst c0)) (snd (fst c0)) < fuel)%nat ->
    (iterationsBound (fst (fst c)) (snd (fst c)) < fuel)%nat
    /\ StreamEvents_loop fuel fn (fst (fst c0)) (snd (fst c0)) (snd c0)
       = StreamEvents_loop fuel fn (fst (fst c)) (snd (fst c)) (snd c).
Proof.
  induction 1 as [c|sched r v s1 r1 v1 c Hit Hreach IH]; intros fuel Hfuel.
  - split; [exact Hfuel|reflexivity].
  - simpl in *. pose proof (iteration_Continue_bound fn _ _ _ _ _ _ Hit) as Hb.
    destruct (IH fuel) as (Hc & Heq); [lia|]. split; [exact Hc|].
    rewrite <- Heq. destruct fuel as [|fuel]; [lia|].
    rewrite (loop_S fn fuel sched r v), Hit.
    apply loop_fuel_irrelevant; lia.
Qed.

(** [StreamEvents] terminates: the fuel it is given is never used up. *)
Lemma StreamEvents_total {V : Type} (fn : V -> StreamEvent -> V * option error)
    sched r v :
  StreamEvents fn sched r v <> OutOfFuel.
Proof.
  unfold StreamEvents, StreamEvents_fuel.
  pose proof (loop_enough_fuel fn (S (List.length (eventQueue r) + scheduledPuts sched))
                sched r v) as H.
  destruct (StreamEvents_loop _ fn sched r v) as [s1 r1 v1| | |] eqn:E.
  - unfold StreamEvents_epilogue. destruct (awaitTasks s1 r1) as [[s2 r2]|]; [|discriminate].
    rewrite checkErrors_eq. discriminate.
  - discriminate.
  - discriminate.
  - exfalso. apply H; [unfold iterationsBound; lia|reflexivity].
Qed.

(** Behind a [break] the tasks are awaited: when [StreamEvents] returns
    from its last statement no task is running. *)
Lemma StreamEvents_epilogue_settled {V : Type} sched r (v : V) err sched' r' v' :
  StreamEvents_epilogue sched r v = Returned err sched' r' v' ->
  tasksSettled r' /\ err = getStoredError r'.
Proof.
  unfold StreamEvents_epilogue.
  destruct (awaitTasks sched r) as [[s1 r1]|] eqn:Ha; [|discriminate].
  rewrite checkErrors_eq. intros [= <- <- <- <-].
  assert (tasksSettled (poll r1)) as Hs.
  { destruct (poll_frame r1) as (F & _).
    eapply tasksSettled_sameRun; [exact F|]. eapply awaitTasks_settled; eauto. }
  rewrite cleanupTasks_settled by exact Hs. auto.
Qed.

(** The loop returns an error only from the visit of an event: the checks
    of [checkErrors] never return one. *)
Lemma loop_LoopReturn_visitor {V : Type} (fn : V -> StreamEvent -> V * option error) fuel :
  forall sched r v e sched' r' v',
    StreamEvents_loop fuel fn sched r v = LoopReturn e sched' r' v' ->
    exists v0 item, is_queueCompleteSentinel item = false /\ fn v0 item = (v', Some e).
Proof.
  induction fuel as [|fuel IH]; intros sched r v e sched' r' v' H; [discriminate|].
  rewrite loop_S in H.
  destruct (StreamEvents_iteration fn sched r v) as [s2 r2 v2|x] eqn:E; [eauto|].
  subst x. unfold StreamEvents_iteration in E.
  destruct (yield sched r) as [s1 r1]. rewrite checkErrors_eq in E.
  destruct (getStoredError (poll r1)); [discriminate|].
  destruct (IsComplete (poll r1) && Queue_IsEmpty (eventQueue (poll r1)));
    [discriminate|].
  destruct (eventQueue_Get s1 (poll r1)) as [[[item s2] r2]|]; [|discriminate].
  destruct (is_queueCompleteSentinel item) eqn:Ei.
  - rewrite checkErrors_eq in E. discriminate.
  - destruct (fn v item) as [v2 [err|]] eqn:Ef; [|discriminate].
    injection E as <- <- <- <-. eauto.
Qed.

(** The return paths of [StreamEvents]: either no task is running and the
    result is the stored error, or the result is an error the visitor
    returned. *)
Lemma StreamEvents_return_paths {V : Type} (fn : V -> StreamEvent -> V * option error)
    sched r v err sched' r' v' :
  StreamEvents fn sched r v = Returned err sched' r' v' ->
  (tasksSettled r' /\ err = getStoredError r')
  \/ (exists e v0 item, err = Some e /\ is_queueCompleteSentinel item = false
                        /\ fn v0 item = (v', Some e)).
Proof.
  unfold StreamEvents, StreamEvents_fuel.
  destruct (StreamEvents_loop _ fn sched r v) as [s1 r1 v1|e s1 r1 v1| |] eqn:E;
    try discriminate.
  - intros H. left. eapply StreamEvents_epilogue_settled; eauto.
  - intros [= <- <- <- <-]. right.
    destruct (loop_LoopReturn_visitor fn _ _ _ _ _ _ _ _ E) as (v0 & item & Hi & Hf).
    eauto 6.
Qed.

(** C6.  Take any loop head of a run of [StreamEvents] and suppose that in
    the iteration that starts there the loop takes an event from the queue
    and the visitor, called on it, returns the error [e].  Then
    [StreamEvents] returns [e], in the state and with the schedule of that
    moment: nothing runs after the visit.  The slot of the stored error is
    what it was before the visit, nil. *)
Theorem C6_visitor_error_returned {V : Type} (fn : V -> StreamEvent -> V * option error)
    sched0 r0 v0 sched r v s1 r1 item s2 r2 v' e :
  loopReaches fn (sched0, r0, v0) (sched, r, v) ->
  yield sched r = (s1, r1) ->
  getStoredError (poll r1) = None ->
  IsComplete (poll r1) && Queue_IsEmpty (eventQueue (poll r1)) = false ->
  eventQueue_Get s1 (poll r1) = Some (item, s2, r2) ->
  is_queueCompleteSentinel item = false ->
  fn v item = (v', Some e) ->
  StreamEvents fn sched0 r0 v0 = Returned (Some e) s2 r2 v'
  /\ getStoredError r2 = getStoredError (poll r1)
  /\ getStoredError r2 = None.
Proof.
  intros Hreach Hy Hs Hc Hg Hi Hf.
  pose proof (iteration_visit fn sched r v s1 r1 item s2 r2 Hy Hs Hc Hg Hi) as Hit.
  rewrite Hf in Hit.
  assert (getStoredError r2 = getStoredError (poll r1)) as Hsame.
  { unfold getStoredError. eapply eventQueue_Get_storedError; eauto. }
  split; [|split; [exact Hsame|congruence]].
  unfold StreamEvents, StreamEvents_fuel.
  destruct (loopReaches_loop fn _ _ Hreach
              (S (List.length (eventQueue r0) + scheduledPuts sched0))) as (Hb & Heq).
  { simpl. unfold iterationsBound. lia. }
  cbn [fst snd] in Hb, Heq. rewrite Heq, loop_S, Hit. reflexivity.
Qed.

(** *** The turn limit while the tasks are still at work *)

Lemma noTaskError_setTask_finish id r :
  noTaskError r -> noTaskError (setTask id (Task_finish None <$> getTask id r) r).
Proof.
  intros H id' t Ht Hd. rewrite getTask_setTask in Ht.
  destruct (decide (id = id')) as [<-|Hne]; [|exact (H id' t Ht Hd)].
  destruct (getTask id r) as [t0|]; [|discriminate].
  injection Ht as <-. reflexivity.
Qed.

Lemma run_call_exceeded limit id c r :
  quietCall limit c = true -> exceeded limit r -> exceeded limit (run_call id c r).
Proof.
  intros Hq (Hm & Ht & Hn).
  destruct c; simpl in *; try (split; [exact Hm|]; split; [exact Ht|];
    intros id' t Hget; apply (Hn id' t); destruct id'; exact Hget).
  - split; [exact Hm|]. split; [simpl; apply Z.ltb_lt in Hq; lia|].
    intros id' t Hget; apply (Hn id' t); destruct id'; exact Hget.
  - destruct err as [e|]; [discriminate|].
    split; [destruct id; exact Hm|]. split; [destruct id; exact Ht|].
    apply noTaskError_setTask_finish. exact Hn.
Qed.

Lemma lastTriggered_snoc queue g :
  TripwireTriggered (igr_Output g) = false ->
  lastTriggered (queue ++ [g]) = lastTriggered queue.
Proof.
  intros H. unfold lastTriggered. rewrite List.filter_app. simpl. rewrite H.
  rewrite app_nil_r. reflexivity.
Qed.

Lemma run_call_noTripwire limit id c r :
  quietCall limit c = true ->
  lastTriggered (inputGuardrailQueue r) = None ->
  lastTriggered (inputGuardrailQueue (run_call id c r)) = None.
Proof.
  intros Hq H. destruct c; simpl in *; try exact H.
  - rewrite lastTriggered_snoc; [exact H|]. apply negb_true_iff. exact Hq.
  - destruct id; exact H.
Qed.

Lemma run_batch_quiet limit batch :
  forallb (fun s : Step => quietCall limit (snd s)) batch = true ->
  forall r,
    (exceeded limit r -> exceeded limit (run_batch batch r))
    /\ (lastTriggered (inputGuardrailQueue r) = None ->
        lastTriggered (inputGuardrailQueue (run_batch batch r)) = None).
Proof.
  unfold run_batch. induction batch as [|s batch IH]; intros Hq r; simpl in *; [auto|].
  apply andb_true_iff in Hq as [Hs Hb]. specialize (IH Hb (run_step s r)).
  destruct IH as (IH1 & IH2). unfold run_step in *.
  destruct (taskRunning (fst s) r).
  - split; intros H.
    + apply IH1. apply run_call_exceeded; assumption.
    + apply IH2. eapply run_call_noTripwire; eauto.
  - split; auto.
Qed.

Lemma waitTasks_quiet limit ids sched :
  quietSchedule limit sched = true ->
  forall r sched' r',
    waitTasks ids sched r = Some (sched', r') ->
    (exceeded limit r -> exceeded limit r')
    /\ (lastTriggered (inputGuardrailQueue r) = None ->
        lastTriggered (inputGuardrailQueue r') = None).
Proof.
  induction sched as [|batch sched IH]; intros Hq r sched' r' H; simpl in *.
  - destruct (forallb _ ids); [|discriminate]. injection H as <- <-. auto.
  - apply andb_true_iff in Hq as [Hb Hs].
    destruct (forallb _ ids).
    + injection H as <- <-. auto.
    + destruct (IH Hs _ _ _ H) as (H1 & H2).
      destruct (run_batch_quiet limit batch Hb r) as (B1 & B2). split; auto.
Qed.

Lemma exceeded_poll limit r : exceeded limit r -> exceeded limit (poll r).
Proof.
  intros (Hm & Ht & Hn). destruct (poll_frame r) as (F & _).
  pose proof F as (_ & _ & _ & _ & _ & _ & _ & Eturn & Emax & _).
  split; [congruence|]. split; [rewrite Eturn; exact Ht|].
  eapply noTaskError_sameRun; eauto.
Qed.

Lemma exceeded_markAsComplete limit r :
  exceeded limit r -> exceeded limit (markAsComplete r).
Proof.
  intros (Hm & Ht & Hn). split; [exact Hm|]. split; [exact Ht|].
  intros id t Hget. rewrite markAsComplete_sameTasks in Hget. exact (Hn id t Hget).
Qed.

(** While the tasks are still at work and the schedule is quiet,
    [StreamEvents] leaves its loop at the first check without calling the
    visitor; if the tasks finish it returns the turn-limit error, with the
    snapshot of the run at that moment, and it blocks if they do not. *)
Lemma StreamEvents_turn_limit_quiet {V : Type} (fn : V -> StreamEvent -> V * option error)
    (sched : Schedule) (r : RunResultStreaming) (v : V) :
  (currentTurn r > maxTurns r)%Z -> noTaskError r ->
  quietSchedule (maxTurns r) sched = true ->
  match StreamEvents fn sched r v with
  | Returned err sched' r' v' =>
      exists p, err = Some (MaxTurnsExceededError p (maxTurnsMessage r))
                /\ getRunData p r' = Some (createErrorDetails r')
                /\ tasksSettled r' /\ v' = v
  | Blocked => True
  | OutOfFuel => False
  end.
Proof.
  intros Hturn Hno Hq.
  assert (exceeded (maxTurns r) r) as Hex by (split; [reflexivity|]; split; assumption).
  set (limit := maxTurns r) in *.
  unfold StreamEvents, StreamEvents_fuel. rewrite loop_S.
  unfold StreamEvents_iteration.
  destruct (yield sched r) as [s1 r1] eqn:Hy.
  assert (exceeded limit r1 /\ quietSchedule limit s1 = true) as (Hex1 & Hq1).
  { destruct sched as [|batch rest]; simpl in Hy; injection Hy as <- <-; [auto|].
    simpl in Hq. apply andb_true_iff in Hq as [Hb Hs].
    split; [|exact Hs]. apply (run_batch_quiet limit batch Hb r). exact Hex. }
  rewrite checkErrors_eq.
  destruct Hex1 as (Hm1 & Ht1 & Hn1).
  destruct (poll_exceeded_stores r1) as (e & He); [rewrite Hm1; exact Ht1|].
  unfold getStoredError. rewrite He.
  set (r2 := markAsComplete (poll r1)).
  assert (exceeded limit r2) as Hex2.
  { apply exceeded_markAsComplete, exceeded_poll. split; [exact Hm1|]. split; assumption. }
  assert (lastTriggered (inputGuardrailQueue r2) = None) as Hk2.
  { destruct (poll_frame r1) as (_ & _ & Q). unfold r2. simpl. rewrite Q. reflexivity. }
  unfold StreamEvents_epilogue.
  destruct (awaitTasks s1 r2) as [[s3 r3]|] eqn:Ha; [|exact I].
  pose proof (awaitTasks_settled _ _ _ _ Ha) as Hset3.
  unfold awaitTasks in Ha.
  destruct (waitTasks_quiet limit _ _ Hq1 _ _ _ Ha) as (W1 & W2).
  destruct (W1 Hex2) as (Hm3 & Ht3 & Hn3). specialize (W2 Hk2).
  rewrite checkErrors_eq.
  destruct (poll_frame r3) as (F3 & _).
  assert (tasksSettled (poll r3)) as Hset4 by (eapply tasksSettled_sameRun; eauto).
  rewrite cleanupTasks_settled by exact Hset4.
  destruct (poll_turn_limit_only r3 Hn3 W2) as (S4 & A4).
  destruct (checkErrors_maxTurns_exceeded r3) as (S5 & D5); [rewrite Hm3; exact Ht3|].
  exists (List.length (agentsErrors r3)).
  split.
  { unfold getStoredError. rewrite S4, S5. unfold maxTurnsMessage.
    rewrite Hm3. reflexivity. }
  split.
  { rewrite (getRunData_agentsErrors _ _ _ A4), D5.
    rewrite (sameRun_createErrorDetails r3 (poll r3) F3). reflexivity. }
  split; [exact Hset4|reflexivity].
Qed.

(** C5.  The turn-limit block of [checkErrors] stores a
    [MaxTurnsExceededError] exactly when the current turn exceeds the
    maximum; the error carries the snapshot of the run, whose last agent is
    the current agent.  It is still the stored error after the poll when
    the guardrail queue holds no triggered result and no task has failed (a
    tripwire or a task error found later in the same poll overwrites it).
    [StreamEvents] returns a turn-limit error when no task has failed and
    none is running; and also while tasks are still at work, as long as
    none of them returns an error, queues a triggered guardrail result or
    brings the turn counter back within the limit: it then returns once the
    tasks have finished, without having called the visitor. *)
Theorem C5_turn_limit_error (r : RunResultStreaming) :
  ((currentTurn r > maxTurns r)%Z <->
   storedError (checkErrors_maxTurns r)
   = Some (MaxTurnsExceededError (List.length (agentsErrors r)) (maxTurnsMessage r))
   /\ getRunData (List.length (agentsErrors r)) (checkErrors_maxTurns r)
      = Some (createErrorDetails r))
  /\ ((currentTurn r <= maxTurns r)%Z -> checkErrors_maxTurns r = r)
  /\ (red_LastAgent (createErrorDetails r) = CurrentAgent r
      /\ red_Input (createErrorDetails r) = input r
      /\ red_NewItems (createErrorDetails r) = newItems r
      /\ red_RawResponses (createErrorDetails r) = rawResponses r
      /\ red_InputGuardrailResults (createErrorDetails r) = inputGuardrailResults r
      /\ red_OutputGuardrailResults (createErrorDetails r) = outputGuardrailResults r)
  /\ (noTaskError r -> lastTriggered (inputGuardrailQueue r) = None ->
      storedError (poll r) = storedError (checkErrors_maxTurns r)
      /\ agentsErrors (poll r) = agentsErrors (checkErrors_maxTurns r))
  /\ ((currentTurn r > maxTurns r)%Z -> noTaskError r -> tasksSettled r ->
      forall (V : Type) (fn : V -> StreamEvent -> V * option error) sched v,
      exists p r',
        StreamEvents fn sched r v
        = Returned (Some (MaxTurnsExceededError p (maxTurnsMessage r))) (tail sched) r' v
        /\ getRunData p r' = Some (createErrorDetails r))
  /\ ((currentTurn r > maxTurns r)%Z -> noTaskError r ->
      forall (V : Type) (fn : V -> StreamEvent -> V * option error) sched v,
      quietSchedule (maxTurns r) sched = true ->
      match StreamEvents fn sched r v with
      | Returned err sched' r' v' =>
          exists p, err = Some (MaxTurnsExceededError p (maxTurnsMessage r))
                    /\ getRunData p r' = Some (createErrorDetails r')
                    /\ tasksSettled r' /\ v' = v
      | Blocked => True
      | OutOfFuel => False
      end).
Proof.
  split.
  { split.
    - apply checkErrors_maxTurns_exceeded.
    - intros (_ & H).
      destruct (Z_le_gt_dec (currentTurn r) (maxTurns r)) as [Hle|Hgt]; [|exact Hgt].
      rewrite (checkErrors_maxTurns_within r Hle) in H.
      apply getRunData_Some_lt in H. lia. }
  split; [apply checkErrors_maxTurns_within|].
  split; [repeat split|].
  split; [apply poll_turn_limit_only|].
  split.
  - intros Hturn Hno Hset V fn sched v.
    destruct (StreamEvents_turn_limit fn sched r v Hturn Hno Hset)
      as (p & r' & H1 & H2 & _).
    eauto.
  - intros Hturn Hno V fn sched v Hq.
    apply StreamEvents_turn_limit_quiet; assumption.
Qed.

(** C1.  Last write wins.  In a state where the turn limit is exceeded and the
    guardrail queue holds a triggered result, and no task has failed, a
    poll leaves the tripwire error of the last triggered result in the
    slot: the later write of the poll has overwritten the turn-limit error.
    The next poll, the queue now being empty, replaces it by a turn-limit
    error.  The caller of [StreamEvents] gets the turn-limit error when no
    task is running, and also while tasks are still at work, as long as none
    of them returns an error, queues a triggered guardrail result or brings
    the turn counter back within the limit. *)
Theorem C1_last_write_wins (r : RunResultStreaming) (g : InputGuardrailResult) :
  (currentTurn r > maxTurns r)%Z ->
  lastTriggered (inputGuardrailQueue r) = Some g ->
  noTaskError r ->
  (exists p, storedError (poll r) = Some (InputGuardrailTripwireTriggeredError p g)
             /\ getRunData p (poll r) = Some (createErrorDetails r))
  /\ (exists p, storedError (poll (poll r))
                = Some (MaxTurnsExceededError p (maxTurnsMessage r))
                /\ getRunData p (poll (poll r)) = Some (createErrorDetails r))
  /\ (tasksSettled r ->
      forall (V : Type) (fn : V -> StreamEvent -> V * option error) sched v,
      exists p r',
        StreamEvents fn sched r v
        = Returned (Some (MaxTurnsExceededError p (maxTurnsMessage r))) (tail sched) r' v
        /\ getRunData p r' = Some (createErrorDetails r))
  /\ (forall (V : Type) (fn : V -> StreamEvent -> V * option error) sched v,
      quietSchedule (maxTurns r) sched = true ->
      match StreamEvents fn sched r v with
      | Returned err sched' r' v' =>
          exists p, err = Some (MaxTurnsExceededError p (maxTurnsMessage r))
                    /\ getRunData p r' = Some (createErrorDetails r')
                    /\ tasksSettled r' /\ v' = v
      | Blocked => True
      | OutOfFuel => False
      end).
Proof.
  intros Hturn Hlast Hno.
  destruct (poll_frame r) as (F & K & Q).
  split.
  { rewrite poll_noTaskError by exact Hno.
    destruct (checkErrors_maxTurns_frame r) as (F1 & _ & Q1).
    pose proof (checkErrors_guardrails_spec (checkErrors_maxTurns r)) as H.
    cbv zeta in H. rewrite Q1, Hlast in H.
    destruct H as (_ & _ & _ & p & Hs & Hd & _).
    exists p. split; [exact Hs|].
    rewrite Hd. f_equal. apply (sameRun_createErrorDetails r _ F1). }
  split.
  { set (r1 := poll r) in *.
    assert (noTaskError r1) as Hno1 by (eapply noTaskError_sameRun; eauto).
    assert (currentTurn r1 > maxTurns r1)%Z as Hturn1.
    { destruct F as (_ & _ & _ & _ & _ & _ & _ & -> & -> & _). exact Hturn. }
    destruct (poll_turn_limit_only r1 Hno1) as (S2 & A2).
    { rewrite Q. reflexivity. }
    destruct (checkErrors_maxTurns_exceeded r1 Hturn1) as (S3 & D3).
    exists (List.length (agentsErrors r1)). split.
    - rewrite S2, S3. unfold maxTurnsMessage.
      destruct F as (_ & _ & _ & _ & _ & _ & _ & _ & -> & _). reflexivity.
    - rewrite (getRunData_agentsErrors _ _ _ A2), D3.
      f_equal. apply (sameRun_createErrorDetails r r1 F). }
  split.
  - intros Hset V fn sched v.
    destruct (StreamEvents_turn_limit fn sched r v Hturn Hno Hset)
      as (p & r' & H1 & H2 & _).
    eauto.
  - intros V fn sched v Hq. apply StreamEvents_turn_limit_quiet; assumption.
Qed.

(** *** What a poll stores *)

Import StreamingTerms.

Lemma checkErrors_task_stored id r :
  storedError (checkErrors_task id r) =
  match taskFailure id r with
  | Some err => Some (Errorf_w (taskErrorPrefix id) err)
  | None => storedError r
  end.
Proof.
  unfold checkErrors_task, taskFailure.
  destruct (getTask id r) as [t|]; [|reflexivity].
  destruct (Task_IsDone t); [|reflexivity].
  destruct (Task_result_Error t); reflexivity.
Qed.

Lemma taskFailure_sameRun r r' id : sameRun r r' -> taskFailure id r' = taskFailure id r.
Proof. intros F. unfold taskFailure. rewrite (sameRun_getTask r r' id F). reflexivity. Qed.

Lemma storeNew_is_Some mk r : is_Some (storedError (storeNew mk r)).
Proof. destruct (storeNew_spec mk r) as (-> & _). eauto. Qed.

Lemma poll_keeps_stored r : is_Some (storedError r) -> is_Some (storedError (poll r)).
Proof.
  intros H. rewrite poll_unfold.
  assert (is_Some (storedError (checkErrors_maxTurns r))) as H1.
  { rewrite checkErrors_maxTurns_unfold.
    destruct (currentTurn r >? maxTurns r)%Z; [apply storeNew_is_Some|exact H]. }
  set (r1 := checkErrors_maxTurns r) in *.
  assert (is_Some (storedError (checkErrors_guardrails r1))) as H2.
  { pose proof (checkErrors_guardrails_spec r1) as G. cbv zeta in G.
    destruct G as (_ & _ & _ & G).
    destruct (lastTriggered (inputGuardrailQueue r1)).
    - destruct G as (p & -> & _). eauto.
    - destruct G as (-> & _). exact H1. }
  set (r2 := checkErrors_guardrails r1) in *.
  assert (forall id x, is_Some (storedError x) ->
                       is_Some (storedError (checkErrors_task id x))) as Htask.
  { intros id x Hx. rewrite checkErrors_task_stored.
    destruct (taskFailure id x); [eauto|exact Hx]. }
  auto.
Qed.

(** X2.  [checkErrors] reports through the stored error only.  It always
    returns nil; it writes none of the cells of the run, the tasks and the
    event queue included; it leaves the guardrail queue empty, whether a
    result was triggered or not; it keeps the data of every error object
    that had some; and it never clears the stored error: a slot that holds
    an error before the call holds one after it. *)
Theorem checkErrors_reports_by_storing (r : RunResultStreaming) :
  fst (checkErrors r) = None
  /\ sameRun r (snd (checkErrors r))
  /\ inputGuardrailQueue (snd (checkErrors r)) = []
  /\ keepsRunData r (snd (checkErrors r))
  /\ (is_Some (storedError r) -> is_Some (storedError (snd (checkErrors r)))).
Proof.
  change (snd (checkErrors r)) with (poll r).
  destruct (poll_frame r) as (F & K & Q).
  split; [reflexivity|]. split; [exact F|]. split; [exact Q|]. split; [exact K|].
  apply poll_keeps_stored.
Qed.

(** The three task blocks, one after the other. *)
Lemma checkErrors_tasks_stored x :
  storedError (checkErrors_task OutputGuardrails
                 (checkErrors_task InputGuardrails (checkErrors_task RunImpl x))) =
  match taskFailure OutputGuardrails x with
  | Some err => Some (Errorf_w (taskErrorPrefix OutputGuardrails) err)
  | None =>
      match taskFailure InputGuardrails x with
      | Some err => Some (Errorf_w (taskErrorPrefix InputGuardrails) err)
      | None =>
          match taskFailure RunImpl x with
          | Some err => Some (Errorf_w (taskErrorPrefix RunImpl) err)
          | None => storedError x
          end
      end
  end.
Proof.
  destruct (checkErrors_task_frame RunImpl x) as (F3 & _).
  destruct (checkErrors_task_frame InputGuardrails (checkErrors_task RunImpl x))
    as (F4 & _).
  rewrite checkErrors_task_stored.
  rewrite (taskFailure_sameRun x _ OutputGuardrails (sameRun_trans _ _ _ F3 F4)).
  destruct (taskFailure OutputGuardrails x); [reflexivity|].
  rewrite checkErrors_task_stored, (taskFailure_sameRun x _ InputGuardrails F3).
  destruct (taskFailure InputGuardrails x); [reflexivity|].
  apply checkErrors_task_stored.
Qed.

(** X3.  The error a poll leaves in the slot, by precedence.  A failed task
    comes first, and among failed tasks the last in the order run-impl,
    input guardrails, output guardrails: the slot holds its error behind
    the prefix of the task.  With no failed task it is the tripwire error
    of the last triggered result of the guardrail queue; with none of those
    the turn-limit error when the turn counter exceeds the maximum; and
    otherwise the slot is what it was. *)
Theorem checkErrors_precedence (r : RunResultStreaming) :
  match lastFailedTask r with
  | Some (id, err) => storedError (poll r) = Some (Errorf_w (taskErrorPrefix id) err)
  | None =>
      match lastTriggered (inputGuardrailQueue r) with
      | Some g =>
          exists p, storedError (poll r) = Some (InputGuardrailTripwireTriggeredError p g)
      | None =>
          if (currentTurn r >? maxTurns r)%Z then
            exists p, storedError (poll r)
                      = Some (MaxTurnsExceededError p (maxTurnsMessage r))
          else storedError (poll r) = storedError r
      end
  end.
Proof.
  rewrite poll_unfold, checkErrors_tasks_stored.
  destruct (checkErrors_maxTurns_frame r) as (F1 & _ & Q1).
  pose proof (checkErrors_guardrails_spec (checkErrors_maxTurns r)) as G. cbv zeta in G.
  destruct G as (F2 & _ & _ & G). rewrite Q1 in G.
  assert (sameRun r (checkErrors_guardrails (checkErrors_maxTurns r))) as F
    by eauto using sameRun_trans.
  rewrite !(taskFailure_sameRun r _ _ F).
  unfold lastFailedTask, taskIds. cbn [omap list_omap].
  destruct (taskFailure OutputGuardrails r) as [e3|];
    destruct (taskFailure InputGuardrails r) as [e2|];
    destruct (taskFailure RunImpl r) as [e1|]; cbn; try reflexivity.
  destruct (lastTriggered (inputGuardrailQueue r)) as [g|].
  - destruct G as (p & G & _). eauto.
  - destruct G as (G & _). rewrite G, checkErrors_maxTurns_unfold.
    destruct (currentTurn r >? maxTurns r)%Z; [|reflexivity].
    destruct (storeNew_spec (fun p => MaxTurnsExceededError p
               ("Max turns (" ++ pretty (maxTurns r) ++ ") exceeded")) r) as (-> & _).
    eauto.
Qed.

(** *** The return paths of [StreamEvents] *)

Lemma StreamEvents_epilogue_returns {V : Type} sched r (v : V) err sched' r' v' :
  StreamEvents_epilogue sched r v = Returned err sched' r' v' ->
  tasksSettled r' /\ err = getStoredError r' /\ inputGuardrailQueue r' = [].
Proof.
  unfold StreamEvents_epilogue.
  destruct (awaitTasks sched r) as [[s1 r1]|] eqn:Ha; [|discriminate].
  rewrite checkErrors_eq. intros [= <- <- <- <-].
  destruct (poll_frame r1) as (F & _ & Q).
  assert (tasksSettled (poll r1)) as Hs.
  { eapply tasksSettled_sameRun; [exact F|]. eapply awaitTasks_settled; eauto. }
  rewrite cleanupTasks_settled by exact Hs. auto.
Qed.

(** X4.  [StreamEvents] terminates or waits, and it has two ways to return.
    From its last statement it returns the stored error, nil or not; no
    task is running then, each having been awaited, and the guardrail queue
    is empty.  From inside the loop it returns an error only when the
    visitor returned that error on an event that is not the sentinel: no
    check of [checkErrors] ever makes it return. *)
Theorem StreamEvents_outcomes {V : Type} (fn : V -> StreamEvent -> V * option error)
    (sched : Schedule) (r : RunResultStreaming) (v : V) :
  match StreamEvents fn sched r v with
  | Returned err sched' r' v' =>
      (tasksSettled r' /\ err = getStoredError r' /\ inputGuardrailQueue r' = [])
      \/ (exists e v0 item, err = Some e /\ is_queueCompleteSentinel item = false
                            /\ fn v0 item = (v', Some e))
  | Blocked => True
  | OutOfFuel => False
  end.
Proof.
  pose proof (StreamEvents_total fn sched r v) as Htotal.
  destruct (StreamEvents fn sched r v) as [err s' r' v'| |] eqn:E; [|exact I|auto].
  unfold StreamEvents, StreamEvents_fuel in E.
  destruct (StreamEvents_loop _ fn sched r v) as [s1 r1 v1|e s1 r1 v1| |] eqn:El;
    try discriminate.
  - left. eapply StreamEvents_epilogue_returns; eauto.
  - injection E as <- <- <- <-. right.
    destruct (loop_LoopReturn_visitor fn _ _ _ _ _ _ _ _ El) as (v0 & item & Hi & Hf).
    eauto 6.
Qed.

(** *** A run at rest *)

Lemma atRest_poll r :
  atRest r -> atRest (poll r) /\ sameRun r (poll r) /\ storedError (poll r) = None.
Proof.
  intros (Hs & Hn & Ht & He & Hl).
  destruct (poll_frame r) as (F & _ & Q).
  destruct (poll_turn_limit_only r Hn Hl) as (S & _).
  rewrite checkErrors_maxTurns_within in S by exact Ht.
  assert (storedError (poll r) = None) as He' by congruence.
  split; [|auto]. split; [eapply tasksSettled_sameRun; eauto|].
  split; [eapply noTaskError_sameRun; eauto|].
  split.
  { destruct F as (_ & _ & _ & _ & _ & _ & _ & -> & -> & _). exact Ht. }
  split; [exact He'|]. rewrite Q. reflexivity.
Qed.

Lemma atRest_setEventQueue q r : atRest r -> atRest (setEventQueue q r).
Proof.
  intros (Hs & Hn & Ht & He & Hl). split; [|split; [|auto]].
  - intros id. specialize (Hs id). unfold taskRunning in *. destruct id; exact Hs.
  - intros id t Hget. apply (Hn id t). destruct id; exact Hget.
Qed.

Lemma eventQueue_Get_settled sched :
  forall r, tasksSettled r -> eventQueue r = [] -> eventQueue_Get sched r = None.
Proof.
  induction sched as [|batch sched IH]; intros r Hs Hq; simpl; rewrite Hq; [reflexivity|].
  rewrite run_batch_settled by exact Hs. apply IH; assumption.
Qed.

Lemma eventQueue_Get_head sched r item rest :
  eventQueue r = item :: rest ->
  eventQueue_Get sched r = Some (item, sched, setEventQueue rest r).
Proof. intros Hq. destruct sched; simpl; rewrite Hq; reflexivity. Qed.

(** The loop on a run at rest: the visitor sees the queued events in front
    of the sentinel, in their order. *)
Lemma atRest_loop {V : Type} (fn : V -> StreamEvent -> V * option error) :
  forall queue fuel sched r v,
    atRest r -> eventQueue r = queue -> (List.length queue < fuel)%nat ->
    match visitAll fn v (beforeSentinel queue) with
    | (v', Some e) =>
        exists sched' r', StreamEvents_loop fuel fn sched r v = LoopReturn e sched' r' v'
    | (v', None) =>
        if hasSentinel queue || isComplete r then
          exists sched' r',
            StreamEvents_loop fuel fn sched r v = LoopBreak sched' r' v'
            /\ atRest r' /\ eventQueue r' = behindSentinel queue
        else StreamEvents_loop fuel fn sched r v = LoopBlocked
    end.
Proof.
  induction queue as [|item rest IH]; intros fuel sched r v Hrest Hq Hfuel;
    (destruct fuel as [|fuel]; [simpl in Hfuel; lia|]);
    destruct (atRest_poll r Hrest) as (Hrest1 & F & He);
    pose proof Hrest as (Hs & _);
    pose proof F as (_ & _ & _ & _ & _ & _ & _ & _ & _ & Hc & Hq1 & _);
    rewrite loop_S; unfold StreamEvents_iteration;
    rewrite yield_settled by exact Hs; rewrite checkErrors_eq;
    unfold getStoredError, IsComplete; rewrite He, Hc, Hq1, Hq.
  - cbn [beforeSentinel visitAll hasSentinel existsb Queue_IsEmpty orb].
    destruct (isComplete r); cbn [andb].
    + exists (tail sched), (poll r). split; [reflexivity|]. split; [exact Hrest1|].
      rewrite Hq1, Hq. reflexivity.
    + rewrite eventQueue_Get_settled; [reflexivity| |congruence].
      destruct Hrest1 as (H & _). exact H.
  - cbn [Queue_IsEmpty]. rewrite andb_false_r.
    rewrite (eventQueue_Get_head (tail sched) (poll r) item rest) by congruence.
    pose proof (atRest_setEventQueue rest (poll r) Hrest1) as Hrest2.
    cbn [beforeSentinel hasSentinel existsb behindSentinel].
    destruct (is_queueCompleteSentinel item) eqn:Hi.
    + cbn [visitAll orb]. rewrite checkErrors_eq.
      destruct (atRest_poll _ Hrest2) as (Hrest3 & F3 & _).
      exists (tail sched), (poll (setEventQueue rest (poll r))).
      split; [reflexivity|]. split; [exact Hrest3|].
      destruct F3 as (_ & _ & _ & _ & _ & _ & _ & _ & _ & _ & -> & _). reflexivity.
    + cbn [visitAll orb]. destruct (fn v item) as [v1 [e|]] eqn:Hf; [eauto|].
      specialize (IH fuel (tail sched) (setEventQueue rest (poll r)) v1 Hrest2 eq_refl).
      simpl in Hfuel. specialize (IH ltac:(lia)).
      change (isComplete (setEventQueue rest (poll r))) with (isComplete (poll r)) in IH.
      rewrite Hc in IH. exact IH.
Qed.

Lemma atRest_epilogue {V : Type} sched r (v : V) :
  atRest r ->
  StreamEvents_epilogue sched r v = Returned None sched (poll r) v.
Proof.
  intros Hrest. destruct (atRest_poll r Hrest) as ((Hs1 & _) & _ & He).
  destruct Hrest as (Hs & _).
  unfold StreamEvents_epilogue.
  rewrite awaitTasks_of_settled by exact Hs. rewrite checkErrors_eq.
  rewrite cleanupTasks_settled by exact Hs1. unfold getStoredError. rewrite He.
  reflexivity.
Qed.

(** X5.  Delivery in order.  Take a run at rest whose event queue holds a
    sentinel or which is marked complete.  [StreamEvents] calls the visitor
    on the queued events in front of the first sentinel, each once and in
    the order of the queue, until the visitor returns an error, which it
    then returns.  When the visitor accepts them all it returns nil: the
    sentinel has been taken off the queue, the events behind it are still
    there and are not delivered, and no task is running. *)
Theorem StreamEvents_delivers_in_order {V : Type}
    (fn : V -> StreamEvent -> V * option error)
    (sched : Schedule) (r : RunResultStreaming) (v : V) :
  atRest r -> hasSentinel (eventQueue r) || isComplete r = true ->
  exists sched' r',
    StreamEvents fn sched r v
    = Returned (snd (visitAll fn v (beforeSentinel (eventQueue r)))) sched' r'
               (fst (visitAll fn v (beforeSentinel (eventQueue r))))
    /\ (snd (visitAll fn v (beforeSentinel (eventQueue r))) = None ->
        eventQueue r' = behindSentinel (eventQueue r)
        /\ tasksSettled r' /\ storedError r' = None).
Proof.
  intros Hrest Hend.
  pose proof (atRest_loop fn (eventQueue r)
                (S (List.length (eventQueue r) + scheduledPuts sched)) sched r v
                Hrest eq_refl ltac:(lia)) as H.
  unfold StreamEvents, StreamEvents_fuel.
  destruct (visitAll fn v (beforeSentinel (eventQueue r))) as [v' [e|]]; cbn [fst snd].
  - destruct H as (s' & r' & ->). exists s', r'. split; [reflexivity|discriminate].
  - rewrite Hend in H. destruct H as (s' & r' & -> & Hrest' & Hq').
    rewrite atRest_epilogue by exact Hrest'.
    exists s', (poll r'). split; [reflexivity|]. intros _.
    destruct (atRest_poll r' Hrest') as ((Hs & _) & F & He).
    destruct F as (_ & _ & _ & _ & _ & _ & _ & _ & _ & _ & -> & _). auto.
Qed.

Lemma beforeSentinel_none queue :
  hasSentinel queue = false -> beforeSentinel queue = queue.
Proof.
  induction queue as [|item rest IH]; [reflexivity|]. simpl.
  destruct (is_queueCompleteSentinel item); [discriminate|].
  simpl. intros H. rewrite IH by exact H. reflexivity.
Qed.

(** X6.  A consumer left waiting.  Take a run at rest that is not marked
    complete and whose event queue holds no sentinel.  When the visitor
    accepts the queued events, [StreamEvents] does not return: with every
    task finished nothing is put on the queue any more, and the loop waits
    in [eventQueue.Get] for an element that does not come. *)
Theorem StreamEvents_waits_without_sentinel {V : Type}
    (fn : V -> StreamEvent -> V * option error)
    (sched : Schedule) (r : RunResultStreaming) (v : V) :
  atRest r -> isComplete r = false -> hasSentinel (eventQueue r) = false ->
  snd (visitAll fn v (eventQueue r)) = None ->
  StreamEvents fn sched r v = Blocked.
Proof.
  intros Hrest Hc Hsent Hvisit.
  pose proof (atRest_loop fn (eventQueue r)
                (S (List.length (eventQueue r) + scheduledPuts sched)) sched r v
                Hrest eq_refl ltac:(lia)) as H.
  rewrite beforeSentinel_none in H by exact Hsent.
  unfold StreamEvents, StreamEvents_fuel.
  destruct (visitAll fn v (eventQueue r)) as [v' [e|]]; [discriminate|].
  rewrite Hsent, Hc in H. cbn [orb] in H. rewrite H. reflexivity.
Qed.

(** *** The last response *)

Lemma last_app_cons {A : Type} (l1 : list A) (x : A) (l2 : list A) :
  last (l1 ++ x :: l2) = last (x :: l2).
Proof.
  induction l1 as [|y l1 IH]; [reflexivity|].
  simpl. destruct (l1 ++ x :: l2) eqn:E; [destruct l1; discriminate|]. exact IH.
Qed.

(** X7.  The last response ID follows the appends: after
    [appendRawResponses] it is the ID of the last response appended, and a
    call that appends nothing leaves it as it was.  It is the empty string
    as long as no response has been recorded. *)
Theorem LastResponseID_appendRawResponses (v : list ModelResponse)
    (r : RunResultStreaming) :
  LastResponseID (appendRawResponses v r)
  = match last v with
    | Some response => ModelResponse_ResponseID response
    | None => LastResponseID r
    end
  /\ (rawResponses r = [] -> LastResponseID r = "").
Proof.
  unfold LastResponseID, appendRawResponses, lastResponseID. simpl. split.
  - destruct v as [|x v]; simpl; [rewrite app_nil_r; reflexivity|].
    rewrite last_app_cons. destruct (last (x :: v)) eqn:E; [reflexivity|].
    apply last_None in E. discriminate.
  - intros ->. reflexivity.
Qed.

End WithResponses.
End StreamingProperties.


(** ** The workflow runner *)

Module WorkflowProperties.
Import strings Workflow.

(** *** ASCII strings *)

Lemma asciiSpace_lower (c : ascii) : asciiSpace (lowerASCIIByte c) = asciiSpace c.
Proof. destruct c as [[] [] [] [] [] [] [] []]; reflexivity. Qed.

Lemma trimLeftASCII_lower (s : string) :
  lowerASCII (trimLeftASCII s) = trimLeftASCII (lowerASCII s).
Proof.
  induction s as [|c s IH]; [reflexivity|]. simpl.
  rewrite asciiSpace_lower. destruct (asciiSpace c); [exact IH|reflexivity].
Qed.

Lemma trimRightASCII_lower (s : string) :
  lowerASCII (trimRightASCII s) = trimRightASCII (lowerASCII s).
Proof.
  induction s as [|c s IH]; [reflexivity|]. simpl.
  rewrite <- IH. destruct (trimRightASCII s) as [|c' t]; simpl.
  - rewrite asciiSpace_lower. destruct (asciiSpace c); reflexivity.
  - reflexivity.
Qed.

Lemma isASCII_trimLeftASCII (s : string) :
  isASCII s = true -> isASCII (trimLeftASCII s) = true.
Proof.
  induction s as [|c s IH]; [reflexivity|]. simpl.
  intros H. apply andb_true_iff in H as [Hc Hs].
  destruct (asciiSpace c); [auto|]. simpl. rewrite Hc, Hs. reflexivity.
Qed.

Lemma isASCII_trimRightASCII (s : string) :
  isASCII s = true -> isASCII (trimRightASCII s) = true.
Proof.
  induction s as [|c s IH]; [reflexivity|]. simpl.
  intros H. apply andb_true_iff in H as [Hc Hs]. specialize (IH Hs).
  destruct (trimRightASCII s) as [|c' t].
  - destruct (asciiSpace c); [reflexivity|]. simpl. rewrite Hc. reflexivity.
  - simpl in *. rewrite Hc, IH. reflexivity.
Qed.

Section WithGoLibrary.
Context `{G : GoLibrary}.

Lemma ToLower_ASCII (s : string) : isASCII s = true -> ToLower s = lowerASCII s.
Proof. unfold ToLower. intros ->. reflexivity. Qed.

Lemma TrimSpace_ASCII (s : string) :
  isASCII s = true -> TrimSpace s = trimRightASCII (trimLeftASCII s).
Proof. unfold TrimSpace. intros ->. reflexivity. Qed.

Lemma ToLower_TrimSpace_ASCII (s : string) :
  isASCII s = true ->
  ToLower (TrimSpace s) = trimRightASCII (trimLeftASCII (lowerASCII s)).
Proof.
  intros H. rewrite TrimSpace_ASCII by exact H.
  rewrite ToLower_ASCII by (apply isASCII_trimRightASCII, isASCII_trimLeftASCII, H).
  rewrite trimRightASCII_lower, trimLeftASCII_lower. reflexivity.
Qed.

Lemma eqb_eq (s t : string) : eqb s t = true <-> s = t.
Proof. apply String.eqb_eq. Qed.

Lemma oneOf_In (s : string) (cases : list string) : oneOf s cases = true <-> In s cases.
Proof.
  unfold oneOf. rewrite existsb_exists. split.
  - intros (x & Hin & Heq). apply String.eqb_eq in Heq. subst. exact Hin.
  - intros Hin. exists s. split; [exact Hin|apply String.eqb_refl].
Qed.

(** What an unsupported kind looks like to the two functions. *)
Lemma unsupportedKind_spec (type : string) :
  unsupportedKind type = true ->
  eqb (TrimSpace type) "" = false
  /\ In (ToLower type) ["json"; "audio"; "video"]
  /\ In (ToLower (TrimSpace type)) ["json"; "audio"; "video"].
Proof.
  unfold unsupportedKind. intros H. apply andb_true_iff in H as [Ha Hk].
  apply oneOf_In in Hk.
  assert (ToLower (TrimSpace type) = lowerASCII type) as Htrim.
  { rewrite ToLower_TrimSpace_ASCII by exact Ha.
    simpl in Hk. destruct Hk as [<-|[<-|[<-|[]]]]; reflexivity. }
  split.
  - destruct (eqb (TrimSpace type) "") eqn:E; [|reflexivity].
    apply eqb_eq in E. rewrite E in Htrim. rewrite <- Htrim in Hk.
    unfold ToLower in Hk. simpl in Hk. intuition discriminate.
  - rewrite Htrim, ToLower_ASCII by exact Ha. auto.
Qed.

(** *** Input conversion *)

Section Inputs.
Context {EasyInputMessageParam : Type}.
Variable buildMessageInput : WorkflowInput -> error + EasyInputMessageParam.

Lemma workflowInputToResponseItem_unsupported (input : WorkflowInput) :
  unsupportedKind (wi_Type input) = true ->
  workflowInputToResponseItem buildMessageInput input
  = Some (inl (Errorf "type %q not supported yet" [ArgQ (wi_Type input)])).
Proof.
  intros H. destruct (unsupportedKind_spec _ H) as (_ & _ & Hk).
  unfold workflowInputToResponseItem. simpl.
  simpl in Hk. destruct Hk as [<-|[<-|[<-|[]]]]; reflexivity.
Qed.

Lemma validateInput_unsupported (i : nat) (input : WorkflowInput) :
  unsupportedKind (wi_Type input) = true -> providesPayload input = true ->
  validateInput i input = None.
Proof.
  intros H Hp. destruct (unsupportedKind_spec _ H) as (Hne & Hk & _).
  unfold validateInput. rewrite Hne.
  replace (oneOf (ToLower (wi_Type input))
             ["text"; "message"; "json"; "image"; "audio"; "video"]) with true.
  - unfold providesPayload in Hp. apply negb_true_iff in Hp. simpl. rewrite Hp. reflexivity.
  - symmetry. apply oneOf_In. simpl in *. intuition.
Qed.

(** The conversion of a message calls no further conversion, so two levels
    of calls are all there are. *)
Lemma message_type_lower : ToLower (TrimSpace "message") = "message".
Proof. reflexivity. Qed.

Lemma workflowInputToResponseItem_returns (input : WorkflowInput) :
  is_Some (workflowInputToResponseItem buildMessageInput input).
Proof.
  unfold workflowInputToResponseItem.
  cbn [workflowInputToResponseItem_fuel wi_Type withMessageType].
  rewrite !message_type_lower.
  change (eqb "message" "message") with true. cbv iota.
  destruct (eqb (ToLower (TrimSpace (wi_Type input))) "message").
  { destruct (buildMessageInput input); eauto. }
  destruct (eqb (ToLower (TrimSpace (wi_Type input))) "text").
  { destruct (is_nil _); [eauto|].
    match goal with |- context [buildMessageInput ?x] => destruct (buildMessageInput x) end;
      eauto. }
  destruct (eqb (ToLower (TrimSpace (wi_Type input))) "image"); [|eauto].
  destruct (eqb (TrimSpace (wi_URI input)) "" && is_nil (wi_Content input)); [eauto|].
  match goal with |- context [buildMessageInput ?x] => destruct (buildMessageInput x) end;
    eauto.
Qed.

Lemma buildInputItems_loop_rejects (input : WorkflowInput) (inputs : list WorkflowInput) :
  unsupportedKind (wi_Type input) = true -> In input inputs ->
  forall idx items,
    exists err, buildInputItems_loop buildMessageInput idx inputs items = Some (inl err).
Proof.
  intros H. induction inputs as [|x rest IH]; intros Hin idx items; [destruct Hin|].
  simpl. destruct Hin as [->|Hin].
  - rewrite (workflowInputToResponseItem_unsupported input H). eauto.
  - destruct (workflowInputToResponseItem_returns x) as [[err|item] ->]; [eauto|].
    apply IH. exact Hin.
Qed.

(** C10.  An input whose type is an ASCII spelling of json, audio or video
    and which provides a uri or a content is accepted by [validateInputs];
    [workflowInputToResponseItem] returns the error "type ... not supported
    yet" for it, and [buildInputItems] rejects every list that holds it,
    the one-element list that validation accepts included. *)
Theorem C10_validated_input_rejected (input : WorkflowInput) :
  unsupportedKind (wi_Type input) = true ->
  providesPayload input = true ->
  validateInputs [input] = None
  /\ workflowInputToResponseItem buildMessageInput input
     = Some (inl (Errorf "type %q not supported yet" [ArgQ (wi_Type input)]))
  /\ buildInputItems buildMessageInput [input]
     = Some (inl (Errorf_w "inputs[%d]: %w" [ArgD 0]
                    (Errorf "type %q not supported yet" [ArgQ (wi_Type input)])))
  /\ forall inputs, In input inputs ->
       exists err, buildInputItems buildMessageInput inputs = Some (inl err).
Proof.
  intros H Hp.
  pose proof (workflowInputToResponseItem_unsupported input H) as Hconv.
  split.
  { unfold validateInputs. simpl. rewrite (validateInput_unsupported 0 input H Hp).
    reflexivity. }
  split; [exact Hconv|]. split.
  { unfold buildInputItems. simpl. rewrite Hconv. reflexivity. }
  intros inputs Hin. unfold buildInputItems.
  destruct inputs as [|x rest]; [destruct Hin|].
  simpl (List.length (x :: rest) =? 0)%nat. cbv iota.
  apply (buildInputItems_loop_rejects input); assumption.
Qed.

End Inputs.

(** *** Validation *)

Lemma firstError_None {A : Type} (f : A -> option error) (l : list A) :
  firstError f l = None -> forall x, In x l -> f x = None.
Proof.
  induction l as [|y l IH]; simpl; [tauto|].
  destruct (f y) eqn:E; [discriminate|].
  intros H x [<-|Hin]; [exact E|auto].
Qed.

Section Builder.
Context `{S : AgentsSDK}.
Variable configureAgent :
  Builder -> WorkflowRequest -> AgentDeclaration -> ConfigStep * error + AgentConfig.

Lemma validateAgents_seen (agents : list AgentDeclaration) :
  forall i seen seen',
    validateAgents i agents seen = inr seen' -> seen' = declaredNames agents ∪ seen.
Proof.
  unfold declaredNames.
  induction agents as [|agent rest IH]; intros i seen seen'; simpl.
  - intros [= <-]. set_solver.
  - destruct (eqb (ad_Name agent) ""); [discriminate|].
    destruct (bool_decide (ad_Name agent ∈ seen)); [discriminate|].
    destruct (validateAgentDeclaration agent); [discriminate|].
    intros H. apply IH in H. rewrite H. set_solver.
Qed.

Lemma validateReferences_resolve (seen : gset string) (agent : AgentDeclaration) :
  validateReferences seen agent = None -> referencesResolve seen agent.
Proof.
  unfold validateReferences, referencesResolve.
  destruct (firstError (validateHandoff seen agent) (ad_Handoffs agent)) eqn:Eh;
    [discriminate|].
  intros Et. split.
  - intros h Hin. pose proof (firstError_None _ _ Eh h Hin) as H.
    unfold validateHandoff in H.
    destruct (eqb (TrimSpace (ahd_Agent h)) ""); [discriminate|].
    destruct (bool_decide (ahd_Agent h ∈ seen)) eqn:E; [|discriminate].
    apply bool_decide_eq_true in E. exact E.
  - intros tool Hin. pose proof (firstError_None _ _ Et tool Hin) as H.
    unfold validateAgentTool in H.
    destruct (bool_decide (atr_AgentName tool ∈ seen)) eqn:E; [|discriminate].
    apply bool_decide_eq_true in E. exact E.
Qed.

(** A validated workflow declares every agent it names. *)
Lemma validateWorkflowDeclaration_resolves (workflow : WorkflowDeclaration) :
  validateWorkflowDeclaration workflow = None ->
  wd_StartingAgent workflow ∈ declaredNames (wd_Agents workflow)
  /\ forall agent, In agent (wd_Agents workflow) ->
       referencesResolve (declaredNames (wd_Agents workflow)) agent.
Proof.
  unfold validateWorkflowDeclaration.
  destruct (eqb (wd_Name workflow) ""); [discriminate|].
  destruct (eqb (wd_StartingAgent workflow) ""); [discriminate|].
  destruct (List.length (wd_Agents workflow) =? 0)%nat; [discriminate|].
  destruct (validateAgents 0 (wd_Agents workflow) ∅) as [err|seen] eqn:Eseen;
    [discriminate|].
  apply validateAgents_seen in Eseen.
  assert (seen = declaredNames (wd_Agents workflow)) as -> by (rewrite Eseen; set_solver).
  destruct (firstErrorFrom 0 _ (wd_OnStart workflow)); [discriminate|].
  destruct (firstErrorFrom 0 _ (wd_OnFinish workflow)); [discriminate|].
  destruct (firstErrorFrom 0 _ (wd_OnError workflow)); [discriminate|].
  destruct (bool_decide (wd_StartingAgent workflow ∈ _)) eqn:Estart; [|discriminate].
  apply bool_decide_eq_true in Estart. simpl.
  intros Hrefs. split; [exact Estart|].
  intros agent Hin. apply validateReferences_resolve.
  apply (firstError_None _ _ Hrefs agent Hin).
Qed.

Lemma ValidateWorkflowRequest_workflow (req : WorkflowRequest) :
  ValidateWorkflowRequest req = None ->
  validateWorkflowDeclaration (req_Workflow req) = None.
Proof.
  unfold ValidateWorkflowRequest.
  destruct (negb (eqb (TrimSpace (req_Version req)) "") && _); [discriminate|].
  destruct (eqb (TrimSpace (req_Query req)) ""); [discriminate|].
  destruct (validateInputs (req_Inputs req)); [discriminate|].
  destruct (validateSession (req_Session req)); [discriminate|].
  destruct (if negb (isCallbackEmpty (req_Callback req)) then _ else _)
    as [err|callbackCount]; [discriminate|].
  destruct (firstErrorFrom 0 validateCallbackAt (req_Callbacks req)); [discriminate|].
  destruct (_ =? 0)%nat; [discriminate|].
  destruct (validateWorkflowDeclaration (req_Workflow req)); [discriminate|reflexivity].
Qed.

(** *** [Build] *)

Lemma configStepFormat_resolved step args err :
  unresolvedReference (Errorf_w (configStepFormat step) args err) = false.
Proof. destruct step; reflexivity. Qed.

Lemma Build_agents_spec (b : Builder) (req : WorkflowRequest)
    (decls : list AgentDeclaration) :
  forall agentMap pending,
    match Build_agents configureAgent b req decls agentMap pending with
    | inl err => unresolvedReference err = false
    | inr (agentMap', pending') =>
        dom agentMap' = declaredNames decls ∪ dom agentMap
        /\ pending' = pending ++ List.map pendingOf decls
    end.
Proof.
  unfold declaredNames.
  induction decls as [|decl rest IH]; intros agentMap pending; simpl.
  - split; [set_solver|]. rewrite app_nil_r. reflexivity.
  - destruct (configureAgent b req decl) as [[step err]|config].
    + apply configStepFormat_resolved.
    + specialize (IH (<[ad_Name decl := {| agent_config := config;
                                          agent_Handoffs := [];
                                          agent_Tools := [] |}]> agentMap)
                     (pending ++ [pendingOf decl])).
      unfold pendingOf in IH at 1.
      destruct (Build_agents _ _ _ rest _ _) as [err|[agentMap' pending']]; [exact IH|].
      destruct IH as (Hdom & Hpending). split.
      * rewrite Hdom, dom_insert_L. set_solver.
      * rewrite Hpending, <- app_assoc. reflexivity.
Qed.

Lemma Build_handoffs_resolved (agentMap : gmap string AgentObject) (item : pendingConfig)
    (refs : list AgentHandoffDeclaration) :
  (forall h, In h refs -> ahd_Agent h ∈ dom agentMap) ->
  forall handoffAgents,
    Build_handoffs agentMap item refs handoffAgents
    = inr (handoffAgents ++ List.map ahd_Agent refs).
Proof.
  induction refs as [|ref rest IH]; intros H acc; simpl.
  - rewrite app_nil_r. reflexivity.
  - assert (is_Some (agentMap !! ahd_Agent ref)) as [a ->].
    { apply elem_of_dom. apply H. left. reflexivity. }
    rewrite IH by (intros h Hh; apply H; right; exact Hh).
    rewrite <- app_assoc. reflexivity.
Qed.

Lemma Build_agentTools_resolved (b : Builder) (item : pendingConfig)
    (refs : list AgentToolReference) :
  forall agentMap : gmap string AgentObject,
    (forall tool, In tool refs -> atr_AgentName tool ∈ dom agentMap) ->
    match Build_agentTools b item refs agentMap with
    | inl err => unresolvedReference err = false
    | inr agentMap' => dom agentMap' = dom agentMap
    end.
Proof.
  induction refs as [|ref rest IH]; intros agentMap H; simpl; [reflexivity|].
  assert (is_Some (agentMap !! atr_AgentName ref)) as [a ->].
  { apply elem_of_dom. apply H. left. reflexivity. }
  destruct (negb (eqb (TrimSpace (atr_OutputExtractor ref)) "")).
  - destruct (b_AgentToolExtractors b !! atr_OutputExtractor ref) as [extractor|];
      [|reflexivity].
    specialize (IH (alter (AddTool (AsTool (atr_AgentName ref) (atr_ToolName ref)
                                      (atr_Description ref) (Some extractor)))
                      (pc_agent item) agentMap)).
    rewrite dom_alter_L in IH.
    apply IH. intros tool Hin. apply H. right. exact Hin.
  - specialize (IH (alter (AddTool (AsTool (atr_AgentName ref) (atr_ToolName ref)
                                      (atr_Description ref) None))
                      (pc_agent item) agentMap)).
    rewrite dom_alter_L in IH.
    apply IH. intros tool Hin. apply H. right. exact Hin.
Qed.

Lemma Build_tools_resolved (b : Builder) (req : WorkflowRequest) (item : pendingConfig)
    (toolDecls : list ToolDeclaration) :
  forall agentMap : gmap string AgentObject,
    match Build_tools b req item toolDecls agentMap with
    | inl err => unresolvedReference err = false
    | inr agentMap' => dom agentMap' = dom agentMap
    end.
Proof.
  induction toolDecls as [|toolDecl rest IH]; intros agentMap; simpl; [reflexivity|].
  destruct (b_ToolFactories b !! td_Type toolDecl) as [factory|]; [|reflexivity].
  destruct (factory toolDecl _) as [err|tool]; [reflexivity|].
  specialize (IH (alter (AddTool (FactoryTool tool)) (pc_agent item) agentMap)).
  rewrite dom_alter_L in IH. exact IH.
Qed.

Lemma Build_attach_resolved (b : Builder) (req : WorkflowRequest)
    (pending : list pendingConfig) :
  forall agentMap : gmap string AgentObject,
    (forall item, In item pending ->
       referencesResolve (dom agentMap) (pc_decl item)
       /\ pc_agentTools item = ad_AgentTools (pc_decl item)) ->
    match Build_attach b req pending agentMap with
    | inl err => unresolvedReference err = false
    | inr agentMap' => dom agentMap' = dom agentMap
    end.
Proof.
  induction pending as [|item rest IH]; intros agentMap H; simpl; [reflexivity|].
  destruct (H item (or_introl eq_refl)) as ((Hh & Ht) & Htools).
  set (withHandoffs :=
         if (0 <? List.length (ad_Handoffs (pc_decl item)))%nat
         then match Build_handoffs agentMap item (ad_Handoffs (pc_decl item)) [] with
              | inl err => inl err
              | inr handoffAgents =>
                  inr (alter (WithAgentHandoffs handoffAgents) (pc_agent item) agentMap)
              end
         else inr agentMap).
  assert (exists m1 : gmap string AgentObject,
             withHandoffs = inr m1 /\ dom m1 = dom agentMap) as (m1 & -> & D1).
  { unfold withHandoffs. destruct (0 <? _)%nat; [|eauto].
    rewrite Build_handoffs_resolved by exact Hh.
    eexists. split; [reflexivity|]. apply dom_alter_L. }
  pose proof (Build_agentTools_resolved b item (pc_agentTools item) m1) as H2.
  destruct (Build_agentTools b item (pc_agentTools item) m1) as [err|m2].
  { apply H2. rewrite Htools, D1. exact Ht. }
  assert (dom m2 = dom agentMap) as D2.
  { rewrite <- D1. apply H2. rewrite Htools, D1. exact Ht. }
  pose proof (Build_tools_resolved b req item (pc_toolDecls item) m2) as H3.
  destruct (Build_tools b req item (pc_toolDecls item) m2) as [err|m3]; [exact H3|].
  assert (dom m3 = dom agentMap) as D3 by congruence.
  specialize (IH m3). rewrite D3 in IH.
  apply IH. intros item' Hin. apply H. right. exact Hin.
Qed.

Lemma Build_session_resolved (b : Builder) (req : WorkflowRequest) err :
  Build_session b req = inl err -> unresolvedReference err = false.
Proof.
  unfold Build_session. destruct (_ =? 0)%nat; [|discriminate].
  destruct (resolveSessionFactory b (req_Session req)) as [e|factory] eqn:E.
  - intros [= <-]. unfold resolveSessionFactory in E.
    destruct (if eqb _ "" then _ else _) as [f|store]; [discriminate|].
    destruct (b_SessionFactories b !! store) as [[f|]|];
      try discriminate;
      (destruct (eqb store "sqlite"); [discriminate|]; injection E as <-; reflexivity).
  - destruct (factory (req_Session req)); [|discriminate]. intros [= <-]. reflexivity.
Qed.

Lemma Build_result_resolved (b : Builder) (req : WorkflowRequest)
    (session : option Session) (agentMap : gmap string AgentObject) :
  wd_StartingAgent (req_Workflow req) ∈ dom agentMap ->
  match Build_result b req session agentMap with
  | inl err => unresolvedReference err = false
  | inr result =>
      br_AgentMap result = agentMap
      /\ br_StartingAgent result = wd_StartingAgent (req_Workflow req)
  end.
Proof.
  intros H. apply elem_of_dom in H as [a Ha]. unfold Build_result. rewrite Ha.
  destruct (buildRunHooks b _) as [err|hooks]; [reflexivity|]. split; reflexivity.
Qed.

(** C9.  On a request that [ValidateWorkflowRequest] accepts, [Build]
    returns none of the three errors about a name without an agent: the
    agent map of the first loop has exactly the declared names as keys, the
    second loop keeps the keys, and the starting agent, every handoff target
    and every agent-tool name of every declaration is one of them. *)
Theorem C9_validated_references_resolve (b : Builder) (req : WorkflowRequest) :
  ValidateWorkflowRequest req = None ->
  (forall err, Build configureAgent b req = inl err -> unresolvedReference err = false)
  /\ (forall agentMap pending,
        Build_agents configureAgent b req (wd_Agents (req_Workflow req)) ∅ []
        = inr (agentMap, pending) ->
        is_Some (agentMap !! wd_StartingAgent (req_Workflow req))
        /\ (forall agent, In agent (wd_Agents (req_Workflow req)) ->
              (forall h, In h (ad_Handoffs agent) -> is_Some (agentMap !! ahd_Agent h))
              /\ (forall tool, In tool (ad_AgentTools agent) ->
                    is_Some (agentMap !! atr_AgentName tool)))
        /\ (match Build_attach b req pending agentMap with
            | inl err => unresolvedReference err = false
            | inr agentMap' => dom agentMap' = dom agentMap
            end))
  /\ (forall result, Build configureAgent b req = inr result ->
        is_Some (br_AgentMap result !! br_StartingAgent result)
        /\ dom (br_AgentMap result) = declaredNames (wd_Agents (req_Workflow req))).
Proof.
  intros Hvalid.
  pose proof (validateWorkflowDeclaration_resolves _
                (ValidateWorkflowRequest_workflow req Hvalid)) as (Hstart & Hrefs).
  assert (forall agentMap pending,
            Build_agents configureAgent b req (wd_Agents (req_Workflow req)) ∅ []
            = inr (agentMap, pending) ->
            dom agentMap = declaredNames (wd_Agents (req_Workflow req))
            /\ match Build_attach b req pending agentMap with
               | inl err => unresolvedReference err = false
               | inr agentMap' => dom agentMap' = dom agentMap
               end) as Hfirst.
  { intros agentMap pending E.
    pose proof (Build_agents_spec b req (wd_Agents (req_Workflow req)) ∅ []) as H.
    rewrite E in H. destruct H as (Hdom & Hpending).
    assert (dom agentMap = declaredNames (wd_Agents (req_Workflow req))) as D.
    { rewrite Hdom. set_solver. }
    split; [exact D|].
    apply Build_attach_resolved. intros item Hin. rewrite Hpending in Hin. simpl in Hin.
    apply in_map_iff in Hin as (decl & <- & Hdecl). simpl.
    split; [|reflexivity]. rewrite D. apply Hrefs. exact Hdecl. }
  split; [|split].
  - intros err. unfold Build. rewrite Hvalid.
    destruct (Build_session b req) as [e|session] eqn:Es.
    { intros [= <-]. eapply Build_session_resolved; eauto. }
    pose proof (Build_agents_spec b req (wd_Agents (req_Workflow req)) ∅ []) as Ha.
    destruct (Build_agents _ _ _ _ _ _) as [e|[agentMap pending]] eqn:Eagents.
    { intros [= <-]. exact Ha. }
    destruct (Hfirst agentMap pending eq_refl) as (D & Hattach).
    destruct (Build_attach b req pending agentMap) as [e|agentMap'].
    { intros [= <-]. exact Hattach. }
    pose proof (Build_result_resolved b req session agentMap') as Hr.
    rewrite Hattach, D in Hr. specialize (Hr Hstart).
    destruct (Build_result b req session agentMap'); [|discriminate].
    intros [= <-]. exact Hr.
  - intros agentMap pending E. destruct (Hfirst agentMap pending E) as (D & Hattach).
    split. { apply elem_of_dom. rewrite D. exact Hstart. }
    split; [|exact Hattach].
    intros agent Hin. destruct (Hrefs agent Hin) as (Hh & Ht). split.
    + intros h Hhin. apply elem_of_dom. rewrite D. auto.
    + intros tool Htin. apply elem_of_dom. rewrite D. auto.
  - intros result. unfold Build. rewrite Hvalid.
    destruct (Build_session b req) as [e|session]; [discriminate|].
    destruct (Build_agents _ _ _ _ _ _) as [e|[agentMap pending]] eqn:Eagents;
      [discriminate|].
    destruct (Hfirst agentMap pending eq_refl) as (D & Hattach).
    destruct (Build_attach b req pending agentMap) as [e|agentMap']; [discriminate|].
    pose proof (Build_result_resolved b req session agentMap') as Hr.
    rewrite Hattach, D in Hr. specialize (Hr Hstart).
    destruct (Build_result b req session agentMap') as [e|res]; [discriminate|].
    intros [= <-]. destruct Hr as (-> & ->). split.
    + apply elem_of_dom. rewrite Hattach, D. exact Hstart.
    + rewrite Hattach, D. reflexivity.
Qed.

End Builder.

(** *** What validation guarantees *)

Lemma firstErrorFrom_None {A : Type} (f : nat -> A -> option error) (l : list A) :
  forall i, firstErrorFrom i f l = None ->
            forall j x, l !! j = Some x -> f (i + j)%nat x = None.
Proof.
  induction l as [|y l IH]; intros i H j x Hj; [discriminate|].
  simpl in H. destruct (f i y) eqn:E; [discriminate|].
  destruct j as [|j]; simpl in Hj.
  - injection Hj as <-. rewrite Nat.add_0_r. exact E.
  - replace (i + S j)%nat with (S i + j)%nat by lia. eapply IH; eauto.
Qed.

Lemma eqb_neq (s t : string) : eqb s t = false <-> s <> t.
Proof. apply String.eqb_neq. Qed.

Lemma validateAgents_names (agents : list AgentDeclaration) :
  forall i seen seen',
    validateAgents i agents seen = inr seen' ->
    NoDup (List.map ad_Name agents)
    /\ Forall (fun agent => ad_Name agent <> "" /\ (ad_Name agent ∉ seen)
                            /\ validateAgentDeclaration agent = None) agents.
Proof.
  induction agents as [|agent rest IH]; intros i seen seen' H; simpl in *.
  - split; constructor.
  - destruct (eqb (ad_Name agent) "") eqn:En; [discriminate|].
    destruct (bool_decide (ad_Name agent ∈ seen)) eqn:Es; [discriminate|].
    destruct (validateAgentDeclaration agent) eqn:Ev; [discriminate|].
    apply bool_decide_eq_false in Es. apply eqb_neq in En.
    destruct (IH _ _ _ H) as (Hnd & Hall). split.
    + constructor; [|exact Hnd].
      intros Hin. apply list_elem_of_In, in_map_iff in Hin as (a & Ha & Hin).
      rewrite List.Forall_forall in Hall. destruct (Hall a Hin) as (_ & Hnot & _).
      apply Hnot. rewrite Ha. set_solver.
    + constructor; [auto|].
      eapply List.Forall_impl; [|exact Hall]. simpl.
      intros a (H1 & H2 & H3). split; [exact H1|]. split; [set_solver|exact H3].
Qed.

(** X8.  What an accepted request is known to have.  When
    [ValidateWorkflowRequest] returns nil: the query is not blank and the
    version is blank or the current one; every input names one of the six
    types and provides a uri or a content; the session has an ID, a user
    and an account, and neither limit is negative; at least one callback is
    given and each one given passes its own validation; the workflow has a
    name and at least one agent, the agents have names, no two the same,
    and each passes [validateAgentDeclaration]. *)
Theorem ValidateWorkflowRequest_guarantees (req : WorkflowRequest) :
  ValidateWorkflowRequest req = None ->
  TrimSpace (req_Query req) <> ""
  /\ (TrimSpace (req_Version req) = ""
      \/ TrimSpace (req_Version req) = CurrentWorkflowVersion)
  /\ Forall (fun input =>
               TrimSpace (wi_Type input) <> ""
               /\ In (ToLower (wi_Type input))
                     ["text"; "message"; "json"; "image"; "audio"; "video"]
               /\ providesPayload input = true) (req_Inputs req)
  /\ (sd_SessionID (req_Session req) <> ""
      /\ cd_UserID (sd_Credentials (req_Session req)) <> ""
      /\ cd_AccountID (sd_Credentials (req_Session req)) <> ""
      /\ (0 <= sd_HistorySize (req_Session req))%Z
      /\ (0 <= sd_MaxTurns (req_Session req))%Z)
  /\ ((isCallbackEmpty (req_Callback req) = false
       /\ CallbackDeclaration_Validate (req_Callback req) = None)
      \/ (isCallbackEmpty (req_Callback req) = true /\ req_Callbacks req <> []))
  /\ Forall (fun cb => CallbackDeclaration_Validate cb = None) (req_Callbacks req)
  /\ (wd_Name (req_Workflow req) <> ""
      /\ wd_Agents (req_Workflow req) <> []
      /\ NoDup (List.map ad_Name (wd_Agents (req_Workflow req)))
      /\ Forall (fun agent => ad_Name agent <> ""
                              /\ validateAgentDeclaration agent = None)
                (wd_Agents (req_Workflow req))).
Proof.
  unfold ValidateWorkflowRequest.
  destruct (negb (eqb (TrimSpace (req_Version req)) "") && _) eqn:Ever; [discriminate|].
  destruct (eqb (TrimSpace (req_Query req)) "") eqn:Eq; [discriminate|].
  destruct (validateInputs (req_Inputs req)) eqn:Ein; [discriminate|].
  destruct (validateSession (req_Session req)) eqn:Ese; [discriminate|].
  destruct (if negb (isCallbackEmpty (req_Callback req)) then _ else _)
    as [err|callbackCount] eqn:Ecb; [discriminate|].
  destruct (firstErrorFrom 0 validateCallbackAt (req_Callbacks req)) eqn:Ecbs;
    [discriminate|].
  destruct (_ =? 0)%nat eqn:Ecount; [discriminate|].
  destruct (validateWorkflowDeclaration (req_Workflow req)) eqn:Ew; [discriminate|].
  intros _.
  split. { apply eqb_neq. exact Eq. }
  split.
  { destruct (eqb (TrimSpace (req_Version req)) "") eqn:E1.
    - left. apply eqb_eq. exact E1.
    - right. simpl in Ever. apply negb_false_iff in Ever. apply eqb_eq. exact Ever. }
  split.
  { apply List.Forall_forall. intros input Hin.
    apply list_elem_of_In, list_elem_of_lookup in Hin as [j Hj].
    pose proof (firstErrorFrom_None _ _ 0%nat Ein j input Hj) as H.
    unfold validateInput in H.
    destruct (eqb (TrimSpace (wi_Type input)) "") eqn:E1; [discriminate|].
    destruct (oneOf (ToLower (wi_Type input)) _) eqn:E2; [|discriminate].
    simpl in H.
    destruct (eqb (TrimSpace (wi_URI input)) "" && is_nil (wi_Content input)) eqn:E3;
      [discriminate|].
    split; [apply eqb_neq; exact E1|]. split; [apply oneOf_In; exact E2|].
    unfold providesPayload. rewrite E3. reflexivity. }
  split.
  { unfold validateSession in Ese.
    destruct (eqb (sd_SessionID (req_Session req)) "") eqn:E1; [discriminate|].
    destruct (eqb (cd_UserID _) "") eqn:E2; [discriminate|].
    destruct (eqb (cd_AccountID _) "") eqn:E3; [discriminate|].
    destruct (sd_HistorySize (req_Session req) <? 0)%Z eqn:E4; [discriminate|].
    destruct (sd_MaxTurns (req_Session req) <? 0)%Z eqn:E5; [discriminate|].
    apply eqb_neq in E1, E2, E3. apply Z.ltb_ge in E4, E5. auto. }
  split.
  { destruct (isCallbackEmpty (req_Callback req)); simpl in Ecb.
    - right. split; [reflexivity|]. injection Ecb as <-.
      destruct (req_Callbacks req); [discriminate|discriminate].
    - left. split; [reflexivity|].
      destruct (CallbackDeclaration_Validate (req_Callback req)); [discriminate|].
      reflexivity. }
  split.
  { apply List.Forall_forall. intros cb Hin.
    apply list_elem_of_In, list_elem_of_lookup in Hin as [j Hj].
    pose proof (firstErrorFrom_None _ _ 0%nat Ecbs j cb Hj) as H.
    unfold validateCallbackAt in H.
    destruct (CallbackDeclaration_Validate cb); [discriminate|reflexivity]. }
  unfold validateWorkflowDeclaration in Ew.
  destruct (eqb (wd_Name (req_Workflow req)) "") eqn:E1; [discriminate|].
  destruct (eqb (wd_StartingAgent (req_Workflow req)) ""); [discriminate|].
  destruct (List.length (wd_Agents (req_Workflow req)) =? 0)%nat eqn:E2; [discriminate|].
  destruct (validateAgents 0 (wd_Agents (req_Workflow req)) ∅) as [err|seen] eqn:Eseen;
    [discriminate|].
  destruct (validateAgents_names _ _ _ _ Eseen) as (Hnd & Hall).
  split; [apply eqb_neq; exact E1|]. split.
  { intros Hnil. rewrite Hnil in E2. discriminate. }
  split; [exact Hnd|].
  eapply List.Forall_impl; [|exact Hall]. simpl. tauto.
Qed.

(** *** The session store *)

(** X9.  The session factory of a validated session.  Validation lets a
    session name no store, sqlite or postgres.  For such a session
    [resolveSessionFactory] fails in two cases only: the session asks for
    postgres and the builder has no postgres factory; or it names no store,
    the builder has no factory of its own, and the builder's default store
    is a name other than sqlite without a factory.  The error names the
    store that was looked up.  In particular a builder whose default store
    is blank or sqlite always finds a factory for a session that does not
    ask for postgres. *)
Theorem resolveSessionFactory_validated `{S : AgentsSDK}
    (b : Builder) (session : SessionDeclaration) (err : error) :
  validateSession session = None ->
  resolveSessionFactory b session = inl err ->
  exists store,
    err = Errorf "persistent_store %q not registered" [ArgQ store]
    /\ store <> "sqlite"
    /\ (forall factory, b_SessionFactories b !! store <> Some (Some factory))
    /\ ((store = "postgres"
         /\ ToLower (TrimSpace (sd_PersistentStore session)) = "postgres")
        \/ (store = b_DefaultSessionStore b /\ store <> ""
            /\ ToLower (TrimSpace (sd_PersistentStore session)) = ""
            /\ b_SessionFactory b = None)).
Proof.
  intros Hvalid Hres.
  assert (In (ToLower (TrimSpace (sd_PersistentStore session))) [""; "sqlite"; "postgres"])
    as Hstore.
  { unfold validateSession in Hvalid.
    destruct (eqb (sd_SessionID session) ""); [discriminate|].
    destruct (eqb (cd_UserID _) ""); [discriminate|].
    destruct (eqb (cd_AccountID _) ""); [discriminate|].
    destruct (sd_HistorySize session <? 0)%Z; [discriminate|].
    destruct (sd_MaxTurns session <? 0)%Z; [discriminate|].
    destruct (eqb (TrimSpace (sd_PersistentStore session)) "") eqn:E.
    - apply eqb_eq in E. rewrite E. left. reflexivity.
    - cbn [negb andb] in Hvalid.
      destruct (oneOf (ToLower (TrimSpace (sd_PersistentStore session))) _) eqn:E2;
        [|discriminate].
      apply oneOf_In in E2. right. exact E2. }
  unfold resolveSessionFactory in Hres.
  set (store0 := ToLower (TrimSpace (sd_PersistentStore session))) in *.
  assert (forall store,
            match b_SessionFactories b !! store with
            | Some (Some factory) => inr factory
            | _ => if eqb store "sqlite"
                   then inr (NewSQLiteSessionFactory "workflowrunner_sessions")
                   else inl (Errorf "persistent_store %q not registered" [ArgQ store])
            end = inl err ->
            err = Errorf "persistent_store %q not registered" [ArgQ store]
            /\ store <> "sqlite"
            /\ forall factory, b_SessionFactories b !! store <> Some (Some factory))
    as Hlookup.
  { intros store H.
    destruct (b_SessionFactories b !! store) as [[f|]|] eqn:E; [discriminate| |];
      (destruct (eqb store "sqlite") eqn:E2; [discriminate|]; injection H as <-;
       apply eqb_neq in E2; split; [reflexivity|]; split; [exact E2|];
       intros factory; discriminate). }
  destruct (eqb store0 "") eqn:E0.
  - apply eqb_eq in E0.
    destruct (b_SessionFactory b) as [f|] eqn:Ef; [discriminate|].
    destruct (eqb (b_DefaultSessionStore b) "") eqn:Ed.
    + apply Hlookup in Hres. destruct Hres as (_ & Hne & _). congruence.
    + apply eqb_neq in Ed. destruct (Hlookup _ Hres) as (H1 & H2 & H3).
      exists (b_DefaultSessionStore b). auto 10.
  - apply eqb_neq in E0. destruct (Hlookup _ Hres) as (H1 & H2 & H3).
    exists store0. split; [exact H1|]. split; [exact H2|]. split; [exact H3|].
    left. simpl in Hstore. destruct Hstore as [H|[H|[H|[]]]]; try congruence.
    split; congruence.
Qed.

(** *** Hook names *)

Section Hooks.
Context `{S : AgentsSDK}.

Lemma uniqueNonEmpty_loop_spec (values : list string) :
  forall (seen : gset string) (result : list string),
    seen = list_to_set result -> NoDup result ->
    (forall x, x ∈ result -> x <> "") ->
    let out := uniqueNonEmpty_loop values seen result in
    NoDup out
    /\ (forall x, x ∈ out <->
                  x ∈ result \/ (x <> "" /\ exists v, v ∈ values /\ TrimSpace v = x))
    /\ exists added, out = result ++ added.
Proof.
  induction values as [|v rest IH]; intros seen result Hseen Hnd Hne; cbv zeta; simpl.
  - split; [exact Hnd|]. split.
    + intros x. split; [auto|]. intros [H|(_ & v & Hv & _)]; [exact H|].
      apply elem_of_nil in Hv. contradiction.
    + exists []. rewrite app_nil_r. reflexivity.
  - destruct (eqb (TrimSpace v) "") eqn:Eempty.
    { apply eqb_eq in Eempty.
      destruct (IH seen result Hseen Hnd Hne) as (H1 & H2 & H3).
      split; [exact H1|]. split; [|exact H3].
      intros x. rewrite H2. split.
      - intros [H|(Hx & w & Hw & Etrim)]; [auto|].
        right. split; [exact Hx|]. exists w. split; [set_solver|exact Etrim].
      - intros [H|(Hx & w & Hw & Etrim)]; [auto|].
        apply elem_of_cons in Hw as [->|Hw]; [congruence|].
        right. split; [exact Hx|]. eauto. }
    apply eqb_neq in Eempty.
    destruct (bool_decide (TrimSpace v ∈ seen)) eqn:Eseen.
    { apply bool_decide_eq_true in Eseen.
      destruct (IH seen result Hseen Hnd Hne) as (H1 & H2 & H3).
      split; [exact H1|]. split; [|exact H3].
      intros x. rewrite H2. split.
      - intros [H|(Hx & w & Hw & Etrim)]; [auto|].
        right. split; [exact Hx|]. exists w. split; [set_solver|exact Etrim].
      - intros [H|(Hx & w & Hw & Etrim)]; [auto|].
        apply elem_of_cons in Hw as [->|Hw].
        + left. subst x. rewrite Hseen in Eseen. set_solver.
        + right. split; [exact Hx|]. eauto. }
    apply bool_decide_eq_false in Eseen.
    destruct (IH ({[TrimSpace v]} ∪ seen) (result ++ [TrimSpace v])) as (H1 & H2 & H3).
    { rewrite Hseen, list_to_set_app_L. simpl. set_solver. }
    { apply NoDup_app. split; [exact Hnd|]. split.
      - intros x Hx Hx'. apply list_elem_of_singleton in Hx'. subst x.
        apply Eseen. rewrite Hseen. set_solver.
      - apply NoDup_singleton. }
    { intros x Hx. apply elem_of_app in Hx as [Hx|Hx]; [auto|].
      apply list_elem_of_singleton in Hx. congruence. }
    split; [exact H1|]. split.
    + intros x. rewrite H2. split.
      * intros [H|(Hx & w & Hw & Etrim)].
        -- apply elem_of_app in H as [H|H]; [auto|].
           apply list_elem_of_singleton in H. subst x.
           right. split; [exact Eempty|]. exists v. split; [set_solver|reflexivity].
        -- right. split; [exact Hx|]. exists w. split; [set_solver|exact Etrim].
      * intros [H|(Hx & w & Hw & Etrim)]; [left; set_solver|].
        apply elem_of_cons in Hw as [->|Hw].
        -- left. subst x. set_solver.
        -- right. split; [exact Hx|]. eauto.
    + destruct H3 as (added & ->). exists (TrimSpace v :: added).
      rewrite <- app_assoc. reflexivity.
Qed.

(** X10.  [uniqueNonEmpty] keeps each name once.  Its result has no
    duplicates and no empty string; it holds exactly the non-empty trimmed
    forms of the given values, so two values that differ only by the blanks
    around them give one entry; and an empty list of values gives an empty
    result. *)
Theorem uniqueNonEmpty_spec (values : list string) :
  NoDup (uniqueNonEmpty values)
  /\ (forall x, x ∈ uniqueNonEmpty values
                <-> x <> "" /\ exists v, v ∈ values /\ TrimSpace v = x)
  /\ uniqueNonEmpty [] = [].
Proof.
  unfold uniqueNonEmpty.
  destruct (uniqueNonEmpty_loop_spec values ∅ []) as (H1 & H2 & _).
  { reflexivity. }
  { constructor. }
  { intros x Hx. apply elem_of_nil in Hx. contradiction. }
  split; [exact H1|]. split; [|reflexivity].
  intros x. rewrite H2. split; [|auto].
  intros [H|H]; [apply elem_of_nil in H; contradiction|exact H].
Qed.

Lemma buildRunHooks_loop_spec (b : Builder) (names : list string) :
  forall hooks,
    match buildRunHooks_loop b names hooks with
    | inl err =>
        exists before name after,
          names = before ++ name :: after
          /\ b_RunHooks b !! name = None
          /\ (forall n, n ∈ before -> is_Some (b_RunHooks b !! n))
          /\ err = Errorf "run hook %q not registered" [ArgQ name]
    | inr out =>
        (forall n, n ∈ names -> is_Some (b_RunHooks b !! n))
        /\ out = hooks ++ registeredRunHooks b names
    end.
Proof.
  induction names as [|name rest IH]; intros hooks; simpl.
  - split; [intros n Hn; apply elem_of_nil in Hn; contradiction|].
    rewrite app_nil_r. reflexivity.
  - unfold registeredRunHooks. cbn [omap list_omap].
    destruct (b_RunHooks b !! name) as [[hook|]|] eqn:E; cbn [mjoin option_join].
    + specialize (IH (hooks ++ [hook])).
      destruct (buildRunHooks_loop b rest (hooks ++ [hook])) as [err|out].
      * destruct IH as (before & n & after & -> & H1 & H2 & H3).
        exists (name :: before), n, after. split; [reflexivity|]. split; [exact H1|].
        split; [|exact H3]. intros x Hx. apply elem_of_cons in Hx as [->|Hx]; [eauto|auto].
      * destruct IH as (H1 & ->). split.
        -- intros x Hx. apply elem_of_cons in Hx as [->|Hx]; [eauto|auto].
        -- rewrite <- app_assoc. reflexivity.
    + specialize (IH hooks).
      destruct (buildRunHooks_loop b rest hooks) as [err|out].
      * destruct IH as (before & n & after & -> & H1 & H2 & H3).
        exists (name :: before), n, after. split; [reflexivity|]. split; [exact H1|].
        split; [|exact H3]. intros x Hx. apply elem_of_cons in Hx as [->|Hx]; [eauto|auto].
      * destruct IH as (H1 & ->). split; [|reflexivity].
        intros x Hx. apply elem_of_cons in Hx as [->|Hx]; [eauto|auto].
    + exists [], name, rest. split; [reflexivity|]. split; [exact E|].
      split; [|reflexivity]. intros x Hx. apply elem_of_nil in Hx. contradiction.
Qed.

(** X11.  The run hooks of a list of names.  [buildRunHooks] looks up the
    trimmed, distinct, non-empty names in their order.  It fails exactly
    when one of them is not registered, and the error names the first such
    name.  Otherwise the hooks registered as nil are skipped: with none
    left the result is nil, with one it is that hook itself, and with more
    it is their combination in the order of the names. *)
Theorem buildRunHooks_spec (b : Builder) (names : list string) :
  match buildRunHooks b names with
  | inl err =>
      exists before name after,
        uniqueNonEmpty names = before ++ name :: after
        /\ b_RunHooks b !! name = None
        /\ (forall n, n ∈ before -> is_Some (b_RunHooks b !! n))
        /\ err = Errorf "run hook %q not registered" [ArgQ name]
  | inr hooks =>
      (forall n, n ∈ uniqueNonEmpty names -> is_Some (b_RunHooks b !! n))
      /\ hooks = match registeredRunHooks b (uniqueNonEmpty names) with
                 | [] => None
                 | [hook] => Some hook
                 | found => Some (combinedRunHooks found)
                 end
  end.
Proof.
  unfold buildRunHooks.
  pose proof (buildRunHooks_loop_spec b (uniqueNonEmpty names) []) as H.
  destruct (buildRunHooks_loop b (uniqueNonEmpty names) []) as [err|out]; [exact H|].
  destruct H as (H1 & ->). simpl.
  destruct (registeredRunHooks b (uniqueNonEmpty names)) as [|h [|h' l]]; auto.
Qed.

Lemma uniqueNonEmpty_singleton (name : string) :
  uniqueNonEmpty [name] = if eqb (TrimSpace name) "" then [] else [TrimSpace name].
Proof.
  unfold uniqueNonEmpty. simpl. destruct (eqb (TrimSpace name) ""); [reflexivity|].
  rewrite bool_decide_eq_false_2 by set_solver. reflexivity.
Qed.

(** X12.  Registration and lookup of run hooks.  A hook registered by
    [WithRunHooks] under a name that is its own trimmed form and not empty
    is what [buildRunHooks] returns for that name, and a nil hook
    registered so gives nil without an error.  A later registration under
    the same name replaces the earlier one.  But the lookup trims the name
    and the registration does not: under a name with blanks around it the
    registration is not seen by a lookup of that same name. *)
Theorem WithRunHooks_lookup (b : Builder) (name : string) (hooks : option RunHooks) :
  (TrimSpace name = name -> name <> "" ->
   buildRunHooks (WithRunHooks name hooks b) [name] = inr hooks)
  /\ (forall earlier,
        WithRunHooks name hooks (WithRunHooks name earlier b)
        = WithRunHooks name hooks b)
  /\ (TrimSpace name <> name ->
      buildRunHooks (WithRunHooks name hooks b) [name] = buildRunHooks b [name]).
Proof.
  split; [|split].
  - intros Htrim Hne. unfold buildRunHooks. rewrite uniqueNonEmpty_singleton, Htrim.
    apply eqb_neq in Hne. rewrite Hne. simpl. rewrite lookup_insert_eq.
    destruct hooks; reflexivity.
  - intros earlier. unfold WithRunHooks. simpl. rewrite insert_insert_eq. reflexivity.
  - intros Htrim. unfold buildRunHooks. rewrite uniqueNonEmpty_singleton.
    destruct (eqb (TrimSpace name) ""); [reflexivity|]. simpl.
    rewrite lookup_insert_ne by congruence. reflexivity.
Qed.

End Hooks.

(** *** Tools *)

Section Tools.
Context `{S : AgentsSDK}.

(** X13.  The tools made of MCP servers.  [toolsFromMCP] gives one tool
    declaration for each server, in order.  Whatever the type the server
    declares, the tool has the type hosted_mcp and the label of the server
    as its name.  Its configuration holds every entry of the server's
    additional settings, which win over the generated keys; where they do
    not speak it holds the label, the address, and the approval setting
    when that is not empty. *)
Theorem toolsFromMCP_spec (decls : list MCPDeclaration) :
  List.length (toolsFromMCP decls) = List.length decls
  /\ forall i d, decls !! i = Some d ->
       exists tool,
         toolsFromMCP decls !! i = Some tool
         /\ td_Type tool = "hosted_mcp"
         /\ td_Name tool = mcp_ServerLabel d
         /\ (forall key v, mcp_Additional d !! key = Some v ->
                           td_Config tool !! key = Some v)
         /\ (mcp_Additional d !! "server_label" = None ->
             td_Config tool !! "server_label" = Some (Str (mcp_ServerLabel d)))
         /\ (mcp_Additional d !! "server_url" = None ->
             td_Config tool !! "server_url" = Some (Str (mcp_Address d)))
         /\ (mcp_Additional d !! "require_approval" = None ->
             td_Config tool !! "require_approval"
             = if eqb (mcp_RequireApproval d) "" then None
               else Some (Str (mcp_RequireApproval d)))
         /\ (forall key, td_Config tool !! key <> None ->
               mcp_Additional d !! key <> None
               \/ In key ["server_label"; "server_url"; "require_approval"]).
Proof.
  unfold toolsFromMCP. split; [apply length_map|].
  intros i d Hi. exists (toolFromMCP d). split.
  { rewrite list_lookup_fmap, Hi. reflexivity. }
  unfold toolFromMCP. cbn [td_Type td_Name td_Config].
  split; [reflexivity|]. split; [reflexivity|].
  split.
  { intros key v Hk. apply lookup_union_Some_l. exact Hk. }
  split.
  { intros Hk. rewrite lookup_union_r by exact Hk.
    destruct (eqb (mcp_RequireApproval d) "").
    - rewrite lookup_insert_ne by discriminate. apply lookup_insert_eq.
    - rewrite !lookup_insert_ne by discriminate. apply lookup_insert_eq. }
  split.
  { intros Hk. rewrite lookup_union_r by exact Hk.
    destruct (eqb (mcp_RequireApproval d) "").
    - apply lookup_insert_eq.
    - rewrite lookup_insert_ne by discriminate. apply lookup_insert_eq. }
  split.
  { intros Hk. rewrite lookup_union_r by exact Hk.
    destruct (eqb (mcp_RequireApproval d) "").
    - rewrite !lookup_insert_ne by discriminate. apply lookup_empty.
    - apply lookup_insert_eq. }
  intros key Hkey.
  destruct (mcp_Additional d !! key) eqn:Ea; [left; discriminate|right].
  rewrite lookup_union_r in Hkey by exact Ea.
  destruct (decide (key = "server_label")) as [->|N1]; [simpl; auto|].
  destruct (decide (key = "server_url")) as [->|N2]; [simpl; auto|].
  destruct (decide (key = "require_approval")) as [->|N3]; [simpl; auto|].
  exfalso. apply Hkey.
  destruct (eqb (mcp_RequireApproval d) "");
    rewrite ?lookup_insert_ne by congruence; apply lookup_empty.
Qed.

Lemma lowerASCIIByte_idem (c : ascii) : lowerASCIIByte (lowerASCIIByte c) = lowerASCIIByte c.
Proof. destruct c as [[] [] [] [] [] [] [] []]; reflexivity. Qed.

Lemma lowerASCII_idem (s : string) : lowerASCII (lowerASCII s) = lowerASCII s.
Proof.
  induction s as [|c s IH]; [reflexivity|]. simpl. rewrite lowerASCIIByte_idem, IH.
  reflexivity.
Qed.

Lemma isASCIIByte_lower (c : ascii) : isASCIIByte (lowerASCIIByte c) = isASCIIByte c.
Proof. destruct c as [[] [] [] [] [] [] [] []]; reflexivity. Qed.

Lemma isASCII_lowerASCII (s : string) : isASCII (lowerASCII s) = isASCII s.
Proof.
  induction s as [|c s IH]; [reflexivity|]. simpl. rewrite isASCIIByte_lower, IH.
  reflexivity.
Qed.

Lemma ToLower_idem_ASCII (s : string) :
  isASCII s = true -> ToLower (ToLower s) = ToLower s.
Proof.
  intros H. rewrite (ToLower_ASCII s H).
  rewrite ToLower_ASCII by (rewrite isASCII_lowerASCII; exact H).
  apply lowerASCII_idem.
Qed.

(** X14.  Tool types are looked up as written.  Validation compares the
    lower-case form of a tool's type, and [WithHostedMCPTool] registers
    under the lower-case form of the name it is given, but [Build] looks
    the type up as the declaration spells it.  So on a registry whose keys
    are in lower case, which registration of ASCII names keeps so, a tool
    whose type is not in lower case is accepted by the validation of its
    kind when it is none of function, computer and local_shell, and stops
    [Build] with the error that its type is not registered. *)
Theorem Build_tools_type_as_written (b : Builder) (req : WorkflowRequest)
    (item : pendingConfig) (decl : ToolDeclaration) (rest : list ToolDeclaration)
    (agentMap : gmap string AgentObject) :
  lowerCaseKeys b -> ToLower (td_Type decl) <> td_Type decl ->
  Build_tools b req item (decl :: rest) agentMap
  = inl (Errorf "agent %q tool type %q not registered"
           [ArgQ (ad_Name (pc_decl item)); ArgQ (td_Type decl)])
  /\ (TrimSpace (td_Type decl) <> "" ->
      ~ In (ToLower (td_Type decl)) ["function"; "computer"; "local_shell"] ->
      validateToolKind decl = None)
  /\ (forall name factory, isASCII name = true ->
        lowerCaseKeys (WithHostedMCPTool name factory b)).
Proof.
  intros Hkeys Hcase. split; [|split].
  - cbn [Build_tools].
    destruct (b_ToolFactories b !! td_Type decl) as [factory|] eqn:E; [|reflexivity].
    exfalso. apply Hcase. apply Hkeys. exists factory. exact E.
  - intros Hne Hkind. unfold validateToolKind.
    apply eqb_neq in Hne. rewrite Hne.
    destruct (eqb (ToLower (td_Type decl)) "function") eqn:E1.
    { apply eqb_eq in E1. exfalso. apply Hkind. rewrite E1. simpl. auto. }
    destruct (eqb (ToLower (td_Type decl)) "computer") eqn:E2.
    { apply eqb_eq in E2. exfalso. apply Hkind. rewrite E2. simpl. auto. }
    destruct (eqb (ToLower (td_Type decl)) "local_shell") eqn:E3.
    { apply eqb_eq in E3. exfalso. apply Hkind. rewrite E3. simpl. auto. }
    reflexivity.
  - intros name factory Hascii key [f Hf]. unfold WithHostedMCPTool in Hf. simpl in Hf.
    destruct (decide (ToLower name = key)) as [<-|Hne].
    + apply ToLower_idem_ASCII. exact Hascii.
    + rewrite lookup_insert_ne in Hf by exact Hne. apply Hkeys. eauto.
Qed.

End Tools.

(** *** What [Build] makes of the declarations *)

Section Wiring.
Context `{S : AgentsSDK}.
Variable configureAgent :
  Builder -> WorkflowRequest -> AgentDeclaration -> ConfigStep * error + AgentConfig.

Lemma validated_names (req : WorkflowRequest) :
  ValidateWorkflowRequest req = None ->
  NoDup (List.map ad_Name (wd_Agents (req_Workflow req))).
Proof.
  intros H. apply ValidateWorkflowRequest_workflow in H.
  unfold validateWorkflowDeclaration in H.
  destruct (eqb (wd_Name (req_Workflow req)) ""); [discriminate|].
  destruct (eqb (wd_StartingAgent (req_Workflow req)) ""); [discriminate|].
  destruct (List.length (wd_Agents (req_Workflow req)) =? 0)%nat; [discriminate|].
  destruct (validateAgents 0 (wd_Agents (req_Workflow req)) ∅) as [err|seen] eqn:Eseen;
    [discriminate|].
  apply (validateAgents_names _ _ _ _ Eseen).
Qed.

Lemma Build_agents_keeps (b : Builder) (req : WorkflowRequest)
    (decls : list AgentDeclaration) :
  forall agentMap pending agentMap' pending',
    Build_agents configureAgent b req decls agentMap pending = inr (agentMap', pending') ->
    forall name, ~ In name (List.map ad_Name decls) -> agentMap' !! name = agentMap !! name.
Proof.
  induction decls as [|decl rest IH]; intros m p m' p' H name Hnot; simpl in H.
  - injection H as <- <-. reflexivity.
  - destruct (configureAgent b req decl) as [[step err]|config]; [discriminate|].
    rewrite (IH _ _ _ _ H name) by (intros Hin; apply Hnot; right; exact Hin).
    apply lookup_insert_ne. intros Heq. apply Hnot. left. exact Heq.
Qed.

Lemma Build_agents_entries (b : Builder) (req : WorkflowRequest)
    (decls : list AgentDeclaration) :
  forall agentMap pending agentMap' pending',
    Build_agents configureAgent b req decls agentMap pending = inr (agentMap', pending') ->
    NoDup (List.map ad_Name decls) ->
    forall decl, In decl decls ->
      exists config,
        configureAgent b req decl = inr config
        /\ agentMap' !! ad_Name decl
           = Some {| agent_config := config; agent_Handoffs := []; agent_Tools := [] |}.
Proof.
  induction decls as [|d rest IH]; intros m p m' p' H Hnd decl Hin; [destruct Hin|].
  simpl in H, Hnd. apply NoDup_cons in Hnd as (Hfresh & Hnd).
  destruct (configureAgent b req d) as [[step err]|config] eqn:Ec; [discriminate|].
  destruct Hin as [<-|Hin].
  - exists config. split; [exact Ec|].
    rewrite (Build_agents_keeps b req rest _ _ _ _ H).
    + apply lookup_insert_eq.
    + intros Hin. apply Hfresh. apply list_elem_of_In. exact Hin.
  - eapply IH; eauto.
Qed.

Lemma Build_handoffs_result (agentMap : gmap string AgentObject) (item : pendingConfig)
    (refs : list AgentHandoffDeclaration) :
  forall handoffAgents l,
    Build_handoffs agentMap item refs handoffAgents = inr l ->
    l = handoffAgents ++ List.map ahd_Agent refs.
Proof.
  induction refs as [|ref rest IH]; intros acc l H; simpl in H.
  - injection H as <-. rewrite app_nil_r. reflexivity.
  - destruct (agentMap !! ahd_Agent ref); [|discriminate].
    apply IH in H. rewrite H, <- app_assoc. reflexivity.
Qed.

Lemma addTools_fmap_nil (o : option AgentObject) : addTools [] <$> o = o.
Proof.
  destruct o as [[c h t]|]; [|reflexivity]. unfold addTools. simpl.
  rewrite app_nil_r. reflexivity.
Qed.

Lemma addTools_fmap_cons (tool : AgentTool) (tools : list AgentTool)
    (o : option AgentObject) :
  addTools tools <$> (AddTool tool <$> o) = addTools (tool :: tools) <$> o.
Proof.
  destruct o as [[c h t]|]; [|reflexivity]. unfold addTools, AddTool. simpl.
  rewrite <- app_assoc. reflexivity.
Qed.

Lemma Build_agentTools_lookup (b : Builder) (item : pendingConfig)
    (refs : list AgentToolReference) :
  forall agentMap agentMap' : gmap string AgentObject,
    Build_agentTools b item refs agentMap = inr agentMap' ->
    forall name,
      agentMap' !! name
      = if decide (pc_agent item = name)
        then addTools (List.map (agentAsTool b) refs) <$> agentMap !! name
        else agentMap !! name.
Proof.
  induction refs as [|ref rest IH]; intros m m' H name; simpl in H.
  - injection H as <-. simpl. rewrite addTools_fmap_nil.
    destruct (decide _); reflexivity.
  - destruct (m !! atr_AgentName ref); [|discriminate].
    assert (exists extractor,
               (if negb (eqb (TrimSpace (atr_OutputExtractor ref)) "")
                then b_AgentToolExtractors b !! atr_OutputExtractor ref else None)
               = extractor
               /\ Build_agentTools b item rest
                    (alter (AddTool (AsTool (atr_AgentName ref) (atr_ToolName ref)
                                       (atr_Description ref) extractor))
                       (pc_agent item) m) = inr m') as (extractor & Hex & Hrest).
    { destruct (negb (eqb (TrimSpace (atr_OutputExtractor ref)) "")).
      - destruct (b_AgentToolExtractors b !! atr_OutputExtractor ref) as [e|];
          [|discriminate]. eauto.
      - eauto. }
    rewrite (IH _ _ Hrest name), lookup_alter.
    destruct (decide (pc_agent item = name)) as [<-|Hne]; [|reflexivity].
    rewrite addTools_fmap_cons. unfold agentAsTool at 2. cbn [List.map].
    rewrite Hex. reflexivity.
Qed.

Lemma Build_tools_lookup (b : Builder) (req : WorkflowRequest) (item : pendingConfig)
    (toolDecls : list ToolDeclaration) :
  forall agentMap agentMap' : gmap string AgentObject,
    Build_tools b req item toolDecls agentMap = inr agentMap' ->
    exists tools,
      List.length tools = List.length toolDecls
      /\ forall name,
           agentMap' !! name
           = if decide (pc_agent item = name)
             then addTools (List.map FactoryTool tools) <$> agentMap !! name
             else agentMap !! name.
Proof.
  induction toolDecls as [|toolDecl rest IH]; intros m m' H; simpl in H.
  - injection H as <-. exists []. split; [reflexivity|]. intros name. simpl.
    rewrite addTools_fmap_nil. destruct (decide _); reflexivity.
  - destruct (b_ToolFactories b !! td_Type toolDecl) as [factory|]; [|discriminate].
    destruct (factory toolDecl _) as [err|tool]; [discriminate|].
    destruct (IH _ _ H) as (tools & Hlen & Hlookup).
    exists (tool :: tools). split; [simpl; rewrite Hlen; reflexivity|].
    intros name. rewrite Hlookup, lookup_alter.
    destruct (decide (pc_agent item = name)) as [<-|Hne]; [|reflexivity].
    rewrite addTools_fmap_cons. reflexivity.
Qed.

(** What the second loop does for one item, in its three stages. *)
Lemma Build_attach_item (b : Builder) (req : WorkflowRequest) (item : pendingConfig)
    (agentMap m1 m2 m3 : gmap string AgentObject) :
  (if (0 <? List.length (ad_Handoffs (pc_decl item)))%nat then
     match Build_handoffs agentMap item (ad_Handoffs (pc_decl item)) [] with
     | inl err => inl err
     | inr handoffAgents =>
         inr (alter (WithAgentHandoffs handoffAgents) (pc_agent item) agentMap)
     end
   else inr agentMap) = inr m1 ->
  Build_agentTools b item (pc_agentTools item) m1 = inr m2 ->
  Build_tools b req item (pc_toolDecls item) m2 = inr m3 ->
  (forall name, name <> pc_agent item -> m3 !! name = agentMap !! name)
  /\ forall a, agentMap !! pc_agent item = Some a -> agent_Handoffs a = [] ->
       agent_Tools a = [] ->
       exists tools,
         List.length tools = List.length (pc_toolDecls item)
         /\ m3 !! pc_agent item
            = Some {| agent_config := agent_config a;
                      agent_Handoffs := List.map ahd_Agent (ad_Handoffs (pc_decl item));
                      agent_Tools := List.map (agentAsTool b) (pc_agentTools item)
                                     ++ List.map FactoryTool tools |}.
Proof.
  intros H1 H2 H3.
  assert ((forall name, name <> pc_agent item -> m1 !! name = agentMap !! name)
          /\ (forall a, agentMap !! pc_agent item = Some a -> agent_Handoffs a = [] ->
                m1 !! pc_agent item
                = Some {| agent_config := agent_config a;
                          agent_Handoffs :=
                            List.map ahd_Agent (ad_Handoffs (pc_decl item));
                          agent_Tools := agent_Tools a |})) as (Hframe1 & Hitem1).
  { destruct (0 <? List.length (ad_Handoffs (pc_decl item)))%nat eqn:Elen.
    - destruct (Build_handoffs agentMap item (ad_Handoffs (pc_decl item)) [])
        as [err|l] eqn:Eh; [discriminate|].
      apply Build_handoffs_result in Eh. simpl in Eh. subst l.
      injection H1 as <-. split.
      + intros name Hne. apply lookup_alter_ne. congruence.
      + intros a Ha _. rewrite lookup_alter_eq, Ha. reflexivity.
    - injection H1 as <-. split; [auto|].
      intros a Ha Hh. rewrite Ha.
      apply Nat.ltb_ge in Elen.
      destruct (ad_Handoffs (pc_decl item)); [|simpl in Elen; lia].
      destruct a as [c h t]. simpl in *. subst h. reflexivity. }
  pose proof (Build_agentTools_lookup b item _ _ _ H2) as L2.
  destruct (Build_tools_lookup b req item _ _ _ H3) as (tools & Hlen & L3).
  split.
  - intros name Hne. rewrite L3, L2.
    destruct (decide (pc_agent item = name)); [congruence|]. auto.
  - intros a Ha Hh Ht. exists tools. split; [exact Hlen|].
    rewrite L3, L2. destruct (decide (pc_agent item = pc_agent item)); [|congruence].
    rewrite (Hitem1 a Ha Hh). simpl. unfold addTools. simpl.
    rewrite Ht. reflexivity.
Qed.

Lemma Build_attach_lookup (b : Builder) (req : WorkflowRequest)
    (pending : list pendingConfig) :
  forall agentMap agentMap' : gmap string AgentObject,
    Build_attach b req pending agentMap = inr agentMap' ->
    NoDup (List.map pc_agent pending) ->
    (forall name, ~ In name (List.map pc_agent pending) ->
                  agentMap' !! name = agentMap !! name)
    /\ forall item, In item pending ->
       forall a, agentMap !! pc_agent item = Some a -> agent_Handoffs a = [] ->
         agent_Tools a = [] ->
         exists tools,
           List.length tools = List.length (pc_toolDecls item)
           /\ agentMap' !! pc_agent item
              = Some {| agent_config := agent_config a;
                        agent_Handoffs :=
                          List.map ahd_Agent (ad_Handoffs (pc_decl item));
                        agent_Tools := List.map (agentAsTool b) (pc_agentTools item)
                                       ++ List.map FactoryTool tools |}.
Proof.
  induction pending as [|item rest IH]; intros m m' H Hnd.
  - simpl in H. injection H as <-. split; [auto|]. intros item [].
  - simpl in Hnd. apply NoDup_cons in Hnd as (Hfresh & Hnd).
    cbn [Build_attach] in H.
    destruct (if (0 <? List.length (ad_Handoffs (pc_decl item)))%nat then _ else _)
      as [e|m1] eqn:E1; [discriminate|].
    destruct (Build_agentTools b item (pc_agentTools item) m1) as [e|m2] eqn:E2;
      [discriminate|].
    destruct (Build_tools b req item (pc_toolDecls item) m2) as [e|m3] eqn:E3;
      [discriminate|].
    destruct (Build_attach_item b req item m m1 m2 m3 E1 E2 E3) as (Hframe & Hitem).
    destruct (IH _ _ H Hnd) as (IHframe & IHitems).
    split.
    + intros name Hnot. rewrite IHframe by (intros Hin; apply Hnot; right; exact Hin).
      apply Hframe. intros ->. apply Hnot. left. reflexivity.
    + intros it [<-|Hin] a Ha Hh Ht.
      * destruct (Hitem a Ha Hh Ht) as (tools & Hlen & Hm3).
        exists tools. split; [exact Hlen|].
        rewrite IHframe; [exact Hm3|].
        intros Hin. apply Hfresh. apply list_elem_of_In. exact Hin.
      * apply (IHitems it Hin a); [|exact Hh|exact Ht].
        rewrite Hframe; [exact Ha|].
        intros Heq. apply Hfresh. apply list_elem_of_In. rewrite <- Heq.
        apply in_map. exact Hin.
Qed.

(** X15.  The agents [Build] returns are wired as declared.  When [Build]
    succeeds on a request, every declared agent is in the agent map under
    its name, with the configuration the first loop gave it; its handoffs
    are the agents its declaration hands off to, in the declared order; and
    its tools are one tool for each agent it uses as a tool, in order,
    followed by one tool from a factory for each tool and each MCP server
    it declares. *)
Theorem Build_wires_agents (b : Builder) (req : WorkflowRequest) (result : BuildResult) :
  Build configureAgent b req = inr result ->
  forall decl, In decl (wd_Agents (req_Workflow req)) ->
    exists config tools,
      configureAgent b req decl = inr config
      /\ List.length tools
         = (List.length (ad_Tools decl) + List.length (ad_MCPServers decl))%nat
      /\ br_AgentMap result !! ad_Name decl
         = Some {| agent_config := config;
                   agent_Handoffs := List.map ahd_Agent (ad_Handoffs decl);
                   agent_Tools := List.map (agentAsTool b) (ad_AgentTools decl)
                                  ++ List.map FactoryTool tools |}.
Proof.
  unfold Build. intros H decl Hin.
  destruct (ValidateWorkflowRequest req) eqn:Hvalid; [discriminate|].
  pose proof (validated_names req Hvalid) as Hnd.
  destruct (Build_session b req) as [e|session]; [discriminate|].
  pose proof (Build_agents_spec configureAgent b req (wd_Agents (req_Workflow req)) ∅ [])
    as Hspec.
  destruct (Build_agents configureAgent b req (wd_Agents (req_Workflow req)) ∅ [])
    as [e|[agentMap pending]] eqn:Eagents; [discriminate|].
  destruct Hspec as (_ & Hpending). simpl in Hpending.
  destruct (Build_agents_entries b req _ _ _ _ _ Eagents Hnd decl Hin) as (config & Hc & Ha).
  destruct (Build_attach b req pending agentMap) as [e|agentMap'] eqn:Eattach;
    [discriminate|].
  assert (List.map pc_agent pending = List.map ad_Name (wd_Agents (req_Workflow req)))
    as Hkeys.
  { rewrite Hpending, List.map_map. reflexivity. }
  destruct (Build_attach_lookup b req pending _ _ Eattach) as (_ & Hitems).
  { rewrite Hkeys. exact Hnd. }
  destruct (Hitems (pendingOf decl)) with
    (a := {| agent_config := config; agent_Handoffs := []; agent_Tools := [] |})
    as (tools & Hlen & Hlookup); try reflexivity.
  { rewrite Hpending. apply in_map. exact Hin. }
  { exact Ha. }
  exists config, tools. split; [exact Hc|]. split.
  { rewrite Hlen. simpl. rewrite length_app. unfold toolsFromMCP. rewrite length_map.
    reflexivity. }
  unfold Build_result in H.
  destruct (agentMap' !! wd_StartingAgent (req_Workflow req)); [|discriminate].
  destruct (buildRunHooks b _); [discriminate|].
  injection H as <-. exact Hlookup.
Qed.

(** X16.  The session of a build.  [Build] acquires a session exactly when
    the request carries no inputs: then the factory resolved for the
    session declaration made it, and the run is configured with it and
    with the declared history size as its memory limit when that is
    positive.  A request with inputs is built without a session and without
    a memory limit, and its persistent store is not even resolved.  In both
    cases the runner groups the run under the session ID and takes the
    declared turn limit when it is positive. *)
Theorem Build_session_iff_no_inputs (b : Builder) (req : WorkflowRequest)
    (result : BuildResult) :
  Build configureAgent b req = inr result ->
  rc_Session (br_Runner result) = br_Session result
  /\ rc_GroupID (br_Runner result) = sd_SessionID (req_Session req)
  /\ rc_MaxTurns (br_Runner result)
     = (if (0 <? sd_MaxTurns (req_Session req))%Z
        then sd_MaxTurns (req_Session req) mod 2 ^ 64 else 0)%Z
  /\ (req_Inputs req = [] ->
      exists factory session,
        resolveSessionFactory b (req_Session req) = inr factory
        /\ factory (req_Session req) = inr session
        /\ br_Session result = Some session
        /\ rc_LimitMemory (br_Runner result)
           = (if (0 <? sd_HistorySize (req_Session req))%Z
              then sd_HistorySize (req_Session req) else 0)%Z)
  /\ (req_Inputs req <> [] ->
      br_Session result = None /\ rc_LimitMemory (br_Runner result) = 0%Z).
Proof.
  unfold Build. intros H.
  destruct (ValidateWorkflowRequest req); [discriminate|].
  destruct (Build_session b req) as [e|session] eqn:Es; [discriminate|].
  destruct (Build_agents configureAgent b req _ _ _) as [e|[agentMap pending]];
    [discriminate|].
  destruct (Build_attach b req pending agentMap) as [e|agentMap']; [discriminate|].
  unfold Build_result in H.
  destruct (agentMap' !! wd_StartingAgent (req_Workflow req)); [|discriminate].
  destruct (buildRunHooks b _); [discriminate|].
  injection H as <-. cbn.
  split; [reflexivity|]. split; [reflexivity|]. split; [reflexivity|].
  unfold Build_session in Es. split.
  - intros Hnil. rewrite Hnil in Es. simpl in Es.
    destruct (resolveSessionFactory b (req_Session req)) as [e|factory]; [discriminate|].
    destruct (factory (req_Session req)) as [e|acquired] eqn:Ef; [discriminate|].
    injection Es as <-. exists factory, acquired. auto.
  - intros Hne. destruct (req_Inputs req) as [|input rest]; [congruence|].
    simpl in Es. injection Es as <-. auto.
Qed.

End Wiring.

(** *** Messages *)

Lemma TrimSpace_empty : TrimSpace "" = "".
Proof. reflexivity. Qed.

Lemma trimLeftASCII_head (s : string) :
  match trimLeftASCII s with
  | EmptyString => True
  | String c _ => asciiSpace c = false
  end.
Proof.
  induction s as [|c s IH]; simpl; [exact I|].
  destruct (asciiSpace c) eqn:E; [exact IH|exact E].
Qed.

Lemma trimLeftASCII_fixed (s : string) :
  match s with
  | EmptyString => True
  | String c _ => asciiSpace c = false
  end -> trimLeftASCII s = s.
Proof. destruct s as [|c s]; simpl; [reflexivity|]. intros ->. reflexivity. Qed.

Lemma trimRightASCII_head (s : string) :
  match s with
  | EmptyString => True
  | String c _ => asciiSpace c = false
  end ->
  match trimRightASCII s with
  | EmptyString => True
  | String c _ => asciiSpace c = false
  end.
Proof.
  destruct s as [|c s]; simpl; [auto|]. intros Hc.
  destruct (trimRightASCII s); [rewrite Hc|]; exact Hc.
Qed.

Lemma trimRightASCII_idem (s : string) :
  trimRightASCII (trimRightASCII s) = trimRightASCII s.
Proof.
  induction s as [|c s IH]; [reflexivity|]. simpl.
  destruct (trimRightASCII s) as [|c' t] eqn:E.
  - destruct (asciiSpace c) eqn:Ec; [reflexivity|]. simpl. rewrite Ec. reflexivity.
  - simpl in *. rewrite IH. reflexivity.
Qed.

(** On ASCII text [strings.TrimSpace] leaves its own results alone. *)
Lemma TrimSpace_idem_ASCII (s : string) :
  isASCII s = true -> TrimSpace (TrimSpace s) = TrimSpace s.
Proof.
  intros H. rewrite (TrimSpace_ASCII s H).
  rewrite TrimSpace_ASCII by (apply isASCII_trimRightASCII, isASCII_trimLeftASCII, H).
  rewrite trimLeftASCII_fixed.
  - apply trimRightASCII_idem.
  - apply trimRightASCII_head, trimLeftASCII_head.
Qed.

Section Messages.
Context {ResponseInputAudioParam : Type}.
Variable getString : list (string * value) -> string -> string * bool.
Variable json_Marshal : list (string * value) -> error + string.
Variable json_Unmarshal_EasyInputMessageContentUnionParam :
  string -> error + EasyInputMessageContentUnionParam (ResponseInputAudioParam :=
                                                        ResponseInputAudioParam).
Variable json_Unmarshal_ResponseInputContentUnionParam :
  string -> error + ResponseInputContentUnionParam (ResponseInputAudioParam :=
                                                     ResponseInputAudioParam).

#[local] Abbreviation buildContentUnion :=
  (buildContentUnion getString json_Marshal json_Unmarshal_ResponseInputContentUnionParam).
#[local] Abbreviation buildMessageContentList :=
  (buildMessageContentList getString json_Marshal
     json_Unmarshal_ResponseInputContentUnionParam).
#[local] Abbreviation buildMessageContentList_loop :=
  (buildMessageContentList_loop getString json_Marshal
     json_Unmarshal_ResponseInputContentUnionParam).
#[local] Abbreviation buildMessageInput :=
  (buildMessageInput getString json_Marshal
     json_Unmarshal_EasyInputMessageContentUnionParam
     json_Unmarshal_ResponseInputContentUnionParam).

Lemma buildMessageContentList_loop_spec (parts : list value) :
  forall idx result,
    match buildMessageContentList_loop idx parts result with
    | inr list =>
        exists converted,
          list = result ++ converted
          /\ Forall2 (fun part content => buildContentUnion part = inr content)
               parts converted
    | inl err =>
        exists i part e,
          parts !! i = Some part
          /\ buildContentUnion part = inl e
          /\ err = Errorf_w "content[%d]: %w" [ArgD (Z.of_nat (idx + i))] e
          /\ forall j earlier, (j < i)%nat -> parts !! j = Some earlier ->
               exists content, buildContentUnion earlier = inr content
    end.
Proof.
  induction parts as [|part rest IH]; intros idx result; simpl.
  - exists []. rewrite app_nil_r. split; [reflexivity|constructor].
  - destruct (buildContentUnion part) as [e|content] eqn:E.
    + exists 0%nat, part, e. rewrite Nat.add_0_r.
      split; [reflexivity|]. split; [exact E|]. split; [reflexivity|].
      intros j earlier Hj. lia.
    + specialize (IH (S idx) (result ++ [content])).
      destruct (buildMessageContentList_loop (S idx) rest (result ++ [content]))
        as [err|list].
      * destruct IH as (i & p & e & Hi & Hp & -> & Hearlier).
        exists (S i), p, e. split; [exact Hi|]. split; [exact Hp|]. split.
        { replace (idx + S i)%nat with (S idx + i)%nat by lia. reflexivity. }
        intros [|j] earlier Hj Hlook; simpl in Hlook.
        { injection Hlook as <-. eauto. }
        { apply (Hearlier j earlier); [lia|exact Hlook]. }
      * destruct IH as (converted & -> & Hall).
        exists (content :: converted). rewrite <- app_assoc.
        split; [reflexivity|]. constructor; assumption.
Qed.

(** X17.  A content list is converted as a whole.  [buildMessageContentList]
    rejects an empty list.  Otherwise it returns the conversions of the
    parts, one for each part and in their order, when every part converts;
    and when one does not, the error of the first such part, marked with
    the index of that part, every part in front of it having converted. *)
Theorem buildMessageContentList_spec (parts : list value) :
  match buildMessageContentList parts with
  | inr list =>
      parts <> []
      /\ Forall2 (fun part content => buildContentUnion part = inr content) parts list
  | inl err =>
      (parts = [] /\ err = Errorf "message content list cannot be empty" [])
      \/ exists i part e,
           parts !! i = Some part
           /\ buildContentUnion part = inl e
           /\ err = Errorf_w "content[%d]: %w" [ArgD (Z.of_nat i)] e
           /\ forall j earlier, (j < i)%nat -> parts !! j = Some earlier ->
                exists content, buildContentUnion earlier = inr content
  end.
Proof.
  unfold Workflow.buildMessageContentList.
  destruct parts as [|part rest]; [left; auto|].
  change (List.length (part :: rest) =? 0)%nat with false. cbv iota.
  pose proof (buildMessageContentList_loop_spec (part :: rest) 0 []) as H.
  destruct (buildMessageContentList_loop 0 (part :: rest) []) as [err|list].
  - right. exact H.
  - destruct H as (converted & -> & Hall). split; [discriminate|exact Hall].
Qed.

(** X18.  Text inputs.  An input of type text, in any spelling of upper and lower case, is
    converted as a message whose role is the given role, or user when none
    is given.  With a string as content the message carries that string
    unchanged, whatever the uri.  With no content and a uri, the trimmed
    uri itself is the text of the message.  With neither the input is
    rejected. *)
Theorem text_input_conversion (input : WorkflowInput) :
  ToLower (TrimSpace (wi_Type input)) = "text" ->
  let role := if eqb (TrimSpace (wi_Role input)) "" then "user" else wi_Role input in
  let asMessage text :=
    match normalizeMessageRole role with
    | inl err => Some (inl err)
    | inr role =>
        Some (inr {| OfMessage :=
                       Some {| msg_Role := role; msg_Content := contentString text |} |})
    end in
  (forall text, wi_Content input = Str text ->
     workflowInputToResponseItem buildMessageInput input = asMessage text)
  /\ (wi_Content input = Nil -> TrimSpace (wi_URI input) <> "" ->
      workflowInputToResponseItem buildMessageInput input
      = asMessage (TrimSpace (wi_URI input)))
  /\ (wi_Content input = Nil -> TrimSpace (wi_URI input) = "" ->
      workflowInputToResponseItem buildMessageInput input
      = Some (inl (Errorf "text input requires content or uri" []))).
Proof.
  intros Htype role asMessage.
  unfold workflowInputToResponseItem.
  cbn [workflowInputToResponseItem_fuel]. rewrite Htype.
  change (eqb "text" "message") with false. change (eqb "text" "text") with true.
  cbv iota. unfold withMessageType. cbn [wi_Type]. rewrite message_type_lower.
  change (eqb "message" "message") with true. cbv iota.
  unfold Workflow.buildMessageInput. cbn [wi_Role wi_Content wi_URI].
  fold role. unfold asMessage.
  split; [|split].
  - intros text Hc. rewrite Hc. cbn [is_nil andb].
    destruct (normalizeMessageRole role); reflexivity.
  - intros Hc Huri. rewrite Hc. apply eqb_neq in Huri. rewrite Huri.
    cbn [is_nil andb negb].
    destruct (normalizeMessageRole role); reflexivity.
  - intros Hc Huri. rewrite Hc. apply eqb_eq in Huri. rewrite Huri.
    reflexivity.
Qed.

(** X19.  The image shortcut.  Suppose [getString] returns the string a key
    of a map holds.  An input of type image that gives an ASCII uri, no
    content and no role is converted into a message of the user with one
    content part: an image whose URL is the trimmed uri, with the detail
    auto and no file ID. *)
Theorem image_shortcut_conversion (input : WorkflowInput) :
  (forall m key, getString m key = stringAt m key) ->
  ToLower (TrimSpace (wi_Type input)) = "image" ->
  wi_Content input = Nil -> TrimSpace (wi_Role input) = "" ->
  isASCII (wi_URI input) = true -> TrimSpace (wi_URI input) <> "" ->
  workflowInputToResponseItem buildMessageInput input
  = Some (inr {| OfMessage :=
                   Some {| msg_Role := EasyInputMessageRoleUser;
                           msg_Content :=
                             contentList
                               [imageContent
                                  {| image_Detail := ResponseInputImageDetailAuto;
                                     image_ImageURL := Some (TrimSpace (wi_URI input));
                                     image_FileID := None |}] |} |}).
Proof.
  intros Hget Htype Hc Hrole Hascii Huri.
  pose proof (TrimSpace_idem_ASCII _ Hascii) as Hidem.
  unfold workflowInputToResponseItem.
  cbn [workflowInputToResponseItem_fuel]. rewrite Htype.
  change (eqb "image" "message") with false. change (eqb "image" "text") with false.
  change (eqb "image" "image") with true. cbv iota.
  apply eqb_neq in Huri. rewrite Huri, Hc. cbn [andb is_nil wi_Type].
  rewrite message_type_lower. change (eqb "message" "message") with true. cbv iota.
  unfold defaultString. apply eqb_eq in Hrole. rewrite Hrole.
  unfold Workflow.buildMessageInput. cbn [wi_Role wi_Content wi_URI is_nil andb].
  change (normalizeMessageRole (TrimSpace "user")) with
    (@inr error _ EasyInputMessageRoleUser). cbv iota beta.
  unfold Workflow.buildMessageContentList.
  cbn [List.length Nat.eqb Workflow.buildMessageContentList_loop].
  unfold Workflow.buildContentUnion at 1. rewrite !Hget.
  unfold trimmedField. rewrite !Hget.
  unfold stringAt. cbn [map_index eqb String.eqb Ascii.eqb Bool.eqb].
  unfold defaultString.
  change (eqb (TrimSpace "input_image") "") with false. cbv iota.
  change (ToLower (TrimSpace "input_image")) with "input_image".
  change (oneOf "input_image" ["input_text"; "text"]) with false.
  change (oneOf "input_image" ["input_image"; "image"]) with true. cbv iota.
  cbn [andb negb]. rewrite Hidem, Huri. cbn [negb].
  cbn [image_ImageURL image_FileID].
  rewrite bool_decide_eq_true_2 by eauto. cbn [negb andb app].
  reflexivity.
Qed.

End Messages.

(** *** The steps of the builder against the validator *)

Section HooksCalls.
Context {W Hook Call : Type}.
Variable invoke : Hook -> Call -> W -> option error * W.

Lemma combinedHooks_call_app (c1 c2 : list (option Hook)) (call : Call) (w : W) :
  combinedHooks_call invoke (c1 ++ c2) call w =
  match combinedHooks_call invoke c1 call w with
  | (Some err, w) => (Some err, w)
  | (None, w) => combinedHooks_call invoke c2 call w
  end.
Proof.
  revert w. induction c1 as [|[hook|] c1 IH]; intros w; simpl.
  - reflexivity.
  - destruct (invoke hook call w) as [[err|] w']; [reflexivity|apply IH].
  - apply IH.
Qed.

(** X20.  Combined hooks stop at the first error.  When the hooks in front
    of a hook have all returned nil and that hook returns an error, the
    combined call returns this error and the world as that hook left it,
    whatever hooks come after it: none of them is called. *)
Theorem combinedHooks_stop_at_first_error (c1 c2 : list (option Hook)) (hook : Hook)
    (call : Call) (w w1 w2 : W) (err : error) :
  combinedHooks_call invoke c1 call w = (None, w1) ->
  invoke hook call w1 = (Some err, w2) ->
  combinedHooks_call invoke (c1 ++ Some hook :: c2) call w = (Some err, w2).
Proof.
  intros H1 H2. rewrite combinedHooks_call_app, H1. simpl. rewrite H2. reflexivity.
Qed.

End HooksCalls.

(** X21.  A tool-use behaviour that validation accepts.  The builder gives
    the agent the behaviour of the mode, with at least one tool name for
    stop_at_tools, or leaves the agent alone for the default; it fails on
    exactly one accepted mode, custom, which validation accepts when a
    handler is named and the builder does not support. *)
Theorem applyToolUseBehavior_validated (decl : option ToolUseBehaviorDeclaration) :
  validateToolUseBehavior decl = None ->
  match applyToolUseBehavior decl with
  | inl err =>
      exists d, decl = Some d
        /\ ToLower (TrimSpace (tub_Mode d)) = "custom"
        /\ TrimSpace (tub_Handler d) <> ""
        /\ err = Errorf "custom tool_use_behavior handler %q not supported yet"
                   [ArgQ (tub_Handler d)]
  | inr (Some (StopAtTools names)) => names <> []
  | inr _ => True
  end.
Proof.
  destruct decl as [d|]; [|intros _; exact I].
  unfold validateToolUseBehavior, applyToolUseBehavior. cbv zeta.
  set (mode := ToLower (TrimSpace (tub_Mode d))).
  destruct (oneOf mode [""; "default"]); [intros _; exact I|].
  unfold oneOf, eqb. cbn [existsb]. rewrite orb_false_r.
  destruct (String.eqb mode "run_llm_again") eqn:E1; [intros _; exact I|].
  destruct (String.eqb mode "stop_on_first_tool") eqn:E2; [intros _; exact I|].
  cbn [orb].
  destruct (String.eqb mode "stop_at_tools") eqn:E3.
  { destruct (tub_ToolNames d); simpl; [discriminate|intros _; discriminate]. }
  destruct (String.eqb mode "custom") eqn:E4; [|discriminate].
  destruct (String.eqb (TrimSpace (tub_Handler d)) "") eqn:E5; [discriminate|].
  intros _. exists d. split; [reflexivity|]. split; [apply String.eqb_eq; exact E4|].
  split; [apply String.eqb_neq; exact E5|reflexivity].
Qed.

Section ToolKinds.
Context `{S : AgentsSDK} {LocalShellExecutor AgentHooks : Type}.
Variable LocalShellTool : option LocalShellExecutor -> Tool.

(** X22.  A tool declaration that validation accepts names what it refers
    to.  For a declaration of one of the types function, computer and
    local_shell, the step of the builder for that type never fails with its
    error of a missing reference: it goes on to look the reference up in
    its registry. *)
Theorem validated_tool_has_reference (b : Registries (LocalShellExecutor := LocalShellExecutor)
                                            (AgentHooks := AgentHooks))
    (decl : ToolDeclaration) (env : ToolFactoryEnv) :
  validateToolKind decl = None ->
  (td_Type decl = "function" ->
   buildFunctionTool b decl env
   <> inl (errors_New "function tool requires function_ref or name"))
  /\ (td_Type decl = "computer" ->
      buildComputerTool b decl env
      <> inl (errors_New "computer tool requires config.provider or name"))
  /\ (td_Type decl = "local_shell" ->
      buildLocalShellTool LocalShellTool b decl env
      <> inl (errors_New "local_shell tool requires config.executor_ref or name")).
Proof.
  assert (forall name, eqb (TrimSpace name) "" = false -> eqb name "" = false) as Hname.
  { intros name H. apply eqb_neq. intros ->. rewrite TrimSpace_empty in H. discriminate. }
  assert (forall (c : bool) (e : error), (if c then Some e else None) = None -> c = false)
    as Hguard.
  { intros [|] e H; [discriminate|reflexivity]. }
  unfold validateToolKind.
  destruct (eqb (TrimSpace (td_Type decl)) ""); [discriminate|].
  cbv zeta. intros Hvalid.
  split; [|split]; intros Htype; rewrite Htype in Hvalid.
  - change (eqb (ToLower "function") "function") with true in Hvalid. cbv iota in Hvalid.
    apply Hguard in Hvalid.
    unfold buildFunctionTool. cbv zeta.
    set (ref1 := TrimSpace (td_FunctionRef decl)) in *.
    set (ref2 := if eqb ref1 "" then _ else ref1).
    assert (ref2 = if eqb ref1 "" then configString (td_Config decl) "function_ref"
                   else ref1) as Href.
    { unfold ref2, configString, configStringValue.
      destruct (eqb ref1 "") eqn:Eref; [|reflexivity]. apply eqb_eq in Eref.
      destruct (td_Config decl !! "function_ref") as [[]|]; try exact Eref.
      destruct (eqb (TrimSpace s) "") eqn:Econf; [|reflexivity].
      apply eqb_eq in Econf. cbn [negb]. congruence. }
    rewrite <- Href in Hvalid. clearbody ref2.
    set (ref3 := if eqb ref2 "" && negb (eqb (td_Name decl) "") then _ else ref2).
    assert (eqb ref3 "" = false) as ->.
    { unfold ref3. destruct (eqb ref2 "") eqn:E2; [|exact E2].
      cbn [andb] in *. rewrite (Hname _ Hvalid). exact (Hname _ Hvalid). }
    destruct (FunctionToolFactories b !! ref3) as [factory|]; [|discriminate].
    destruct (factory decl env) as [?|[?|]]; discriminate.
  - change (eqb (ToLower "computer") "function") with false in Hvalid.
    change (eqb (ToLower "computer") "computer") with true in Hvalid. cbv iota in Hvalid.
    apply Hguard in Hvalid.
    unfold buildComputerTool. cbv zeta.
    set (provider := match configStringValue _ _ with Some value => _ | None => "" end).
    assert (provider = configString (td_Config decl) "provider") as Hprovider.
    { unfold provider, configString, configStringValue.
      destruct (td_Config decl !! "provider") as [[]|]; reflexivity. }
    rewrite <- Hprovider in Hvalid. clearbody provider.
    set (provider' := if eqb provider "" then _ else provider).
    assert (eqb provider' "" = false) as ->.
    { unfold provider'. destruct (eqb provider "") eqn:E; [|exact E].
      cbn [andb] in *. exact (Hname _ Hvalid). }
    destruct (ComputerToolFactories b !! provider') as [factory|]; [|discriminate].
    destruct (factory decl env) as [?|[?|]]; discriminate.
  - change (eqb (ToLower "local_shell") "function") with false in Hvalid.
    change (eqb (ToLower "local_shell") "computer") with false in Hvalid.
    change (eqb (ToLower "local_shell") "local_shell") with true in Hvalid.
    cbv iota in Hvalid. apply Hguard in Hvalid.
    unfold buildLocalShellTool. cbv zeta.
    set (executorRef := match configStringValue _ _ with Some value => _ | None => "" end).
    assert (executorRef = configString (td_Config decl) "executor_ref") as Hexecutor.
    { unfold executorRef, configString, configStringValue.
      destruct (td_Config decl !! "executor_ref") as [[]|]; reflexivity. }
    rewrite <- Hexecutor in Hvalid. clearbody executorRef.
    set (executorRef' := if eqb executorRef "" then _ else executorRef).
    assert (eqb executorRef' "" = false) as ->.
    { unfold executorRef'. destruct (eqb executorRef "") eqn:E; [|exact E].
      cbn [andb] in *. exact (Hname _ Hvalid). }
    destruct (LocalShellExecutors b !! executorRef'); discriminate.
Qed.

End ToolKinds.

Section Models.
Variable unicode_EqualFold : string -> string -> bool.

Lemma nat_of_ascii_lowerASCIIByte (c : ascii) :
  isASCIIByte c = true ->
  nat_of_ascii (lowerASCIIByte c) =
  (if (65 <=? nat_of_ascii c) && (nat_of_ascii c <=? 90)
   then nat_of_ascii c + 32 else nat_of_ascii c)%nat.
Proof.
  unfold isASCIIByte, lowerASCIIByte. intros H. apply Nat.ltb_lt in H. cbv zeta.
  destruct ((65 <=? nat_of_ascii c) && (nat_of_ascii c <=? 90))%nat; [|reflexivity].
  apply nat_ascii_embedding. lia.
Qed.

Lemma ascii_eqb_nat (a b : ascii) :
  Ascii.eqb a b = (nat_of_ascii a =? nat_of_ascii b)%nat.
Proof.
  destruct (Ascii.eqb_spec a b) as [->|Hne].
  - symmetry. apply Nat.eqb_refl.
  - symmetry. apply Nat.eqb_neq. intros H. apply Hne.
    rewrite <- (ascii_nat_embedding a), <- (ascii_nat_embedding b), H. reflexivity.
Qed.

Lemma foldsTo_lowerASCIIByte (a b : ascii) :
  isASCIIByte a = true -> isASCIIByte b = true ->
  foldsTo a b = Ascii.eqb (lowerASCIIByte a) (lowerASCIIByte b).
Proof.
  intros Ha Hb. rewrite ascii_eqb_nat, !nat_of_ascii_lowerASCIIByte by assumption.
  unfold foldsTo. cbv zeta.
  generalize (nat_of_ascii a) (nat_of_ascii b). intros n m.
  destruct (65 <=? n)%nat eqn:E1, (n <=? 90)%nat eqn:E2,
           (65 <=? m)%nat eqn:E3, (m <=? 90)%nat eqn:E4; cbn [andb orb];
    rewrite ?orb_false_r;
    repeat match goal with
           | H : (_ <=? _)%nat = true |- _ => apply Nat.leb_le in H
           | H : (_ <=? _)%nat = false |- _ => apply Nat.leb_gt in H
           end;
    repeat match goal with
           | |- context [(?x =? ?y)%nat] => destruct (Nat.eqb_spec x y)
           end; cbn [orb]; try reflexivity; lia.
Qed.

Lemma EqualFold_lowerASCII (s : string) :
  forall t, isASCII s = true -> isASCII t = true ->
    EqualFold unicode_EqualFold s t = String.eqb (lowerASCII s) (lowerASCII t).
Proof.
  induction s as [|a s IH]; intros [|b t] Hs Ht; try reflexivity.
  simpl in Hs, Ht. apply andb_prop in Hs as [Ha Hs]. apply andb_prop in Ht as [Hb Ht].
  cbn [EqualFold lowerASCII String.eqb]. rewrite Ha, Hb. cbn [negb orb].
  rewrite foldsTo_lowerASCIIByte by assumption.
  destruct (Ascii.eqb (lowerASCIIByte a) (lowerASCIIByte b)); [apply IH; assumption|].
  reflexivity.
Qed.

(** X23.  The model declarations the builder accepts.  For a provider
    written in ASCII, [applyModelDeclaration] returns settings exactly when
    the provider is blank or is openai in some spelling of upper and lower
    case (with no space around it), the model name is not blank, and the
    verbosity is empty or one of low, medium and high in some spelling. *)
Theorem applyModelDeclaration_accepts (decl : ModelDeclaration) :
  isASCII (md_Provider decl) = true ->
  (exists settings, applyModelDeclaration unicode_EqualFold decl = inr settings)
  <-> (TrimSpace (md_Provider decl) = "" \/ ToLower (md_Provider decl) = "openai")
      /\ TrimSpace (md_Model decl) <> ""
      /\ (md_Verbosity decl = ""
          \/ oneOf (ToLower (md_Verbosity decl)) ["low"; "medium"; "high"] = true).
Proof.
  intros Hascii. unfold applyModelDeclaration.
  rewrite (EqualFold_lowerASCII _ "openai" Hascii eq_refl).
  change (lowerASCII "openai") with "openai".
  replace (ToLower (md_Provider decl)) with (lowerASCII (md_Provider decl))
    by (unfold ToLower; rewrite Hascii; reflexivity).
  destruct (eqb (TrimSpace (md_Provider decl)) "") eqn:Eprovider; cbn [negb andb].
  2: destruct (String.eqb (lowerASCII (md_Provider decl)) "openai") eqn:Eopenai;
     cbn [negb].
  3: { apply eqb_neq in Eprovider. apply String.eqb_neq in Eopenai.
       split; [intros [settings H]; discriminate|]. intros ([H|H] & _); contradiction. }
  all: assert (TrimSpace (md_Provider decl) = ""
               \/ lowerASCII (md_Provider decl) = "openai") as Hprovider
         by (first [left; apply eqb_eq; exact Eprovider
                   |right; apply String.eqb_eq; exact Eopenai]).
  all: destruct (eqb (TrimSpace (md_Model decl)) "") eqn:Emodel;
       [apply eqb_eq in Emodel; split;
          [intros [settings H]; discriminate|intros (_ & H & _); contradiction]
       |apply eqb_neq in Emodel].
  all: destruct (eqb (md_Verbosity decl) "") eqn:Everbosity; cbn [negb];
       [apply eqb_eq in Everbosity; split; [intros _; auto|intros _; eauto]
       |apply eqb_neq in Everbosity].
  all: unfold oneOf; cbn [existsb]; rewrite orb_false_r; unfold eqb;
       destruct (String.eqb (ToLower (md_Verbosity decl)) "low");
       [split; [intros _; auto|intros _; eauto]|];
       destruct (String.eqb (ToLower (md_Verbosity decl)) "medium");
       [split; [intros _; auto|intros _; eauto]|];
       destruct (String.eqb (ToLower (md_Verbosity decl)) "high");
       [split; [intros _; auto|intros _; eauto]|];
       (split; [intros [settings H]; discriminate
               |intros (_ & _ & [H|H]); [contradiction|discriminate]]).
Qed.

End Models.

Section AgentHooks.
Context `{S : AgentsSDK} {LocalShellExecutor AgentHooks : Type}.
Variable combinedAgentHooks : list AgentHooks -> AgentHooks.

#[local] Abbreviation Registry :=
  (Registries (LocalShellExecutor := LocalShellExecutor) (AgentHooks := AgentHooks)).

Lemma buildAgentHooks_loop_spec (b : Registry) (names : list string) :
  forall hooks,
    match buildAgentHooks_loop b names hooks with
    | inl err =>
        exists before name after,
          names = before ++ name :: after
          /\ AgentHooksRegistry b !! name = None
          /\ (forall n, n ∈ before -> is_Some (AgentHooksRegistry b !! n))
          /\ err = Errorf "agent hook %q not registered" [ArgQ name]
    | inr out =>
        (forall n, n ∈ names -> is_Some (AgentHooksRegistry b !! n))
        /\ out = hooks ++ omap (fun name => mjoin (AgentHooksRegistry b !! name)) names
    end.
Proof.
  induction names as [|name rest IH]; intros hooks; simpl.
  - split; [intros n Hn; apply elem_of_nil in Hn; contradiction|].
    rewrite app_nil_r. reflexivity.
  - cbn [omap list_omap].
    destruct (AgentHooksRegistry b !! name) as [[hook|]|] eqn:E; cbn [mjoin option_join].
    + specialize (IH (hooks ++ [hook])).
      destruct (buildAgentHooks_loop b rest (hooks ++ [hook])) as [err|out].
      * destruct IH as (before & n & after & -> & H1 & H2 & H3).
        exists (name :: before), n, after. split; [reflexivity|]. split; [exact H1|].
        split; [|exact H3]. intros x Hx. apply elem_of_cons in Hx as [->|Hx]; [eauto|auto].
      * destruct IH as (H1 & ->). split.
        -- intros x Hx. apply elem_of_cons in Hx as [->|Hx]; [eauto|auto].
        -- rewrite <- app_assoc. reflexivity.
    + specialize (IH hooks).
      destruct (buildAgentHooks_loop b rest hooks) as [err|out].
      * destruct IH as (before & n & after & -> & H1 & H2 & H3).
        exists (name :: before), n, after. split; [reflexivity|]. split; [exact H1|].
        split; [|exact H3]. intros x Hx. apply elem_of_cons in Hx as [->|Hx]; [eauto|auto].
      * destruct IH as (H1 & ->). split; [|reflexivity].
        intros x Hx. apply elem_of_cons in Hx as [->|Hx]; [eauto|auto].
    + exists [], name, rest. split; [reflexivity|]. split; [exact E|].
      split; [|reflexivity]. intros x Hx. apply elem_of_nil in Hx. contradiction.
Qed.

(** X24.  The hooks of an agent.  [buildAgentHooks] treats the hook names
    of an agent as [buildRunHooks] treats those of a workflow: it looks up
    the trimmed, distinct, non-empty names in their order and fails on the
    first that is not registered; the hooks registered as nil are skipped;
    no hook left gives nil, one hook gives that hook itself, and more give
    their combination in the order of the names. *)
Theorem buildAgentHooks_spec (b : Registry) (names : list string) :
  match buildAgentHooks combinedAgentHooks b names with
  | inl err =>
      exists before name after,
        uniqueNonEmpty names = before ++ name :: after
        /\ AgentHooksRegistry b !! name = None
        /\ (forall n, n ∈ before -> is_Some (AgentHooksRegistry b !! n))
        /\ err = Errorf "agent hook %q not registered" [ArgQ name]
  | inr hooks =>
      (forall n, n ∈ uniqueNonEmpty names -> is_Some (AgentHooksRegistry b !! n))
      /\ hooks = match omap (fun name => mjoin (AgentHooksRegistry b !! name))
                         (uniqueNonEmpty names) with
                 | [] => None
                 | [hook] => Some hook
                 | found => Some (combinedAgentHooks found)
                 end
  end.
Proof.
  unfold buildAgentHooks.
  pose proof (buildAgentHooks_loop_spec b (uniqueNonEmpty names) []) as H.
  destruct (buildAgentHooks_loop b (uniqueNonEmpty names) []) as [err|out]; [exact H|].
  destruct H as (H1 & ->). simpl.
  destruct (omap _ (uniqueNonEmpty names)) as [|h [|h' l]]; auto.
Qed.

End AgentHooks.

End WithGoLibrary.
End WorkflowProperties.

(** * Properties of workflowrunner/service.go *)

Module ServiceProperties.
Import strings Workflow Service.

(** ** Publishing to several publishers *)

Section Publish.
Context {W Publisher Event : Type}.
Variable publish : Publisher -> Event -> W -> option error * W.

Lemma multiCallbackPublisher_Publish_loop_spec (m : list (option Publisher))
    (event : Event) :
  forall firstErr w,
    multiCallbackPublisher_Publish_loop publish m event firstErr w =
    (match firstErr with
     | Some err => Some err
     | None => head (publishErrors publish (present m) event w)
     end,
     publishAll publish (present m) event w).
Proof.
  induction m as [|[publisher|] m IH]; intros firstErr w.
  - destruct firstErr; reflexivity.
  - cbn [multiCallbackPublisher_Publish_loop]. unfold present in *.
    cbn [omap list_omap publishErrors]. unfold publishAll in *. cbn [fold_left].
    destruct (publish publisher event w) as [err w'] eqn:E. cbn [snd].
    rewrite IH. destruct err as [err|], firstErr as [first|]; reflexivity.
  - cbn [multiCallbackPublisher_Publish_loop]. apply IH.
Qed.

(** X25.  One failing publisher does not silence the others.
    [multiCallbackPublisher.Publish] gives the event to every publisher of
    the list that is not nil, in the order of the list and whatever the
    ones before returned, and returns the first error among those they
    returned, or nil when none returned one. *)
Theorem multiCallbackPublisher_Publish_spec (m : list (option Publisher))
    (event : Event) (w : W) :
  multiCallbackPublisher_Publish publish m event w =
  (head (publishErrors publish (present m) event w),
   publishAll publish (present m) event w).
Proof. apply multiCallbackPublisher_Publish_loop_spec. Qed.

End Publish.

Section WithGoLibrary.
Context `{G : GoLibrary}.

(** ** The publishers of a run *)

Section Publishers.
Context {CallbackPublisher : Type}.
Variable NewHTTPCallbackPublisher : string -> CallbackPublisher.
Variable StdoutCallbackPublisher : CallbackPublisher.

#[local] Abbreviation defaultFactory :=
  (defaultCallbackFactory NewHTTPCallbackPublisher StdoutCallbackPublisher).

Lemma default_mode_is_stdout (decl : CallbackDeclaration) :
  oneOf (cb_Mode decl) [""; "http"; "stdout"; "stdout_verbose"] = true ->
  (eqb (ToLower (cb_Mode decl)) "stdout" || eqb (ToLower (cb_Mode decl)) "stdout_verbose")
  = oneOf (cb_Mode decl) ["stdout"; "stdout_verbose"].
Proof.
  unfold oneOf. cbn [existsb]. rewrite !orb_false_r. intros H.
  destruct (String.eqb_spec (cb_Mode decl) "") as [->|_]; [reflexivity|].
  destruct (String.eqb_spec (cb_Mode decl) "http") as [->|_]; [reflexivity|].
  destruct (String.eqb_spec (cb_Mode decl) "stdout") as [->|_]; [reflexivity|].
  destruct (String.eqb_spec (cb_Mode decl) "stdout_verbose") as [->|_]; [reflexivity|].
  discriminate.
Qed.

Lemma Execute_publishers_default (decls : list CallbackDeclaration) :
  forall i p,
    match Execute_publishers defaultFactory i decls p with
    | inr p' =>
        Forall (fun decl =>
                  oneOf (cb_Mode decl) [""; "http"; "stdout"; "stdout_verbose"] = true)
          decls
        /\ publishers p' =
        publishers p ++
        List.map (fun decl =>
                    Some (if oneOf (cb_Mode decl) [""; "http"]
                          then NewHTTPCallbackPublisher (cb_Target decl)
                          else StdoutCallbackPublisher)) decls
        /\ hasStdout p' =
           hasStdout p
           || existsb (fun decl => oneOf (cb_Mode decl) ["stdout"; "stdout_verbose"]) decls
        /\ hasNonStdout p' =
           hasNonStdout p
           || existsb (fun decl => negb (oneOf (cb_Mode decl) ["stdout"; "stdout_verbose"]))
                decls
        /\ hasVerboseStdout p' =
           hasVerboseStdout p
           || existsb (fun decl => eqb (cb_Mode decl) "stdout_verbose") decls
    | inl err =>
        exists j decl,
          decls !! j = Some decl
          /\ oneOf (cb_Mode decl) [""; "http"; "stdout"; "stdout_verbose"] = false
          /\ err = Errorf_w "create callback publisher[%d]: %w" [ArgD (Z.of_nat (i + j))]
                     (Errorf "unsupported callback mode %q" [ArgQ (cb_Mode decl)])
          /\ forall k earlier, (k < j)%nat -> decls !! k = Some earlier ->
               oneOf (cb_Mode earlier) [""; "http"; "stdout"; "stdout_verbose"] = true
    end.
Proof.
  induction decls as [|decl rest IH]; intros i p.
  - cbn [Execute_publishers List.map existsb]. rewrite app_nil_r, !orb_false_r.
    split; [constructor|auto].
  - cbn [Execute_publishers]. cbv zeta.
    assert (oneOf (cb_Mode decl) [""; "http"; "stdout"; "stdout_verbose"]
            = oneOf (cb_Mode decl) [""; "http"]
              || oneOf (cb_Mode decl) ["stdout"; "stdout_verbose"]) as Hsplit.
    { unfold oneOf. cbn [existsb]. rewrite !orb_false_r, orb_assoc. reflexivity. }
    unfold defaultCallbackFactory at 1.
    destruct (oneOf (cb_Mode decl) [""; "http"]) eqn:Ehttp;
      [|destruct (oneOf (cb_Mode decl) ["stdout"; "stdout_verbose"]) eqn:Estdout].
    3: { exists 0%nat, decl. rewrite Nat.add_0_r, Hsplit. cbn [orb].
         split; [reflexivity|]. split; [reflexivity|]. split; [reflexivity|].
         intros k earlier Hk. lia. }
    all: assert (oneOf (cb_Mode decl) [""; "http"; "stdout"; "stdout_verbose"] = true)
           as Hsupported by (rewrite Hsplit; reflexivity).
    all: rewrite (default_mode_is_stdout decl Hsupported).
    all: assert (oneOf (cb_Mode decl) ["stdout"; "stdout_verbose"] = false
                 -> eqb (cb_Mode decl) "stdout_verbose" = false) as Hverbose
           by (unfold oneOf; cbn [existsb]; intros H;
               apply orb_false_elim in H as [_ H]; rewrite orb_false_r in H; exact H).
    all: match goal with
         | |- context [Execute_publishers _ ?n ?l ?q] =>
             specialize (IH n q);
             destruct (Execute_publishers defaultFactory n l q) as [err|p']
         end.
    + destruct IH as (j & d & Hj & Hd & -> & Hearlier).
      exists (S j), d. split; [exact Hj|]. split; [exact Hd|].
      split; [replace (i + S j)%nat with (S i + j)%nat by lia; reflexivity|].
      intros [|k] earlier Hk Hlook; simpl in Hlook.
      * injection Hlook as <-. exact Hsupported.
      * apply (Hearlier k earlier); [lia|exact Hlook].
    + destruct IH as (Hall & Hp & Hs & Hn & Hv). split; [constructor; assumption|].
      cbn [publishers hasStdout hasNonStdout hasVerboseStdout] in *.
      rewrite Hp, Hs, Hn, Hv. cbn [List.map existsb]. rewrite <- app_assoc.
      assert (oneOf (cb_Mode decl) ["stdout"; "stdout_verbose"] = false) as Estdout.
      { revert Ehttp. unfold oneOf. cbn [existsb]. rewrite !orb_false_r.
        destruct (String.eqb_spec (cb_Mode decl) "") as [->|_]; [reflexivity|].
        destruct (String.eqb_spec (cb_Mode decl) "http") as [->|_]; [reflexivity|].
        discriminate. }
      rewrite Estdout, (Hverbose Estdout), Ehttp. cbn [negb andb orb].
      rewrite !orb_true_r. cbn [orb]. auto.
    + destruct IH as (j & d & Hj & Hd & -> & Hearlier).
      exists (S j), d. split; [exact Hj|]. split; [exact Hd|].
      split; [replace (i + S j)%nat with (S i + j)%nat by lia; reflexivity|].
      intros [|k] earlier Hk Hlook; simpl in Hlook.
      * injection Hlook as <-. exact Hsupported.
      * apply (Hearlier k earlier); [lia|exact Hlook].
    + destruct IH as (Hall & Hp & Hs & Hn & Hv). split; [constructor; assumption|].
      cbn [publishers hasStdout hasNonStdout hasVerboseStdout] in *.
      rewrite Hp, Hs, Hn, Hv. cbn [List.map existsb]. rewrite <- app_assoc.
      assert (eqb (ToLower (cb_Mode decl)) "stdout_verbose"
              = eqb (cb_Mode decl) "stdout_verbose") as ->.
      { revert Estdout. unfold oneOf. cbn [existsb]. rewrite !orb_false_r.
        destruct (String.eqb_spec (cb_Mode decl) "stdout") as [->|_]; [reflexivity|].
        destruct (String.eqb_spec (cb_Mode decl) "stdout_verbose") as [->|_];
          [reflexivity|discriminate]. }
      rewrite Estdout, Ehttp. cbn [negb andb orb]. rewrite !orb_true_r.
      destruct (eqb (cb_Mode decl) "stdout_verbose"), (hasVerboseStdout p),
               (hasNonStdout p); cbn [orb]; auto.
Qed.

Lemma none_fails {A : Type} (f : A -> bool) (l : list A) :
  negb (existsb (fun x => negb (f x)) l) = true <-> Forall (fun x => f x = true) l.
Proof.
  induction l as [|x l IH]; simpl.
  - split; [constructor|reflexivity].
  - destruct (f x) eqn:E; simpl.
    + rewrite IH. split; [intros H; constructor; assumption|].
      intros H. inversion H; assumption.
    + split; [discriminate|]. intros H. inversion H; congruence.
Qed.

Lemma all_and_some {A : Type} (f : A -> bool) (l : list A) :
  existsb f l && negb (existsb (fun x => negb (f x)) l) = true
  <-> l <> [] /\ Forall (fun x => f x = true) l.
Proof.
  rewrite andb_true_iff, none_fails. split.
  - intros [Hsome Hall]. split; [|exact Hall]. intros ->. discriminate.
  - intros [Hne Hall]. split; [|exact Hall].
    destruct l as [|x l]; [contradiction|]. inversion Hall as [|? ? Hx _]; subst.
    simpl. rewrite Hx. reflexivity.
Qed.


End Publishers.

(** ** The approvals of a session *)

Section ExecutionState.
Context {ExecutionStatus Time Store ApprovalRequestState Others : Type}.
Context `{StatusEq : EqDecision ExecutionStatus}.
Variable ExecutionStatusIdle : ExecutionStatus.
Variable ExecutionStatusWaitingApproval : ExecutionStatus.
Variable ExecutionStatusFailed : ExecutionStatus.
Variable RequestID : ApprovalRequestState -> string.

#[local] Abbreviation State :=
  (WorkflowExecutionState (ExecutionStatus := ExecutionStatus) (Time := Time)
     (ApprovalRequestState := ApprovalRequestState) (Others := Others)).

Variable store_Load : string -> Store -> (State * bool * option error) * Store.
Variable store_Save : State -> Store -> option error * Store.
Variable NewInMemoryExecutionStateStore : Store.

(** The approvals that stay pending when [approvalID] is resolved. *)
#[local] Abbreviation others approvalID :=
  (List.filter (fun approval => negb (eqb (RequestID approval) approvalID))).

Lemma ResolveApproval_filter_spec (approvalID : string) (n : nat) :
  forall i k array removed,
    (k <= i)%nat -> (i + n = List.length array)%nat ->
    match ResolveApproval_filter RequestID approvalID n i k array removed with
    | (array', k', removed') =>
        take k' array' = take k array ++ others approvalID (drop i array)
        /\ removed' =
           removed
           || existsb (fun approval => eqb (RequestID approval) approvalID) (drop i array)
    end.
Proof.
  induction n as [|n IH]; intros i k array removed Hk Hn.
  - cbn [ResolveApproval_filter]. rewrite drop_ge by lia. cbn [List.filter existsb].
    rewrite app_nil_r, orb_false_r. auto.
  - cbn [ResolveApproval_filter].
    destruct (array !! i) as [approval|] eqn:Ei.
    2: { apply lookup_ge_None in Ei. lia. }
    rewrite (drop_S _ _ _ Ei). cbn [List.filter existsb].
    destruct (eqb (RequestID approval) approvalID) eqn:E; cbn [negb].
    + specialize (IH (S i) k array true). 
      destruct (ResolveApproval_filter RequestID approvalID n (S i) k array true)
        as [[array' k'] removed'].
      destruct IH as [-> ->]; [lia|lia|]. split; [reflexivity|].
      cbn [orb]. rewrite orb_true_r. reflexivity.
    + specialize (IH (S i) (S k) (<[k := approval]> array) removed).
      destruct (ResolveApproval_filter RequestID approvalID n (S i) (S k)
                  (<[k := approval]> array) removed) as [[array' k'] removed'].
      destruct IH as [-> ->]; [lia|rewrite length_insert; lia|].
      rewrite drop_insert_lt by lia. cbn [orb]. split; [|reflexivity].
      rewrite (take_S_r _ _ approval).
      2: { apply list_lookup_insert_eq. lia. }
      rewrite take_insert_ge by lia. rewrite <- app_assoc. reflexivity.
Qed.

(** X27.  Resolving an approval.  For a session whose stored state has
    pending approvals, [ResolveApproval] fails without saving when none of
    them has the given ID.  Otherwise it saves the state with every pending
    approval of that ID removed and the others kept in their order, with
    the time of the call, and with its status changed only when none is
    left and the run was waiting for approval: to idle on approve, to
    failed on reject.  It returns what the store returns. *)
Theorem ResolveApproval_removes (s : RunnerService (Store := Store))
    (sessionID approvalID : string) (approve : bool) (now : Time)
    (state : State) (store : Store) :
  store_Load sessionID (stateStore NewInMemoryExecutionStateStore s)
  = ((state, true, None), store) ->
  wes_PendingApprovals state <> [] ->
  ResolveApproval ExecutionStatusIdle ExecutionStatusWaitingApproval
    ExecutionStatusFailed RequestID store_Load store_Save
    NewInMemoryExecutionStateStore s sessionID approvalID approve now
  = if existsb (fun approval => eqb (RequestID approval) approvalID)
         (wes_PendingApprovals state)
    then
      let pending := others approvalID (wes_PendingApprovals state) in
      let status :=
        if bool_decide (pending = [])
           && bool_decide (wes_Status state = ExecutionStatusWaitingApproval)
        then if approve then ExecutionStatusIdle else ExecutionStatusFailed
        else wes_Status state in
      let '(err, store) :=
        store_Save {| wes_Status := status; wes_PendingApprovals := pending;
                      wes_ResumeToken := wes_ResumeToken state;
                      wes_WorkflowName := wes_WorkflowName state;
                      wes_UpdatedAt := now; wes_Others := wes_Others state |} store in
      (err, {| StateStore := Some store |})
    else
      (Some (Errorf "approval id %q not found in session %q"
               [ArgQ approvalID; ArgQ sessionID]),
       {| StateStore := Some store |}).
Proof.
  intros Hload Hpending. unfold ResolveApproval. rewrite Hload. cbn [negb].
  destruct (wes_PendingApprovals state) as [|first rest] eqn:Ep; [contradiction|].
  change (List.length (first :: rest) =? 0)%nat with false. cbv iota.
  pose proof (ResolveApproval_filter_spec approvalID (List.length (first :: rest)) 0 0
                (first :: rest) false (le_n 0) eq_refl) as H.
  destruct (ResolveApproval_filter RequestID approvalID (List.length (first :: rest)) 0 0
              (first :: rest) false) as [[array k] removed].
  destruct H as [Htake ->]. rewrite drop_0 in *. cbn [take app orb] in Htake.
  destruct (existsb _ (first :: rest)); cbn [negb]; [|reflexivity].
  cbv zeta. rewrite Htake.
  assert (forall l : list ApprovalRequestState,
            (List.length l =? 0)%nat = bool_decide (l = [])) as ->.
  { intros [|x l]; reflexivity. }
  reflexivity.
Qed.

End ExecutionState.
End WithGoLibrary.

(** ** The error of a run *)

Section RunErrors.
Import Items Streaming.
Context `{R : Responses}.
Variable Agent_Name : Agent -> string.


End RunErrors.

End ServiceProperties.


(** ** The statements at concrete runs and requests *)

Module Concrete.
Import Items Streaming Examples.
#[local] Existing Instance text_responses.

(** C1, the first error does not win.  Turn 2 of a run limited to 1 turn,
    with a triggered guardrail result in the queue and no task: after one poll the
    slot holds the tripwire error, not the turn-limit error that was written
    first, and the next poll replaces it by another error. *)
Lemma C1_counterexample :
  (currentTurn exceededTrippedRun > maxTurns exceededTrippedRun)%Z
  /\ inputGuardrailQueue exceededTrippedRun = [triggered]
  /\ TripwireTriggered (igr_Output triggered) = true
  /\ storedError (poll exceededTrippedRun)
     = Some (InputGuardrailTripwireTriggeredError 1 triggered)
  /\ storedError (poll (poll exceededTrippedRun))
     = Some (MaxTurnsExceededError 2 "Max turns (1) exceeded")
  /\ storedError (poll (poll exceededTrippedRun)) <> storedError (poll exceededTrippedRun).
Proof.
  split; [reflexivity|]. split; [reflexivity|]. split; [reflexivity|].
  split; [reflexivity|]. split; [reflexivity|]. discriminate.
Qed.

Lemma noTaskError_without_tasks (r : RunResultStreaming) :
  runImplTask r = None -> inputGuardrailsTask r = None -> outputGuardrailsTask r = None ->
  noTaskError r.
Proof. intros H1 H2 H3 [] t Ht; simpl in Ht; congruence. Qed.

Lemma tasksSettled_without_tasks (r : RunResultStreaming) :
  runImplTask r = None -> inputGuardrailsTask r = None -> outputGuardrailsTask r = None ->
  tasksSettled r.
Proof. intros H1 H2 H3 []; unfold taskRunning; simpl; rewrite ?H1, ?H2, ?H3; reflexivity. Qed.

(** C1 at [exceededTrippedRun]: the caller gets the turn-limit error. *)
Lemma C1_witness :
  (currentTurn exceededTrippedRun > maxTurns exceededTrippedRun)%Z
  /\ lastTriggered (inputGuardrailQueue exceededTrippedRun) = Some triggered
  /\ noTaskError exceededTrippedRun
  /\ tasksSettled exceededTrippedRun
  /\ exists p r',
       StreamEvents countingVisitor [] exceededTrippedRun 0%nat
       = Returned (Some (MaxTurnsExceededError p "Max turns (1) exceeded")) [] r' 0%nat
       /\ getRunData p r' = Some (createErrorDetails exceededTrippedRun).
Proof.
  assert (currentTurn exceededTrippedRun > maxTurns exceededTrippedRun)%Z as H1
    by reflexivity.
  assert (lastTriggered (inputGuardrailQueue exceededTrippedRun) = Some triggered) as H2
    by reflexivity.
  pose proof (noTaskError_without_tasks exceededTrippedRun eq_refl eq_refl eq_refl) as H3.
  pose proof (tasksSettled_without_tasks exceededTrippedRun eq_refl eq_refl eq_refl) as H4.
  split; [exact H1|]. split; [exact H2|]. split; [exact H3|]. split; [exact H4|].
  destruct (StreamingProperties.C1_last_write_wins exceededTrippedRun triggered H1 H2 H3)
    as (_ & _ & H & _).
  exact (H H4 nat countingVisitor [] 0%nat).
Defined.

(** C5, the turn-limit error is not always returned.  Turn 2 of a run
    limited to 1 turn whose
    run-execution task has failed: the turn-limit error is written and then
    overwritten in the same poll, and [StreamEvents] returns the error of
    the task. *)
Lemma C5_counterexample :
  (currentTurn exceededFailedRun > maxTurns exceededFailedRun)%Z
  /\ storedError (checkErrors_maxTurns exceededFailedRun)
     = Some (MaxTurnsExceededError 0 "Max turns (1) exceeded")
  /\ storedError (poll exceededFailedRun)
     = Some (Errorf_w "run-impl task error" (OtherError "model call failed"))
  /\ exists r',
       StreamEvents countingVisitor [] exceededFailedRun 0%nat
       = Returned (Some (Errorf_w "run-impl task error" (OtherError "model call failed")))
           [] r' 0%nat.
Proof.
  split; [reflexivity|]. split; [reflexivity|]. split; [reflexivity|].
  eexists. vm_compute. reflexivity.
Qed.

(** C5 at [exceededRun]: the caller gets the turn-limit error. *)
Lemma C5_witness :
  (currentTurn exceededRun > maxTurns exceededRun)%Z
  /\ noTaskError exceededRun
  /\ tasksSettled exceededRun
  /\ exists p r',
       StreamEvents countingVisitor [] exceededRun 0%nat
       = Returned (Some (MaxTurnsExceededError p "Max turns (1) exceeded")) [] r' 0%nat
       /\ getRunData p r' = Some (createErrorDetails exceededRun).
Proof.
  assert (currentTurn exceededRun > maxTurns exceededRun)%Z as H1 by reflexivity.
  pose proof (noTaskError_without_tasks exceededRun eq_refl eq_refl eq_refl) as H2.
  pose proof (tasksSettled_without_tasks exceededRun eq_refl eq_refl eq_refl) as H3.
  split; [exact H1|]. split; [exact H2|]. split; [exact H3|].
  destruct (StreamingProperties.C5_turn_limit_error exceededRun)
    as (_ & _ & _ & _ & H & _).
  exact (H H1 H2 H3 nat countingVisitor [] 0%nat).
Defined.

(** The turn-limit scenario of the design document: the consumer finds the
    limit exceeded at its first check, waits for the run-execution task and
    returns the turn-limit error, whose snapshot names the last agent. *)
Example StreamEvents_turn_limit_scenario :
  exists r',
    StreamEvents countingVisitor windDown exceededStreamingRun 0%nat
    = Returned (Some (MaxTurnsExceededError 1 "Max turns (1) exceeded")) [] r' 0%nat
    /\ (red_LastAgent <$> getRunData 1 r') = Some (Some "triage")
    /\ IsComplete r' = true.
Proof. eexists. split; [vm_compute; reflexivity|]. split; reflexivity. Qed.

(** C3 (defect).  The tasks are not awaited on every return path of
    [StreamEvents].  One event is queued, the run-execution task is at work,
    and the visitor fails on the event: [StreamEvents] returns the error of
    the visitor at once, and the task, neither awaited nor cancelled, is
    still running when the function has returned. *)
Theorem C3_visitor_error_leaves_task_running :
  StreamEvents failingVisitor [] streamingRun 0%nat
  = Returned (Some (OtherError "consumer closed")) [] (setEventQueue [] streamingRun) 1%nat
  /\ taskRunning RunImpl (setEventQueue [] streamingRun) = true
  /\ runImplTask (setEventQueue [] streamingRun) = Some runningTask
  /\ task_cancelRequested runningTask = false.
Proof. repeat split. Qed.

(** C6 at [streamingRun]: the visitor fails on the second event of a run
    whose task is still at work. *)
Lemma C6_witness :
  StreamEvents failOnSecond oneMoreEvent streamingRun 0%nat
  = Returned (Some (OtherError "consumer closed")) []
      (setEventQueue [] streamingRun) 2%nat
  /\ getStoredError (setEventQueue [] streamingRun) = None.
Proof.
  assert (loopReaches failOnSecond (oneMoreEvent, streamingRun, 0%nat)
            ([], setEventQueue [completedEvent] streamingRun,
             1%nat)) as Hreach.
  { eapply loopReaches_next; [reflexivity|apply loopReaches_here]. }
  destruct (StreamingProperties.C6_visitor_error_returned (R := text_responses) failOnSecond
              oneMoreEvent streamingRun 0%nat
              [] (setEventQueue [completedEvent] streamingRun)
              1%nat
              [] (setEventQueue [completedEvent] streamingRun)
              completedEvent
              [] (setEventQueue [] streamingRun) 2%nat (OtherError "consumer closed")
              Hreach eq_refl eq_refl eq_refl eq_refl eq_refl eq_refl) as (H1 & _ & H3).
  split; [exact H1|exact H3].
Defined.

(** C7 at [toolFailedRun], whose run-execution task has failed with an
    [AgentsError] without data. *)
Lemma C7_witness :
  storedError (checkErrors_task RunImpl toolFailedRun)
  = Some (Errorf_w "run-impl task error" (AgentsErrorAt 0 "tool failed"))
  /\ getRunData 0 (poll toolFailedRun) = Some (createErrorDetails toolFailedRun)
  /\ getRunData 0 (poll (poll toolFailedRun)) = getRunData 0 (poll toolFailedRun).
Proof.
  pose proof (StreamingProperties.C7_task_error_annotated_once
                RunImpl toolFailedRun (failedTask (AgentsErrorAt 0 "tool failed"))
                (AgentsErrorAt 0 "tool failed") 0%nat
                eq_refl eq_refl eq_refl eq_refl (Nat.lt_0_succ 0))
    as (H1 & _ & _ & _ & H5 & H6).
  split; [exact H1|]. split; [exact H5|exact H6].
Defined.

(** C8 at [streamingRun], whose task puts two more elements on the queues
    before it returns. *)
Lemma C8_witness :
  exists r1,
    Cancel finishingSchedule streamingRun = Some ([], r1)
    /\ (IsComplete r1 = true /\ eventQueue r1 = [] /\ inputGuardrailQueue r1 = [])
    /\ forall sched2, Cancel sched2 r1 = Some (sched2, r1).
Proof.
  eexists. split; [vm_compute; reflexivity|].
  exact (StreamingProperties.C8_Cancel_idempotent finishingSchedule streamingRun [] _
           eq_refl).
Defined.

(** C4 at a run with one new message: the input list does not change when
    the run is marked complete. *)
Lemma C4_witness :
  ToInputList (setNewItems [messageItem] freshRun)
  = Ok ["What is the capital of France?"; "Paris"]
  /\ ToInputList (markAsComplete (setNewItems [messageItem] freshRun))
     = ToInputList (setNewItems [messageItem] freshRun).
Proof.
  destruct (proj2 (proj2 (ItemsProperties.C4_toInputList_round_trip (R := text_responses)
                            (input freshRun) [messageItem]))
              (setNewItems [messageItem] freshRun)
              (markAsComplete (setNewItems [messageItem] freshRun))
              eq_refl eq_refl eq_refl eq_refl) as (H1 & H2).
  split; [rewrite H1; reflexivity|exact H2].
Defined.

(** The same list with a file search call among the new items panics. *)
Example toInputList_file_search :
  toInputList (input freshRun) [messageItem; fileSearchItem]
  = Panic "unexpected ToolCallItemType type agents.ResponseFileSearchToolCall".
Proof. reflexivity. Qed.

Import Workflow.
#[local] Existing Instance ascii_library.
#[local] Existing Instance text_sdk.

(** C9 at [triageRequest], which is accepted and built. *)
Lemma C9_witness :
  ValidateWorkflowRequest triageRequest = None
  /\ (forall err, Build namedAgents plainBuilder triageRequest = inl err ->
                  unresolvedReference err = false)
  /\ (forall result, Build namedAgents plainBuilder triageRequest = inr result ->
                     is_Some (br_AgentMap result !! br_StartingAgent result)).
Proof.
  assert (ValidateWorkflowRequest triageRequest = None) as H by (vm_compute; reflexivity).
  split; [exact H|].
  destruct (WorkflowProperties.C9_validated_references_resolve
              namedAgents plainBuilder triageRequest H) as (H1 & _ & H3).
  split; [exact H1|]. intros result Hr. exact (proj1 (H3 result Hr)).
Defined.

Example Build_triageRequest :
  exists result, Build namedAgents plainBuilder triageRequest = inr result
                 /\ br_StartingAgent result = "triage"
                 /\ agent_Handoffs <$> (br_AgentMap result !! "triage")
                    = Some ["researcher"].
Proof. eexists. split; [vm_compute; reflexivity|]. split; reflexivity. Qed.

(** C10 at an input of type ["JSON"] with a uri. *)
Lemma C10_witness :
  unsupportedKind (wi_Type jsonInput) = true
  /\ providesPayload jsonInput = true
  /\ validateInputs [jsonInput] = None
  /\ buildInputItems noMessages [jsonInput]
     = Some (inl (Errorf_w "inputs[%d]: %w" [ArgD 0]
                    (Errorf "type %q not supported yet" [ArgQ "JSON"]))).
Proof.
  assert (unsupportedKind (wi_Type jsonInput) = true) as H1 by reflexivity.
  assert (providesPayload jsonInput = true) as H2 by reflexivity.
  split; [exact H1|]. split; [exact H2|].
  destruct (WorkflowProperties.C10_validated_input_rejected noMessages jsonInput H1 H2)
    as (H3 & _ & H5 & _).
  split; [exact H3|exact H5].
Defined.

(** ** Further statements at concrete inputs *)

Lemma atRest_without_tasks (r : Streaming.RunResultStreaming) :
  Streaming.runImplTask r = None -> Streaming.inputGuardrailsTask r = None ->
  Streaming.outputGuardrailsTask r = None ->
  (Streaming.currentTurn r <= Streaming.maxTurns r)%Z ->
  Streaming.storedError r = None -> Streaming.inputGuardrailQueue r = [] ->
  StreamingTerms.atRest r.
Proof.
  intros H1 H2 H3 Hturns Hstored Hqueue.
  split; [apply tasksSettled_without_tasks; assumption|].
  split; [apply noTaskError_without_tasks; assumption|].
  split; [exact Hturns|]. split; [exact Hstored|]. rewrite Hqueue. reflexivity.
Qed.

(** At [endedRun] the visitor sees the one event in front of the sentinel;
    the event behind it stays on the queue. *)
Lemma StreamEvents_delivers_in_order_witness :
  exists sched' r',
    Streaming.StreamEvents countingVisitor [] endedRun 0%nat
    = Streaming.Returned None sched' r' 1%nat
    /\ Streaming.eventQueue r' = [completedEvent].
Proof.
  assert (StreamingTerms.atRest endedRun) as Hrest.
  { apply atRest_without_tasks; try reflexivity. simpl. lia. }
  destruct (StreamingProperties.StreamEvents_delivers_in_order
              countingVisitor [] endedRun 0%nat Hrest eq_refl)
    as (sched' & r' & Hreturned & Hafter).
  exists sched', r'. split; [exact Hreturned|]. exact (proj1 (Hafter eq_refl)).
Defined.

(** At [abandonedRun] the consumer is left waiting. *)
Lemma StreamEvents_waits_without_sentinel_witness :
  Streaming.StreamEvents countingVisitor [] abandonedRun 0%nat = Streaming.Blocked.
Proof.
  apply StreamingProperties.StreamEvents_waits_without_sentinel; try reflexivity.
  apply atRest_without_tasks; try reflexivity. simpl. lia.
Defined.


(** [triageRequest] is accepted, so its query is not blank and its agents
    have distinct names. *)
Lemma ValidateWorkflowRequest_guarantees_witness :
  ValidateWorkflowRequest triageRequest = None
  /\ strings.TrimSpace (req_Query triageRequest) <> ""
  /\ NoDup (List.map ad_Name (wd_Agents (req_Workflow triageRequest))).
Proof.
  assert (ValidateWorkflowRequest triageRequest = None) as H by (vm_compute; reflexivity).
  split; [exact H|].
  destruct (WorkflowProperties.ValidateWorkflowRequest_guarantees triageRequest H)
    as (Hquery & _ & _ & _ & _ & _ & _ & _ & Hnames & _).
  split; [exact Hquery|exact Hnames].
Defined.

(** A session that asks for postgres finds no factory in [plainBuilder]. *)
Lemma resolveSessionFactory_validated_witness :
  validateSession postgresSession = None
  /\ exists store,
       resolveSessionFactory plainBuilder postgresSession
       = inl (Errorf "persistent_store %q not registered" [ArgQ store])
       /\ store <> "sqlite".
Proof.
  assert (validateSession postgresSession = None) as H by reflexivity.
  split; [exact H|].
  destruct (WorkflowProperties.resolveSessionFactory_validated plainBuilder postgresSession
              (Errorf "persistent_store %q not registered" [ArgQ "postgres"]) H eq_refl)
    as (store & Herr & Hstore & _).
  exists store. split; [rewrite <- Herr; reflexivity|exact Hstore].
Defined.

(** A tool of type Hosted_MCP stops the build of [triageItem]. *)
Lemma Build_tools_type_as_written_witness :
  Build_tools plainBuilder triageRequest triageItem [toolDecl "Hosted_MCP" "docs"] ∅
  = inl (Errorf "agent %q tool type %q not registered" [ArgQ "triage"; ArgQ "Hosted_MCP"])
  /\ validateToolKind (toolDecl "Hosted_MCP" "docs") = None.
Proof.
  assert (lowerCaseKeys plainBuilder) as Hkeys.
  { intros key [factory Hfactory]. simpl in Hfactory.
    rewrite lookup_empty in Hfactory. discriminate. }
  assert (strings.ToLower (td_Type (toolDecl "Hosted_MCP" "docs"))
          <> td_Type (toolDecl "Hosted_MCP" "docs")) as Hcase by (vm_compute; discriminate).
  destruct (WorkflowProperties.Build_tools_type_as_written plainBuilder triageRequest
              triageItem (toolDecl "Hosted_MCP" "docs") [] ∅ Hkeys Hcase)
    as (Hbuild & Hvalid & _).
  split; [exact Hbuild|]. apply Hvalid.
  - vm_compute. discriminate.
  - vm_compute. intros [H|[H|[H|[]]]]; discriminate.
Defined.

(** The build of [triageRequest] wires the triage agent to the researcher
    and gives it the summarizer as a tool. *)
Lemma Build_wires_agents_witness :
  exists result,
    Build namedAgents plainBuilder triageRequest = inr result
    /\ br_AgentMap result !! "triage"
       = Some {| agent_config := "triage"; agent_Handoffs := ["researcher"];
                 agent_Tools := [AsTool "summarizer" "" "" None] |}.
Proof.
  destruct (Build namedAgents plainBuilder triageRequest) as [err|result] eqn:E.
  { vm_compute in E. discriminate. }
  exists result. split; [reflexivity|].
  destruct (WorkflowProperties.Build_wires_agents namedAgents plainBuilder triageRequest
              result E (agentDecl "triage" ["researcher"] ["summarizer"])
              (or_introl eq_refl))
    as (config & tools & Hconfig & Hlength & Hlookup).
  injection Hconfig as <-. destruct tools; [|discriminate]. exact Hlookup.
Defined.

(** [triageRequest] has no inputs: its build has a session, made by the
    sqlite factory, and groups the run under the session ID. *)
Lemma Build_session_iff_no_inputs_witness :
  exists result,
    Build namedAgents plainBuilder triageRequest = inr result
    /\ rc_GroupID (br_Runner result) = "session-1"
    /\ is_Some (br_Session result).
Proof.
  destruct (Build namedAgents plainBuilder triageRequest) as [err|result] eqn:E.
  { vm_compute in E. discriminate. }
  exists result. split; [reflexivity|].
  destruct (WorkflowProperties.Build_session_iff_no_inputs namedAgents plainBuilder
              triageRequest result E)
    as (_ & Hgroup & _ & Hsession & _).
  split; [exact Hgroup|].
  destruct (Hsession eq_refl) as (factory & session & _ & _ & -> & _). eauto.
Defined.

(** A text input with a string as content becomes a message of the user. *)
Lemma text_input_conversion_witness :
  workflowInputToResponseItem
    (buildMessageInput (ResponseInputAudioParam := unit) stringAt failingMarshal
       failingUnmarshal failingUnmarshal) textInput
  = Some (inr {| OfMessage :=
                   Some {| msg_Role := EasyInputMessageRoleUser;
                           msg_Content := contentString "What changed today?" |} |}).
Proof.
  assert (strings.ToLower (strings.TrimSpace (wi_Type textInput)) = "text") as H
    by reflexivity.
  exact (proj1 (WorkflowProperties.text_input_conversion (ResponseInputAudioParam := unit)
                  stringAt failingMarshal failingUnmarshal failingUnmarshal textInput H)
           "What changed today?" eq_refl).
Defined.

(** An image input with a uri becomes a message with one image part. *)
Lemma image_shortcut_conversion_witness :
  workflowInputToResponseItem
    (buildMessageInput (ResponseInputAudioParam := unit) stringAt failingMarshal
       failingUnmarshal failingUnmarshal) imageInput
  = Some (inr {| OfMessage :=
                   Some {| msg_Role := EasyInputMessageRoleUser;
                           msg_Content :=
                             contentList
                               [imageContent
                                  {| image_Detail := ResponseInputImageDetailAuto;
                                     image_ImageURL := Some "https://example.com/cat.png";
                                     image_FileID := None |}] |} |}).
Proof.
  apply (WorkflowProperties.image_shortcut_conversion (ResponseInputAudioParam := unit)
           stringAt failingMarshal failingUnmarshal failingUnmarshal imageInput);
    try reflexivity.
  vm_compute. discriminate.
Defined.

(** The hook that fails is the last one called. *)
Lemma combinedHooks_stop_at_first_error_witness :
  combinedHooks_call loggingHook
    ([Some ("audit", false); None] ++ Some ("guard", true) :: [Some ("metrics", false)])
    "OnAgentStart" []
  = (Some (Errorf "hook %q failed" [ArgQ "guard"]), ["audit"; "guard"]).
Proof.
  apply (WorkflowProperties.combinedHooks_stop_at_first_error loggingHook
           [Some ("audit", false); None] [Some ("metrics", false)] ("guard", true)
           "OnAgentStart" [] ["audit"]); reflexivity.
Defined.

(** The custom behaviour is accepted by validation and refused by the
    builder. *)
Lemma applyToolUseBehavior_validated_witness :
  validateToolUseBehavior (Some customBehavior) = None
  /\ exists d, Some customBehavior = Some d
       /\ strings.ToLower (strings.TrimSpace (tub_Mode d)) = "custom"
       /\ strings.TrimSpace (tub_Handler d) <> ""
       /\ Errorf "custom tool_use_behavior handler %q not supported yet" [ArgQ "pick_tool"]
          = Errorf "custom tool_use_behavior handler %q not supported yet"
              [ArgQ (tub_Handler d)].
Proof.
  assert (validateToolUseBehavior (Some customBehavior) = None) as H by reflexivity.
  split; [exact H|].
  exact (WorkflowProperties.applyToolUseBehavior_validated (Some customBehavior) H).
Defined.

(** A function tool with a name is looked up under that name. *)
Lemma validated_tool_has_reference_witness :
  validateToolKind (toolDecl "function" "search") = None
  /\ buildFunctionTool noRegistries (toolDecl "function" "search") triageEnv
     <> inl (errors_New "function tool requires function_ref or name").
Proof.
  assert (validateToolKind (toolDecl "function" "search") = None) as H by reflexivity.
  split; [exact H|].
  exact (proj1 (WorkflowProperties.validated_tool_has_reference shellTool noRegistries
                  (toolDecl "function" "search") triageEnv H) eq_refl).
Defined.

(** The provider OpenAI with the verbosity High is accepted. *)
Lemma applyModelDeclaration_accepts_witness :
  exists settings, applyModelDeclaration noUnicodeFold openaiModel = inr settings.
Proof.
  apply (WorkflowProperties.applyModelDeclaration_accepts noUnicodeFold openaiModel);
    [reflexivity|].
  split; [right; reflexivity|]. split; [vm_compute; discriminate|right; reflexivity].
Defined.

(** Approving the first of two pending approvals keeps the run waiting for
    the second. *)
Lemma ResolveApproval_removes_witness :
  Service.ResolveApproval "idle" "waiting_approval" "failed" (fun id : string => id)
    slot_Load slot_Save None waitingService "session-1" "approval-1" true 9%nat
  = (None,
     {| Service.StateStore :=
          Some (Some {| Service.wes_Status := "waiting_approval";
                        Service.wes_PendingApprovals := ["approval-2"];
                        Service.wes_ResumeToken := "session-1:run-1";
                        Service.wes_WorkflowName := "news";
                        Service.wes_UpdatedAt := 9%nat; Service.wes_Others := tt |}) |}).
Proof.
  rewrite (ServiceProperties.ResolveApproval_removes "idle" "waiting_approval" "failed"
             (fun id : string => id) slot_Load slot_Save None waitingService
             "session-1" "approval-1" true 9%nat waitingState (Some waitingState)
             eq_refl ltac:(discriminate)).
  reflexivity.
Defined.

End Concrete.
